(** * xrandr-gui: display parser, mirror groups, selection, snap engine,
      apply, unlink, refresh

    A shallow embedding of the logic of [xrandr-gui.py]:
    [XrandrGUI.parse_xrandr_output], [refresh_displays],
    [_find_mirrored_display_groups], [_find_mirrored_displays],
    [on_display_clicked], [on_clear_clicked], [on_refresh_clicked],
    [on_mirror_clicked], [on_extend_right_clicked],
    [on_extend_left_clicked], [run_xrandr_command],
    [snap_widget_position], [_would_overlap],
    [_find_non_overlapping_position], [on_apply_layout_clicked] and
    [on_unlink_mirror_clicked].

    Conventions of the embedding.
    - A Python [str] is a list of characters; a character is a code point
      below 256 ([ascii]).  The classes [\s], [\S], [\d] and [str.strip]
      follow Python's Unicode tables restricted to that range.
    - A Python [int] is a [Z]; [int(s)] has the digit limit of the
      interpreter.
    - Python dicts are insertion-ordered association lists ([PyDict]).
    - Widget objects live in the [display_widgets] store; a reference to a
      widget is the key it is stored under.
    - The external [xrandr] process is an environment function from the
      trace of effects so far and the command line to an outcome.
    - A result of type [option] is [None] when an exception leaves the
      function. *)

From Stdlib Require Import Reals Lra.
From Stdlib Require Import String Ascii.
From Stdlib Require Import ZArith List Bool Lia Permutation Sorted.
From Stdlib Require Import Numbers.DecimalString.
Import ListNotations.
Local Open Scope Z_scope.

(** ** Python strings *)

Definition str := list ascii.

Definition L (s : string) : str := list_ascii_of_string s.

Definition code (c : ascii) : N := N_of_ascii c.

(** [str.isspace] / [\s] for code points below 256. *)
Definition is_space (c : ascii) : bool :=
  let n := code c in
  ((9 <=? n) && (n <=? 13) || (28 <=? n) && (n <=? 32)
   || (n =? 133) || (n =? 160))%N.

Definition is_nonspace (c : ascii) : bool := negb (is_space c).

(** [\d] for code points below 256. *)
Definition is_digit (c : ascii) : bool :=
  let n := code c in ((48 <=? n) && (n <=? 57))%N.

(** The class [[\d.]]. *)
Definition is_digit_or_dot (c : ascii) : bool :=
  is_digit c || (code c =? 46)%N.

Fixpoint str_eqb (a b : str) : bool :=
  match a, b with
  | [], [] => true
  | c :: a', d :: b' => Ascii.eqb c d && str_eqb a' b'
  | _, _ => false
  end.

(** [s.split(sep)] for a one-character separator. *)
Fixpoint split (sep : ascii) (s : str) : list str :=
  match s with
  | [] => [[]]
  | c :: s' =>
      if Ascii.eqb c sep then [] :: split sep s'
      else match split sep s' with
           | h :: t => (c :: h) :: t
           | [] => [[c]]
           end
  end.

(** [s.startswith(p)], returning the remainder on success. *)
Fixpoint strip_prefix (p s : str) : option str :=
  match p with
  | [] => Some s
  | c :: p' =>
      match s with
      | d :: s' => if Ascii.eqb c d then strip_prefix p' s' else None
      | [] => None
      end
  end.

Definition startswith (p s : str) : bool :=
  match strip_prefix p s with Some _ => true | None => false end.

(** [c in s] for a one-character needle. *)
Definition contains (c : ascii) (s : str) : bool :=
  existsb (Ascii.eqb c) s.

(** [m in l] for a list of strings. *)
Definition str_in (m : str) (l : list str) : bool := existsb (str_eqb m) l.

Fixpoint lstrip (s : str) : str :=
  match s with
  | c :: s' => if is_space c then lstrip s' else s
  | [] => []
  end.

Definition strip (s : str) : str := rev (lstrip (rev (lstrip s))).

Definition digit_value (c : ascii) : Z := Z.of_N (code c) - 48.

Definition is_number (s : str) : bool :=
  match s with
  | [] => false
  | _ => forallb is_digit s
  end.

(** [sys.int_info.default_max_str_digits]: the program leaves the limit
    of the interpreter as it is. *)
Definition int_max_str_digits : Z := 4300.

(** [int(s)] on the strings the program passes to it, which are matches
    of [\d+].  On a non-empty string of decimal digits it is the number
    read in base ten when the string has at most [int_max_str_digits]
    characters, leading zeros counted, and it raises [ValueError] on a
    longer one, as on the empty string.  [None] is that exception; the
    other forms [int] reads (a sign, white space around the digits,
    underscores) are not modelled and are not [Some] either. *)
Definition py_int (s : str) : option Z :=
  if is_number s && (Z.of_nat (length s) <=? int_max_str_digits)
  then Some (fold_left (fun acc c => 10 * acc + digit_value c) s 0)
  else None.

(** [str(n)] for an integer. *)
Definition py_str (n : Z) : str := L (NilZero.string_of_int (Z.to_int n)).

(** ** Regular expressions: the fragment of [re] the program uses

    Backtracking semantics as a list of successes in priority order:
    quantifiers are greedy, alternation is ordered, and a capture made in
    an attempt that is later abandoned leaves no trace. *)

Module Re.

Inductive regex : Type :=
| Lit (s : str)
| Cls (p : ascii -> bool)
| Star (p : ascii -> bool)
| Plus (p : ascii -> bool)
| Opt (r : regex)
| Alt (r1 r2 : regex)
| Seq (r1 r2 : regex)
| Grp (n : nat) (r : regex).

(** Captured groups, most recent binding first. *)
Definition groups := list (nat * str).

Fixpoint group (n : nat) (g : groups) : option str :=
  match g with
  | [] => None
  | (k, v) :: g' => if Nat.eqb n k then Some v else group n g'
  end.

(** One success: the text matched, the text left, the groups. *)
Definition success : Type := str * str * groups.

(** All ways [p*] can match a prefix of [s], longest first. *)
Fixpoint star_class (p : ascii -> bool) (s : str) : list (str * str) :=
  match s with
  | [] => [([], [])]
  | c :: s' =>
      if p c
      then map (fun ar => (c :: fst ar, snd ar)) (star_class p s') ++ [([], s)]
      else [([], s)]
  end.

Definition plus_class (p : ascii -> bool) (s : str) : list (str * str) :=
  match s with
  | [] => []
  | c :: s' =>
      if p c then map (fun ar => (c :: fst ar, snd ar)) (star_class p s')
      else []
  end.

Fixpoint run (r : regex) (s : str) (g : groups) : list success :=
  match r with
  | Lit l =>
      match strip_prefix l s with
      | Some rest => [(l, rest, g)]
      | None => []
      end
  | Cls p =>
      match s with
      | c :: s' => if p c then [([c], s', g)] else []
      | [] => []
      end
  | Star p => map (fun ar => (fst ar, snd ar, g)) (star_class p s)
  | Plus p => map (fun ar => (fst ar, snd ar, g)) (plus_class p s)
  | Opt r1 => run r1 s g ++ [([], s, g)]
  | Alt r1 r2 => run r1 s g ++ run r2 s g
  | Seq r1 r2 =>
      flat_map
        (fun m1 : success =>
           let '(a1, s1, g1) := m1 in
           map (fun m2 : success =>
                  let '(a2, s2, g2) := m2 in (a1 ++ a2, s2, g2))
               (run r2 s1 g1))
        (run r1 s g)
  | Grp n r1 =>
      map (fun m : success => let '(a, s1, g1) := m in (a, s1, (n, a) :: g1))
          (run r1 s g)
  end.

(** [re.match(r, s)]: anchored at the start of [s]; the groups of the
    first success. *)
Definition match_ (r : regex) (s : str) : option groups :=
  match run r s [] with
  | (_, _, g) :: _ => Some g
  | [] => None
  end.

(** [re.search(r, s)]: the first start position with a success. *)
Fixpoint search (r : regex) (s : str) : option groups :=
  match match_ r s with
  | Some g => Some g
  | None =>
      match s with
      | [] => None
      | _ :: s' => search r s'
      end
  end.

(** The success a backtracking matcher tries first. *)
Definition first (r : regex) (s : str) (g : groups) : option success :=
  hd_error (run r s g).

(** A class stops at [rest]: nothing more for a greedy quantifier to take. *)
Definition stops (p : ascii -> bool) (rest : str) : Prop :=
  match rest with
  | [] => True
  | c :: _ => p c = false
  end.

End Re.

(** ** The data model *)

Module Display.
Record t : Type := mk {
  name : str;
  width : Z;
  height : Z;
  x : Z;
  y : Z;
  is_primary : bool;
  is_connected : bool;
  modes : list str;
  current_mode : str;
  current_rate : str
}.
End Display.

(** ** [XrandrGUI.parse_xrandr_output] *)

(** The geometry part of the header pattern,
    [(\d+)x(\d+)\+(\d+)\+(\d+)], groups 4 to 7. *)
Definition geometry_re : Re.regex :=
  Re.Seq (Re.Grp 4 (Re.Plus is_digit))
    (Re.Seq (Re.Lit (L "x"))
       (Re.Seq (Re.Grp 5 (Re.Plus is_digit))
          (Re.Seq (Re.Lit (L "+"))
             (Re.Seq (Re.Grp 6 (Re.Plus is_digit))
                (Re.Seq (Re.Lit (L "+"))
                   (Re.Grp 7 (Re.Plus is_digit))))))).

(** [^(\S+)\s+(connected|disconnected)\s*(primary)?\s*(?:(\d+)x(\d+)\+(\d+)\+(\d+))?] *)
Definition header_re : Re.regex :=
  Re.Seq (Re.Grp 1 (Re.Plus is_nonspace))
    (Re.Seq (Re.Plus is_space)
       (Re.Seq (Re.Grp 2 (Re.Alt (Re.Lit (L "connected"))
                                 (Re.Lit (L "disconnected"))))
          (Re.Seq (Re.Star is_space)
             (Re.Seq (Re.Opt (Re.Grp 3 (Re.Lit (L "primary"))))
                (Re.Seq (Re.Star is_space)
                   (Re.Opt geometry_re)))))).

(** [\s+(\d+x\d+)\s+([\d.]+)] *)
Definition mode_re : Re.regex :=
  Re.Seq (Re.Plus is_space)
    (Re.Seq (Re.Grp 1 (Re.Seq (Re.Plus is_digit)
                         (Re.Seq (Re.Lit (L "x")) (Re.Plus is_digit))))
       (Re.Seq (Re.Plus is_space)
          (Re.Grp 2 (Re.Plus is_digit_or_dot)))).

(** [([\d.]+)\*] *)
Definition rate_re : Re.regex :=
  Re.Seq (Re.Grp 1 (Re.Plus is_digit_or_dot)) (Re.Lit (L "*")).

(** [int(match.group(n)) if match.group(n) else dflt] *)
Definition int_group_or (n : nat) (g : Re.groups) (dflt : Z) : option Z :=
  match Re.group n g with
  | Some (c :: v) => py_int (c :: v)
  | _ => Some dflt
  end.

Definition group_is (n : nat) (g : Re.groups) (v : str) : bool :=
  match Re.group n g with
  | Some w => str_eqb w v
  | None => false
  end.

(** The [Display] built from a header match of a connected output. *)
Definition header_display (g : Re.groups) : option Display.t :=
  match Re.group 1 g with
  | None => None
  | Some name =>
      match int_group_or 4 g 1920, int_group_or 5 g 1080,
            int_group_or 6 g 0, int_group_or 7 g 0 with
      | Some width, Some height, Some x, Some y =>
          Some (Display.mk name width height x y
                  (group_is 3 g (L "primary")) true []
                  (py_str width ++ L "x" ++ py_str height) (L "60.00"))
      | _, _, _, _ => None
      end
  end.

(** The loop state: the list under construction and [current_display],
    a reference to one of its elements (its index). *)
Record parse_state : Type := {
  displays : list Display.t;
  current_display : option nat
}.

Fixpoint update_at {A : Type} (i : nat) (f : A -> A) (l : list A) : list A :=
  match l, i with
  | [], _ => []
  | a :: l', O => f a :: l'
  | a :: l', S i' => a :: update_at i' f l'
  end.

(** The body of the mode-line branch on the current display. *)
Definition apply_mode_line (line : str) (g : Re.groups) (d : Display.t)
  : Display.t :=
  match Re.group 1 g with
  | None => d
  | Some mode =>
      let d1 :=
        if str_in mode (Display.modes d) then d
        else Display.mk (Display.name d) (Display.width d) (Display.height d)
               (Display.x d) (Display.y d) (Display.is_primary d)
               (Display.is_connected d) (Display.modes d ++ [mode])
               (Display.current_mode d) (Display.current_rate d) in
      if contains "*"%char line then
        let rate :=
          match Re.search rate_re line with
          | Some rg =>
              match Re.group 1 rg with
              | Some r => r
              | None => Display.current_rate d1
              end
          | None => Display.current_rate d1
          end in
        Display.mk (Display.name d1) (Display.width d1) (Display.height d1)
          (Display.x d1) (Display.y d1) (Display.is_primary d1)
          (Display.is_connected d1) (Display.modes d1) mode rate
      else d1
  end.

(** One iteration of [for line in output.split('\n')]; [None] is an
    exception escaping the loop. *)
Definition parse_line (st : parse_state) (line : str) : option parse_state :=
  match Re.match_ header_re line with
  | Some g =>
      if group_is 2 g (L "connected") then
        match header_display g with
        | Some d =>
            Some {| displays := displays st ++ [d];
                    current_display := Some (length (displays st)) |}
        | None => None
        end
      else Some st
  | None =>
      match current_display st with
      | Some i =>
          if startswith (L "   ") line then
            match Re.match_ mode_re line with
            | Some g =>
                Some {| displays :=
                          update_at i (apply_mode_line line g) (displays st);
                        current_display := Some i |}
            | None => Some st
            end
          else Some st
      | None => Some st
      end
  end.

Fixpoint parse_lines (st : parse_state) (lines : list str)
  : option parse_state :=
  match lines with
  | [] => Some st
  | line :: rest =>
      match parse_line st line with
      | Some st' => parse_lines st' rest
      | None => None
      end
  end.

(** The parser on the text of [result.stdout]. *)
Definition parse_xrandr_text (output : str) : option (list Display.t) :=
  match parse_lines {| displays := []; current_display := None |}
          (split "010"%char output) with
  | Some st => Some (displays st)
  | None => None
  end.

(** ** Python dicts: insertion-ordered association lists *)

Module PyDict.
Section Dict.
Context {K V : Type}.
Variable eqb : K -> K -> bool.

Definition t := list (K * V).

(** [d.get(k)] *)
Fixpoint get (k : K) (d : t) : option V :=
  match d with
  | [] => None
  | (k', v) :: d' => if eqb k k' then Some v else get k d'
  end.

(** [d[k] = v]: an existing key keeps its place, a new key goes last. *)
Fixpoint set (k : K) (v : V) (d : t) : t :=
  match d with
  | [] => [(k, v)]
  | (k', v') :: d' =>
      if eqb k k' then (k', v) :: d' else (k', v') :: set k v d'
  end.

Definition keys (d : t) : list K := map fst d.
Definition values (d : t) : list V := map snd d.
End Dict.
End PyDict.

Module Allocation.
Record t : Type := mk { x : Z; y : Z; width : Z; height : Z }.
End Allocation.

Module DisplayWidget.
Record t : Type := mk {
  display : Display.t;
  allocation : Allocation.t;
  is_source : bool;
  is_target : bool;
  has_pending_changes : bool;
  is_mirrored : bool;
  mirrored_with : list str
}.

(** [DisplayWidget.__init__], once the container has allocated it. *)
Definition init (d : Display.t) (a : Allocation.t) : t :=
  mk d a false false false false [].

Definition set_allocation (a : Allocation.t) (w : t) : t :=
  mk (display w) a (is_source w) (is_target w) (has_pending_changes w)
     (is_mirrored w) (mirrored_with w).
Definition set_is_source (b : bool) (w : t) : t :=
  mk (display w) (allocation w) b (is_target w) (has_pending_changes w)
     (is_mirrored w) (mirrored_with w).
Definition set_is_target (b : bool) (w : t) : t :=
  mk (display w) (allocation w) (is_source w) b (has_pending_changes w)
     (is_mirrored w) (mirrored_with w).
Definition set_has_pending_changes (b : bool) (w : t) : t :=
  mk (display w) (allocation w) (is_source w) (is_target w) b
     (is_mirrored w) (mirrored_with w).
Definition set_mirrored (with_ : list str) (w : t) : t :=
  mk (display w) (allocation w) (is_source w) (is_target w)
     (has_pending_changes w) true with_.

(** [container.move(widget, x, y)] *)
Definition move (x y : Z) (w : t) : t :=
  set_allocation
    (Allocation.mk x y (Allocation.width (allocation w))
       (Allocation.height (allocation w))) w.
End DisplayWidget.

(** ** Effects *)

(** What [subprocess.run(cmd, capture_output=True, text=True)] does. *)
Inductive outcome : Type :=
| Completed (returncode : Z) (stdout stderr : str)
| Raised (e : str).

Inductive event : Type :=
| Run (cmd : list str)
| ShowStatus (message : str)
| TimeoutAdd (ms : Z).

(** The world outside: it answers a command knowing all that happened. *)
Definition environment := list event -> list str -> outcome.

Module GUI.
Record t : Type := mk {
  displays : list Display.t;
  display_widgets : list (str * DisplayWidget.t);
  source_display : option Display.t;
  target_display : option Display.t;
  pending_layout_changes : list (str * (str * str));
  apply_layout_btn : bool;
  unlink_mirror_btn : bool;
  trace : list event
}.

(** [XrandrGUI.__init__] *)
Definition init : t := mk [] [] None None [] false false [].

Definition set_display_widgets (ws : list (str * DisplayWidget.t)) (s : t) : t :=
  mk (displays s) ws (source_display s) (target_display s)
     (pending_layout_changes s) (apply_layout_btn s) (unlink_mirror_btn s)
     (trace s).
Definition set_source_display (d : option Display.t) (s : t) : t :=
  mk (displays s) (display_widgets s) d (target_display s)
     (pending_layout_changes s) (apply_layout_btn s) (unlink_mirror_btn s)
     (trace s).
Definition set_target_display (d : option Display.t) (s : t) : t :=
  mk (displays s) (display_widgets s) (source_display s) d
     (pending_layout_changes s) (apply_layout_btn s) (unlink_mirror_btn s)
     (trace s).
Definition set_pending_layout_changes (p : list (str * (str * str))) (s : t)
  : t :=
  mk (displays s) (display_widgets s) (source_display s) (target_display s)
     p (apply_layout_btn s) (unlink_mirror_btn s) (trace s).
Definition set_apply_layout_btn (b : bool) (s : t) : t :=
  mk (displays s) (display_widgets s) (source_display s) (target_display s)
     (pending_layout_changes s) b (unlink_mirror_btn s) (trace s).
Definition emit (e : event) (s : t) : t :=
  mk (displays s) (display_widgets s) (source_display s) (target_display s)
     (pending_layout_changes s) (apply_layout_btn s) (unlink_mirror_btn s)
     (trace s ++ [e]).

(** [self.show_status(message)] *)
Definition show_status (message : str) (s : t) : t :=
  emit (ShowStatus message) s.

(** An in-place update of the widget object stored under [key]. *)
Definition update_widget (key : str) (f : DisplayWidget.t -> DisplayWidget.t)
  (s : t) : t :=
  set_display_widgets
    (map (fun kw : str * DisplayWidget.t =>
            if str_eqb key (fst kw) then (fst kw, f (snd kw)) else kw)
         (display_widgets s)) s.
End GUI.

(** [XrandrGUI.parse_xrandr_output]: the query, then the parser on its
    standard output.  A failure to run the query shows a status and
    gives the empty list; [None] is an exception escaping the method. *)
Definition parse_xrandr_output (env : environment) (s : GUI.t)
  : GUI.t * option (list Display.t) :=
  let cmd := [L "xrandr"; L "--query"] in
  match env (GUI.trace s) cmd with
  | Completed _ stdout _ =>
      (GUI.emit (Run cmd) s, parse_xrandr_text stdout)
  | Raised e =>
      (GUI.show_status (L "Error running xrandr: " ++ e)
         (GUI.emit (Run cmd) s),
       Some [])
  end.

(** ** [XrandrGUI._find_mirrored_display_groups] *)

Definition pos_eqb (p q : Z * Z) : bool :=
  (fst p =? fst q) && (snd p =? snd q).

Definition position_of (d : Display.t) : Z * Z := (Display.x d, Display.y d).

(** One iteration of [for display in self.displays]. *)
Definition group_step (position_groups : list ((Z * Z) * list str))
  (display : Display.t) : list ((Z * Z) * list str) :=
  let pos := position_of display in
  let pg :=
    match PyDict.get pos_eqb pos position_groups with
    | None => PyDict.set pos_eqb pos [] position_groups
    | Some _ => position_groups
    end in
  match PyDict.get pos_eqb pos pg with
  | Some l => PyDict.set pos_eqb pos (l ++ [Display.name display]) pg
  | None => pg
  end.

Definition position_groups_of (ds : list Display.t)
  : list ((Z * Z) * list str) :=
  fold_left group_step ds [].

Definition _find_mirrored_display_groups (ds : list Display.t)
  : list (list str) :=
  PyDict.values (position_groups_of ds).

(** [len(group) > 1] *)
Definition flagged_mirrored (group : list str) : bool :=
  (1 <? length group)%nat.

(** [XrandrGUI._find_mirrored_displays] *)
Definition _find_mirrored_displays (ds : list Display.t) : list str :=
  flat_map (fun group => if flagged_mirrored group then group else [])
    (_find_mirrored_display_groups ds).

(** The marking loop of [refresh_displays] over [mirrored_groups]. *)
Definition mark_group (group : list str)
  (ws : list (str * DisplayWidget.t)) : list (str * DisplayWidget.t) :=
  if flagged_mirrored group then
    fold_left
      (fun ws display_name =>
         match PyDict.get str_eqb display_name ws with
         | Some widget =>
             PyDict.set str_eqb display_name
               (DisplayWidget.set_mirrored
                  (filter (fun n => negb (str_eqb n display_name)) group)
                  widget) ws
         | None => ws
         end)
      group ws
  else ws.

Definition mark_mirrored (groups : list (list str))
  (ws : list (str * DisplayWidget.t)) : list (str * DisplayWidget.t) :=
  fold_left (fun ws group => mark_group group ws) groups ws.

Definition has_mirrored (groups : list (list str)) : bool :=
  existsb flagged_mirrored groups.

(** ** [XrandrGUI.on_display_clicked] *)

Definition name_is (d : Display.t) (o : option Display.t) : bool :=
  match o with
  | Some e => str_eqb (Display.name d) (Display.name e)
  | None => false
  end.

Definition is_none {A : Type} (o : option A) : bool :=
  match o with None => true | Some _ => false end.

(** [widget] is the reference (store key) of the clicked widget and
    [display] the display bound to its handler. *)
Definition on_display_clicked (s : GUI.t) (widget : str) (display : Display.t)
  : GUI.t :=
  if is_none (GUI.source_display s) then
    GUI.show_status (L "Selected " ++ Display.name display ++ L " as source")
      (GUI.update_widget widget (DisplayWidget.set_is_source true)
         (GUI.set_source_display (Some display) s))
  else if is_none (GUI.target_display s)
          && negb (name_is display (GUI.source_display s)) then
    GUI.show_status (L "Selected " ++ Display.name display ++ L " as target")
      (GUI.update_widget widget (DisplayWidget.set_is_target true)
         (GUI.set_target_display (Some display) s))
  else if name_is display (GUI.source_display s) then
    GUI.set_source_display None
      (GUI.update_widget widget (DisplayWidget.set_is_source false) s)
  else if name_is display (GUI.target_display s) then
    GUI.set_target_display None
      (GUI.update_widget widget (DisplayWidget.set_is_target false) s)
  else s.

(** A sequence of clicks, each on a widget and its display. *)
Definition clicks (s : GUI.t) (cs : list (str * Display.t)) : GUI.t :=
  fold_left (fun s c => on_display_clicked s (fst c) (snd c)) cs s.

(** ** [XrandrGUI.snap_widget_position] *)

Definition snap_threshold : Z := 50.

(** Distances are kept squared.  The source compares
    [(dx*dx + dy*dy) ** 0.5] on integer [dx], [dy]; the square root is
    increasing and exact on squares, so [distance < snap_threshold * 3] is
    [d2 < (snap_threshold * 3)^2], and [distance < min_distance] is
    [d2 < min_d2] for the values that can pass the threshold test.
    [None] is [float('inf')]. *)
Definition distance2 (ax ay bx by_ : Z) : Z :=
  let dx := ax - bx in
  let dy := ay - by_ in
  dx * dx + dy * dy.

Definition lt_min (d2 : Z) (min_distance : option Z) : bool :=
  match min_distance with
  | None => true
  | Some m => d2 <? m
  end.

Definition within_threshold (d2 : Z) : bool :=
  d2 <? (snap_threshold * 3) * (snap_threshold * 3).

(** [best_snap]: [(snap_x, snap_y, other_display.name, direction)]. *)
Definition snap : Type := Z * Z * str * str.

(** The list [snap_positions] built for one other widget. *)
Definition snap_positions (dragged_alloc other_alloc : Allocation.t)
  : list (str * Z * Z) :=
  [ (L "right-of",
     Allocation.x other_alloc + Allocation.width other_alloc,
     Allocation.y other_alloc);
    (L "left-of",
     Allocation.x other_alloc - Allocation.width dragged_alloc,
     Allocation.y other_alloc);
    (L "above",
     Allocation.x other_alloc,
     Allocation.y other_alloc - Allocation.height dragged_alloc);
    (L "below",
     Allocation.x other_alloc,
     Allocation.y other_alloc + Allocation.height other_alloc) ].

(** The loop variables [(best_snap, min_distance)]. *)
Definition snap_acc : Type := option snap * option Z.

(** The body of [for direction, snap_x, snap_y in snap_positions]. *)
Definition consider (dragged_alloc : Allocation.t) (other_name : str)
  (acc : snap_acc) (p : str * Z * Z) : snap_acc :=
  let '(direction, snap_x, snap_y) := p in
  let distance :=
    distance2 (Allocation.x dragged_alloc) (Allocation.y dragged_alloc)
      snap_x snap_y in
  if lt_min distance (snd acc) && within_threshold distance
  then (Some (snap_x, snap_y, other_name, direction), Some distance)
  else acc.

(** The body of [for name, widget in self.display_widgets.items()]. *)
Definition scan_widget (dragged_widget : DisplayWidget.t) (acc : snap_acc)
  (item : str * DisplayWidget.t) : snap_acc :=
  let '(name, widget) := item in
  if str_eqb name (Display.name (DisplayWidget.display dragged_widget))
  then acc
  else
    fold_left
      (consider (DisplayWidget.allocation dragged_widget)
         (Display.name (DisplayWidget.display widget)))
      (snap_positions (DisplayWidget.allocation dragged_widget)
         (DisplayWidget.allocation widget))
      acc.

Definition find_best_snap (dragged_widget : DisplayWidget.t)
  (items : list (str * DisplayWidget.t)) : option snap :=
  fst (fold_left (scan_widget dragged_widget) items (None, None)).

(** [XrandrGUI._would_overlap] *)
Definition _would_overlap (items : list (str * DisplayWidget.t))
  (dragged_widget : DisplayWidget.t) (new_x new_y : Z) : bool :=
  let dragged_alloc := DisplayWidget.allocation dragged_widget in
  let dragged_name := Display.name (DisplayWidget.display dragged_widget) in
  existsb
    (fun item : str * DisplayWidget.t =>
       if str_eqb (fst item) dragged_name then false
       else
         let other_alloc := DisplayWidget.allocation (snd item) in
         (new_x <? Allocation.x other_alloc + Allocation.width other_alloc)
         && (new_x + Allocation.width dragged_alloc >? Allocation.x other_alloc)
         && (new_y <? Allocation.y other_alloc + Allocation.height other_alloc)
         && (new_y + Allocation.height dragged_alloc >? Allocation.y other_alloc))
    items.

Definition test_positions : list (Z * Z) :=
  [(20, 20); (200, 20); (400, 20); (20, 150); (200, 150)].

(** [XrandrGUI._find_non_overlapping_position]; [widget] is the
    reference of the widget. *)
Definition _find_non_overlapping_position (s : GUI.t) (widget : str) : GUI.t :=
  match PyDict.get str_eqb widget (GUI.display_widgets s) with
  | None => s
  | Some w =>
      match find (fun p : Z * Z =>
                    negb (_would_overlap (GUI.display_widgets s) w
                            (fst p) (snd p)))
                 test_positions with
      | Some (x, y) => GUI.update_widget widget (DisplayWidget.move x y) s
      | None => s
      end
  end.

(** [XrandrGUI.snap_widget_position]; [dragged_widget] is the reference of
    the widget that was released. *)
Definition snap_widget_position (s : GUI.t) (dragged_widget : str) : GUI.t :=
  match PyDict.get str_eqb dragged_widget (GUI.display_widgets s) with
  | None => s
  | Some w =>
      let dragged_display := DisplayWidget.display w in
      match find_best_snap w (GUI.display_widgets s) with
      | Some (snap_x, snap_y, relative_to, direction) =>
          if negb (_would_overlap (GUI.display_widgets s) w snap_x snap_y)
          then
            GUI.show_status
              (L "Snapped " ++ Display.name dragged_display ++ L " "
                 ++ direction ++ L " " ++ relative_to)
              (GUI.set_apply_layout_btn true
                 (GUI.update_widget dragged_widget
                    (DisplayWidget.set_has_pending_changes true)
                    (GUI.set_pending_layout_changes
                       (PyDict.set str_eqb (Display.name dragged_display)
                          (relative_to, direction)
                          (GUI.pending_layout_changes s))
                       (GUI.update_widget dragged_widget
                          (DisplayWidget.move snap_x snap_y) s))))
          else s
      | None => _find_non_overlapping_position s dragged_widget
      end
  end.

(** ** [XrandrGUI.on_apply_layout_clicked] *)

(** [['xrandr', '--output', display_name, f'--{direction}', relative_to]] *)
Definition reposition_cmd (display_name relative_to direction : str)
  : list str :=
  [L "xrandr"; L "--output"; display_name; L "--" ++ direction; relative_to].

(** [result.stderr.strip() or "Unknown error"] *)
Definition error_text (stderr : str) : str :=
  match strip stderr with
  | [] => L "Unknown error"
  | e => e
  end.

(** The body of the loop over [pending_layout_changes.items()], on the
    trace and [success_count]. *)
Definition apply_entry (env : environment) (acc : list event * Z)
  (entry : str * (str * str)) : list event * Z :=
  let '(display_name, (relative_to, direction)) := entry in
  let '(tr, success_count) := acc in
  let cmd := reposition_cmd display_name relative_to direction in
  let tr1 := tr ++ [Run cmd] in
  match env tr cmd with
  | Completed returncode _ stderr =>
      if returncode =? 0 then (tr1, success_count + 1)
      else
        (tr1 ++ [ShowStatus (L "Failed to position " ++ display_name ++ L ": "
                               ++ error_text stderr)],
         success_count)
  | Raised e =>
      (tr1 ++ [ShowStatus (L "Error positioning " ++ display_name ++ L ": "
                             ++ e)],
       success_count)
  end.

Definition on_apply_layout_clicked (env : environment) (s : GUI.t) : GUI.t :=
  match GUI.pending_layout_changes s with
  | [] => s
  | pending =>
      let '(tr, success_count) :=
        fold_left (apply_entry env) pending (GUI.trace s, 0) in
      let tr1 :=
        if success_count >? 0
        then tr ++ [ShowStatus (L "Applied " ++ py_str success_count
                                  ++ L " layout change(s)")]
        else tr in
      GUI.mk (GUI.displays s)
        (map (fun kw : str * DisplayWidget.t =>
                (fst kw, DisplayWidget.set_has_pending_changes false (snd kw)))
             (GUI.display_widgets s))
        (GUI.source_display s) (GUI.target_display s)
        [] false (GUI.unlink_mirror_btn s)
        (tr1 ++ [TimeoutAdd 500])
  end.

(** The invariant tying the widgets' pending flag to the pending map. *)
Definition pending_flags_consistent (s : GUI.t) : bool :=
  forallb
    (fun kw : str * DisplayWidget.t =>
       implb (DisplayWidget.has_pending_changes (snd kw))
         (negb (is_none (hd_error (GUI.pending_layout_changes s)))))
    (GUI.display_widgets s).

(** ** Vocabulary of the statements about the parser *)

Definition nl : ascii := "010"%char.

Definition no_newline (s : str) : bool :=
  forallb (fun c => negb (Ascii.eqb c nl)) s.

Definition position_not_negative (d : Display.t) : Prop :=
  0 <= Display.x d /\ 0 <= Display.y d.

(** Offsets written with a minus sign, in place of a plus sign or after
    it, at the first offset or at the second: [-X...], [+-X...],
    [+X-Y...] or [+X+-Y...]. *)
Definition minus_signed (offsets : str) : Prop :=
  exists tail,
    offsets = L "-" ++ tail \/ offsets = L "+-" ++ tail
    \/ exists x, is_number x = true
                 /\ (offsets = L "+" ++ x ++ L "-" ++ tail
                     \/ offsets = L "+" ++ x ++ L "+-" ++ tail).

(** A header line of a connected output: the name, white space,
    [connected], white space, the keyword [primary] and white space when
    [primary] is set, and the rest of the line. *)
Definition header_text (name ws1 ws2 : str) (primary : bool) (ws3 rest : str)
  : str :=
  name ++ ws1 ++ L "connected" ++ ws2
    ++ (if primary then L "primary" ++ ws3 else []) ++ rest.

(** No line of the text is longer than [int_max_str_digits]. *)
Definition short_lines (output : str) : Prop :=
  Forall (fun line => Z.of_nat (length line) <= int_max_str_digits)
    (split nl output).

(** The record a connected header without recognised geometry yields. *)
Definition default_display (name : str) : Display.t :=
  Display.mk name 1920 1080 0 0 false true [] (L "1920x1080") (L "60.00").

(** The widget store [refresh_displays] builds: one [DisplayWidget] per
    display, registered under the display's name.  The allocation the
    container gives the [i]-th widget is a parameter. *)
Section Refresh.
Variable place : nat -> Display.t -> Allocation.t.

Definition register (ws : list (str * DisplayWidget.t))
  (id : nat * Display.t) : list (str * DisplayWidget.t) :=
  PyDict.set str_eqb (Display.name (snd id))
    (DisplayWidget.init (snd id) (place (fst id) (snd id))) ws.

Definition build_widgets_from (i : nat) (ds : list Display.t)
  (ws : list (str * DisplayWidget.t)) : list (str * DisplayWidget.t) :=
  fold_left register (combine (seq i (length ds)) ds) ws.

Definition build_widgets (ds : list Display.t)
  : list (str * DisplayWidget.t) :=
  build_widgets_from 0 ds [].
End Refresh.

(** ** The enumeration of snap candidates

    Every other widget in store order, and for each the four directions in
    the order of [snap_positions]. *)
Definition candidates (dragged_widget : DisplayWidget.t)
  (items : list (str * DisplayWidget.t)) : list snap :=
  flat_map
    (fun item : str * DisplayWidget.t =>
       if str_eqb (fst item)
            (Display.name (DisplayWidget.display dragged_widget))
       then []
       else
         map (fun p : str * Z * Z =>
                let '(direction, snap_x, snap_y) := p in
                (snap_x, snap_y,
                 Display.name (DisplayWidget.display (snd item)), direction))
             (snap_positions (DisplayWidget.allocation dragged_widget)
                (DisplayWidget.allocation (snd item))))
    items.

(** Squared distance from the dragged rectangle's top-left corner to the
    candidate's. *)
Definition snap_distance2 (dragged_widget : DisplayWidget.t) (c : snap) : Z :=
  let '(snap_x, snap_y, _, _) := c in
  distance2 (Allocation.x (DisplayWidget.allocation dragged_widget))
    (Allocation.y (DisplayWidget.allocation dragged_widget)) snap_x snap_y.

(** ** The snap rule in the words of the design

    For every other monitor, four candidate positions for the top-left
    corner of the dragged rectangle, in this order: right-of (its left
    edge on the right edge of the other), left-of (its right edge on the
    left edge of the other), above (its bottom edge on the top edge of
    the other), below (its top edge on the bottom edge of the other);
    the other coordinate is that of the other monitor.  The monitors are
    taken in store order, and the distance of a candidate is the
    straight-line distance between the top-left corner of the dragged
    rectangle and the candidate. *)
Definition stated_slots (dragged other : Allocation.t) (other_name : str)
  : list snap :=
  [ (Allocation.x other + Allocation.width other, Allocation.y other,
     other_name, L "right-of");
    (Allocation.x other - Allocation.width dragged, Allocation.y other,
     other_name, L "left-of");
    (Allocation.x other, Allocation.y other - Allocation.height dragged,
     other_name, L "above");
    (Allocation.x other, Allocation.y other + Allocation.height other,
     other_name, L "below") ].

Definition stated_candidates (dragged : DisplayWidget.t)
  (items : list (str * DisplayWidget.t)) : list snap :=
  flat_map
    (fun item : str * DisplayWidget.t =>
       if str_eqb (fst item) (Display.name (DisplayWidget.display dragged))
       then []
       else stated_slots (DisplayWidget.allocation dragged)
              (DisplayWidget.allocation (snd item))
              (Display.name (DisplayWidget.display (snd item))))
    items.

Definition euclidean_distance (ax ay bx by_ : Z) : R :=
  sqrt (IZR ((ax - bx) * (ax - bx) + (ay - by_) * (ay - by_))).

Definition stated_distance (dragged : DisplayWidget.t) (c : snap) : R :=
  let '(snap_x, snap_y, _, _) := c in
  euclidean_distance (Allocation.x (DisplayWidget.allocation dragged))
    (Allocation.y (DisplayWidget.allocation dragged)) snap_x snap_y.

(** Two rectangles that share no inner point: one ends, on one axis,
    where the other begins or before. *)
Definition separated (a b : Allocation.t) : Prop :=
  Allocation.x a + Allocation.width a <= Allocation.x b
  \/ Allocation.x b + Allocation.width b <= Allocation.x a
  \/ Allocation.y a + Allocation.height a <= Allocation.y b
  \/ Allocation.y b + Allocation.height b <= Allocation.y a.

(** ** Vocabulary of the statements about the apply handler *)

Definition entry_cmd (entry : str * (str * str)) : list str :=
  reposition_cmd (fst entry) (fst (snd entry)) (snd (snd entry)).

(** The commands a trace has run, in order. *)
Definition runs (tr : list event) : list (list str) :=
  flat_map (fun e => match e with Run cmd => [cmd] | _ => [] end) tr.

(** What is shown for one entry, by the outcome of its invocation. *)
Definition report (display_name : str) (o : outcome) : list event :=
  match o with
  | Completed returncode _ stderr =>
      if returncode =? 0 then []
      else [ShowStatus (L "Failed to position " ++ display_name ++ L ": "
                          ++ match strip stderr with
                             | [] => L "Unknown error"
                             | e => e
                             end)]
  | Raised e =>
      [ShowStatus (L "Error positioning " ++ display_name ++ L ": " ++ e)]
  end.

(** The batch, entry by entry: each entry runs its command, whatever
    came before, and is then reported. *)
Fixpoint batch (env : environment) (tr : list event)
  (pending : list (str * (str * str))) : list event :=
  match pending with
  | [] => []
  | entry :: rest =>
      let evs := Run (entry_cmd entry)
                 :: report (fst entry) (env tr (entry_cmd entry)) in
      evs ++ batch env (tr ++ evs) rest
  end.

(** [s.endswith(suffix)] *)
Definition endswith (suffix s : str) : bool := startswith (rev suffix) (rev s).

(** The error text in the words of the claim about failing entries: the
    command's stderr text, or "Unknown error" when there is none. *)
Definition stated_error_text (o : outcome) : str :=
  match o with
  | Completed _ _ [] => L "Unknown error"
  | Completed _ _ stderr => stderr
  | Raised _ => L "Unknown error"
  end.

(** ** Scenes used in the statements *)

Definition widget_at (name : str) (x y : Z) : DisplayWidget.t :=
  DisplayWidget.init (default_display name) (Allocation.mk x y 100 60).

(** eDP-1 and HDMI-1 side by side, DP-1 dropped on top of HDMI-1. *)
Definition veto_scene : GUI.t :=
  GUI.mk
    [default_display (L "eDP-1"); default_display (L "HDMI-1");
     default_display (L "DP-1")]
    [(L "eDP-1", widget_at (L "eDP-1") 0 0);
     (L "HDMI-1", widget_at (L "HDMI-1") 100 0);
     (L "DP-1", widget_at (L "DP-1") 110 10)]
    None None [] false false [].

(** DP-1 dropped half-way between eDP-1 and HDMI-1: the slot right of
    eDP-1 and the slot left of HDMI-1 are both 50 away. *)
Definition tie_scene : GUI.t :=
  GUI.mk
    [default_display (L "eDP-1"); default_display (L "HDMI-1");
     default_display (L "DP-1")]
    [(L "eDP-1", widget_at (L "eDP-1") 0 0);
     (L "HDMI-1", widget_at (L "HDMI-1") 300 0);
     (L "DP-1", widget_at (L "DP-1") 150 0)]
    None None [] false false [].

(** Two monitors, nothing selected. *)
Definition two_monitors : GUI.t :=
  GUI.mk
    [default_display (L "HDMI-1"); default_display (L "DP-1")]
    [(L "HDMI-1", widget_at (L "HDMI-1") 20 20);
     (L "DP-1", widget_at (L "DP-1") 140 20)]
    None None [] false false [].

(** One pending change, its widget flagged. *)
Definition one_pending : GUI.t :=
  GUI.mk
    [default_display (L "eDP-1"); default_display (L "HDMI-1")]
    [(L "eDP-1", widget_at (L "eDP-1") 20 20);
     (L "HDMI-1",
      DisplayWidget.set_has_pending_changes true
        (widget_at (L "HDMI-1") 120 20))]
    None None [(L "HDMI-1", (L "eDP-1", L "right-of"))] true false [].

(** The loop body of [snap_widget_position] on an enumerated candidate. *)
Definition consider_snap (dragged_widget : DisplayWidget.t) (acc : snap_acc)
  (c : snap) : snap_acc :=
  let distance := snap_distance2 dragged_widget c in
  if lt_min distance (snd acc) && within_threshold distance
  then (Some c, Some distance)
  else acc.

(** What the loop has selected after the candidates [cs]. *)
Definition selected (w : DisplayWidget.t) (cs : list snap) (acc : snap_acc)
  : Prop :=
  match fst acc with
  | None =>
      snd acc = None
      /\ forall c, In c cs -> 150 * 150 <= snap_distance2 w c
  | Some b =>
      snd acc = Some (snap_distance2 w b)
      /\ snap_distance2 w b < 150 * 150
      /\ exists pre post,
          cs = pre ++ b :: post
          /\ (forall c, In c pre -> snap_distance2 w b < snap_distance2 w c)
          /\ (forall c, In c post -> snap_distance2 w b <= snap_distance2 w c)
  end.

(** ** Vocabulary of the statements about mirror groups *)

(** The names of the displays of [ds] located at [p], in list order. *)
Definition names_at (p : Z * Z) (ds : list Display.t) : list str :=
  map Display.name (filter (fun d => pos_eqb (position_of d) p) ds).

(** What the loop of [_find_mirrored_display_groups] maintains. *)
Record groups_inv (ds : list Display.t) (pg : list ((Z * Z) * list str))
  : Prop := {
  inv_keys : NoDup (map fst pg);
  inv_group : forall p g, In (p, g) pg -> g = names_at p ds;
  inv_covered : forall d, In d ds -> In (position_of d) (map fst pg);
  inv_inhabited : forall p, In p (map fst pg) ->
                            exists d, In d ds /\ position_of d = p
}.


(** ** The states the handlers can reach

    [refresh_displays] rebuilds every widget, with its pending flag
    down, and clears the pending map; from there the user clicks, drops
    a dragged widget, or applies. *)
Inductive reachable : GUI.t -> Prop :=
| reach_refreshed (s : GUI.t) :
    GUI.pending_layout_changes s = [] ->
    forallb (fun kw : str * DisplayWidget.t =>
               negb (DisplayWidget.has_pending_changes (snd kw)))
      (GUI.display_widgets s) = true ->
    reachable s
| reach_click (s : GUI.t) (widget : str) (display : Display.t) :
    reachable s -> reachable (on_display_clicked s widget display)
| reach_snap (s : GUI.t) (dragged_widget : str) :
    reachable s -> reachable (snap_widget_position s dragged_widget)
| reach_apply (env : environment) (s : GUI.t) :
    reachable s -> reachable (on_apply_layout_clicked env s).

(** ** Vocabulary of further statements about the parser *)

(** The name a line contributes: that of a header of a connected output. *)
Definition connected_header_name (line : str) : option str :=
  match Re.match_ header_re line with
  | Some g => if group_is 2 g (L "connected") then Re.group 1 g else None
  | None => None
  end.

Definition connected_names (lines : list str) : list str :=
  flat_map (fun line => match connected_header_name line with
                        | Some n => [n]
                        | None => []
                        end) lines.

(** The sort key of the mode list in [refresh_displays],
    [int(m.split('x')[0]) * int(m.split('x')[1])]; [None] is an
    [IndexError] or a [ValueError]. *)
Definition mode_area (m : str) : option Z :=
  match split "x" m with
  | a :: b :: _ =>
      match py_int a, py_int b with
      | Some na, Some nb => Some (na * nb)
      | _, _ => None
      end
  | _ => None
  end.

(** The resolution a header gives its display before any mode line. *)
Definition header_mode (d : Display.t) : str :=
  py_str (Display.width d) ++ L "x" ++ py_str (Display.height d).

(** A resolution string: digits, [x], digits. *)
Definition is_resolution (m : str) : Prop :=
  exists w h, m = w ++ L "x" ++ h /\ is_number w = true /\ is_number h = true.

(** ** [Gtk.ComboBoxText]: the texts, and the index of the active one *)

Module ComboBoxText.
Record t : Type := mk { items : list str; active : option nat }.

Definition new : t := mk [] None.

Definition append_text (text : str) (c : t) : t :=
  mk (items c ++ [text]) (active c).

Definition remove_all (c : t) : t := mk [] None.

Definition set_active (index : nat) (c : t) : t := mk (items c) (Some index).

(** [None] when no text is active. *)
Definition get_active_text (c : t) : option str :=
  match active c with
  | Some i => nth_error (items c) i
  | None => None
  end.
End ComboBoxText.

(** ** The rest of the window: labels, action buttons, combo boxes, dialogs

    [Window.t] adds to [GUI.t] the widgets the selection and action
    handlers and the refresh read and write.  A dialog is the text it
    showed. *)

Module Window.
Record t : Type := mk {
  gui : GUI.t;
  source_label : str;
  target_label : str;
  mirror_btn : bool;
  extend_right_btn : bool;
  extend_left_btn : bool;
  mode_combo : ComboBoxText.t;
  rate_combo : ComboBoxText.t;
  dialogs : list str
}.

(** The window as [setup_ui] leaves it. *)
Definition init : t :=
  mk GUI.init (L "(none selected)") (L "(none selected)")
     false false false ComboBoxText.new
     (ComboBoxText.set_active 3
        (ComboBoxText.append_text (L "60.00")
           (ComboBoxText.append_text (L "59.94")
              (ComboBoxText.append_text (L "50.00")
                 (ComboBoxText.append_text (L "30.00") ComboBoxText.new)))))
     [].

Definition set_gui (g : GUI.t) (w : t) : t :=
  mk g (source_label w) (target_label w) (mirror_btn w) (extend_right_btn w)
     (extend_left_btn w) (mode_combo w) (rate_combo w) (dialogs w).
Definition set_source_label (l : str) (w : t) : t :=
  mk (gui w) l (target_label w) (mirror_btn w) (extend_right_btn w)
     (extend_left_btn w) (mode_combo w) (rate_combo w) (dialogs w).
Definition set_target_label (l : str) (w : t) : t :=
  mk (gui w) (source_label w) l (mirror_btn w) (extend_right_btn w)
     (extend_left_btn w) (mode_combo w) (rate_combo w) (dialogs w).

(** [XrandrGUI.update_action_buttons] *)
Definition update_action_buttons (w : t) : t :=
  let has_both :=
    negb (is_none (GUI.source_display (gui w)))
    && negb (is_none (GUI.target_display (gui w))) in
  mk (gui w) (source_label w) (target_label w) has_both has_both has_both
     (mode_combo w) (rate_combo w) (dialogs w).

(** [f"{display.name} ({display.current_mode})"] *)
Definition label_of (display : Display.t) : str :=
  Display.name display ++ L " (" ++ Display.current_mode display ++ L ")".

(** [XrandrGUI.on_display_clicked] with the labels and the buttons; the
    selection and the widget flags are those of [on_display_clicked]
    above, which takes the same branch. *)
Definition on_display_clicked (w : t) (widget : str) (display : Display.t)
  : t :=
  let g := gui w in
  let g' := on_display_clicked g widget display in
  if is_none (GUI.source_display g) then
    set_gui g' (set_source_label (label_of display) w)
  else if is_none (GUI.target_display g)
          && negb (name_is display (GUI.source_display g)) then
    update_action_buttons (set_gui g' (set_target_label (label_of display) w))
  else if name_is display (GUI.source_display g) then
    update_action_buttons
      (set_gui g' (set_source_label (L "(none selected)") w))
  else if name_is display (GUI.target_display g) then
    update_action_buttons
      (set_gui g' (set_target_label (L "(none selected)") w))
  else w.

(** [XrandrGUI.on_clear_clicked] *)
Definition on_clear_clicked (w : t) : t :=
  let g := gui w in
  let g1 :=
    GUI.set_target_display None
      (GUI.set_source_display None
         (GUI.set_display_widgets
            (map (fun kw : str * DisplayWidget.t =>
                    (fst kw,
                     DisplayWidget.set_is_target false
                       (DisplayWidget.set_is_source false (snd kw))))
                 (GUI.display_widgets g)) g)) in
  let w1 :=
    update_action_buttons
      (set_gui g1
         (set_target_label (L "(none selected)")
            (set_source_label (L "(none selected)") w))) in
  set_gui (GUI.show_status (L "Selection cleared") (gui w1)) w1.

(** [self.mode_combo.get_active_text() or "1920x1080"] *)
Definition get_selected_mode (w : t) : str :=
  match ComboBoxText.get_active_text (mode_combo w) with
  | Some (c :: m) => c :: m
  | _ => L "1920x1080"
  end.

(** [self.rate_combo.get_active_text() or "60.00"] *)
Definition get_selected_rate (w : t) : str :=
  match ComboBoxText.get_active_text (rate_combo w) with
  | Some (c :: r) => c :: r
  | _ => L "60.00"
  end.

(** [XrandrGUI.show_error]: the dialog, then the status. *)
Definition show_error (message : str) (w : t) : t :=
  let w1 :=
    mk (gui w) (source_label w) (target_label w) (mirror_btn w)
       (extend_right_btn w) (extend_left_btn w) (mode_combo w) (rate_combo w)
       (dialogs w ++ [message]) in
  set_gui (GUI.show_status (L "Error: " ++ message) (gui w1)) w1.

(** [XrandrGUI.run_xrandr_command] *)
Definition run_xrandr_command (env : environment) (w : t) (cmd : list str)
  (description : str) : t :=
  let g1 := GUI.show_status (description ++ L "...") (gui w) in
  let g2 := GUI.emit (Run cmd) g1 in
  match env (GUI.trace g1) cmd with
  | Completed returncode _ stderr =>
      if returncode =? 0 then
        set_gui
          (GUI.emit (TimeoutAdd 1000)
             (GUI.show_status (description ++ L " - Success!") g2)) w
      else show_error (L "xrandr failed: " ++ error_text stderr) (set_gui g2 w)
  | Raised e => show_error (L "Error: " ++ e) (set_gui g2 w)
  end.

Definition mirror_cmd (source target mode rate : str) : list str :=
  [L "xrandr"; L "--output"; target; L "--same-as"; source;
   L "--mode"; mode; L "--rate"; rate].

Definition extend_cmd (side : str) (source target mode rate : str)
  : list str :=
  [L "xrandr"; L "--auto"; L "--output"; target;
   L "--mode"; mode; L "--rate"; rate; side; source].

(** [XrandrGUI.on_mirror_clicked] *)
Definition on_mirror_clicked (env : environment) (w : t) : t :=
  match GUI.source_display (gui w), GUI.target_display (gui w) with
  | Some s, Some t =>
      let source := Display.name s in
      let target := Display.name t in
      run_xrandr_command env w
        (mirror_cmd source target (get_selected_mode w) (get_selected_rate w))
        (L "Mirroring " ++ source ++ L " to " ++ target)
  | _, _ => w
  end.

(** [XrandrGUI.on_extend_right_clicked] *)
Definition on_extend_right_clicked (env : environment) (w : t) : t :=
  match GUI.source_display (gui w), GUI.target_display (gui w) with
  | Some s, Some t =>
      let source := Display.name s in
      let target := Display.name t in
      run_xrandr_command env w
        (extend_cmd (L "--right-of") source target (get_selected_mode w)
           (get_selected_rate w))
        (L "Extending " ++ target ++ L " to the right of " ++ source)
  | _, _ => w
  end.

(** [XrandrGUI.on_extend_left_clicked] *)
Definition on_extend_left_clicked (env : environment) (w : t) : t :=
  match GUI.source_display (gui w), GUI.target_display (gui w) with
  | Some s, Some t =>
      let source := Display.name s in
      let target := Display.name t in
      run_xrandr_command env w
        (extend_cmd (L "--left-of") source target (get_selected_mode w)
           (get_selected_rate w))
        (L "Extending " ++ target ++ L " to the left of " ++ source)
  | _, _ => w
  end.
End Window.

(** ** [XrandrGUI.on_unlink_mirror_clicked] *)

(** The list [commands]: each command with the name it is for. *)
Definition unlink_commands (ds : list Display.t) : list (list str * str) :=
  map (fun id : nat * Display.t =>
         let '(i, display) := id in
         (if Nat.eqb i 0
          then [L "xrandr"; L "--output"; Display.name display;
                L "--pos"; L "0x0"]
          else [L "xrandr"; L "--output"; Display.name display;
                L "--right-of"; Display.name (nth (i - 1) ds display)],
          Display.name display))
      (combine (seq 0 (length ds)) ds).

(** The body of [for cmd, name in commands], on the trace. *)
Definition unlink_entry (env : environment) (tr : list event)
  (entry : list str * str) : list event :=
  let '(cmd, name) := entry in
  let tr1 := tr ++ [Run cmd] in
  match env tr cmd with
  | Completed returncode _ _ =>
      if returncode =? 0 then tr1
      else tr1 ++ [ShowStatus (L "Failed to unlink " ++ name)]
  | Raised e =>
      tr1 ++ [ShowStatus (L "Error unlinking " ++ name ++ L ": " ++ e)]
  end.

Definition on_unlink_mirror_clicked (env : environment) (s : GUI.t) : GUI.t :=
  match _find_mirrored_displays (GUI.displays s) with
  | [] => GUI.show_status (L "No mirrored displays found") s
  | _ =>
      let tr :=
        fold_left (unlink_entry env) (unlink_commands (GUI.displays s))
          (GUI.trace s) in
      GUI.mk (GUI.displays s) (GUI.display_widgets s) (GUI.source_display s)
        (GUI.target_display s) (GUI.pending_layout_changes s)
        (GUI.apply_layout_btn s) false
        (tr ++ [ShowStatus (L "Unlinked mirrored displays"); TimeoutAdd 500])
  end.

(** ** [XrandrGUI.refresh_displays]

    The method has three places where an exception can leave it, and
    none is caught.
    - The parser, on a number of a header above [int_max_str_digits].
    - The loop that creates the widgets.  The size and the position of a
      widget come from floating-point scaling of the integers of its
      display ([display.width * scale], [(display.x - min_x) * scale]),
      which raises [OverflowError] on an integer too large for a float,
      and from the container, which lays the widget out.  The allocation
      the [i]-th widget ends with, or the exception, is the parameter
      [place], given the whole list, the index and the display; [None]
      is the exception.
    - The sort of the mode list, whose key calls [int] on the two
      numbers of each mode.
    The modes are gathered in a [set], whose iteration order is that of
    the interpreter: [set_order] gives the order in which the set built
    from a list of elements is iterated.  [None] is an exception
    escaping the method. *)

(** The loop [for i, display in enumerate(self.displays)]. *)
Definition create_widgets (place : nat -> Display.t -> option Allocation.t)
  (ds : list Display.t) : option (list (str * DisplayWidget.t)) :=
  fold_left
    (fun (acc : option (list (str * DisplayWidget.t))) (id : nat * Display.t) =>
       match acc with
       | None => None
       | Some ws =>
           match place (fst id) (snd id) with
           | None => None
           | Some a =>
               Some (PyDict.set str_eqb (Display.name (snd id))
                       (DisplayWidget.init (snd id) a) ws)
           end
       end)
    (combine (seq 0 (length ds)) ds) (Some []).

(** The allocations of a placement where it does not raise. *)
Definition placed (place : nat -> Display.t -> option Allocation.t)
  (i : nat) (d : Display.t) : Allocation.t :=
  match place i d with
  | Some a => a
  | None => Allocation.mk 0 0 0 0
  end.

(** The keys of [sorted]: every key is computed before anything is
    compared, and the first one that raises ends the sort. *)
Fixpoint keyed_modes (modes : list str) : option (list (Z * str)) :=
  match modes with
  | [] => Some []
  | m :: modes' =>
      match mode_area m with
      | None => None
      | Some key =>
          match keyed_modes modes' with
          | None => None
          | Some l => Some ((key, m) :: l)
          end
      end
  end.

(** One insertion of a stable sort by decreasing key: the new element
    goes behind the elements with a key at least as large. *)
Fixpoint insert_by_key (km : Z * str) (l : list (Z * str)) : list (Z * str) :=
  match l with
  | [] => [km]
  | km' :: l' =>
      if fst km' <? fst km then km :: l else km' :: insert_by_key km l'
  end.

(** [sorted(all_modes, key=..., reverse=True)]: decreasing keys, elements
    with equal keys in the order of the iteration. *)
Definition sorted_modes (all_modes : list str) : option (list str) :=
  match keyed_modes all_modes with
  | None => None
  | Some keyed =>
      Some (map snd (fold_left (fun acc km => insert_by_key km acc) keyed []))
  end.

(** [l.index(m)]; [None] is [ValueError]. *)
Fixpoint index_of (m : str) (l : list str) : option nat :=
  match l with
  | [] => None
  | m' :: l' =>
      if str_eqb m' m then Some 0%nat
      else match index_of m l' with
           | Some i => Some (S i)
           | None => None
           end
  end.

(** The mode combo box after the refill. *)
Definition refill_mode_combo (sorted : list str) (c : ComboBoxText.t)
  : ComboBoxText.t :=
  let c1 :=
    fold_left (fun c mode => ComboBoxText.append_text mode c) sorted
      (ComboBoxText.remove_all c) in
  match sorted with
  | [] => c1
  | _ =>
      match index_of (L "1920x1080") sorted with
      | Some idx => ComboBoxText.set_active idx c1
      | None => ComboBoxText.set_active 0 c1
      end
  end.

Definition refresh_displays (env : environment)
  (place : list Display.t -> nat -> Display.t -> option Allocation.t)
  (set_order : list str -> list str) (w : Window.t) : option Window.t :=
  let s0 := GUI.set_display_widgets [] (Window.gui w) in
  let '(s1, parsed) := parse_xrandr_output env s0 in
  match parsed with
  | None => None
  | Some [] =>
      Some (Window.set_gui
              (GUI.show_status (L "No displays found")
                 (GUI.mk [] (GUI.display_widgets s1) (GUI.source_display s1)
                    (GUI.target_display s1) (GUI.pending_layout_changes s1)
                    (GUI.apply_layout_btn s1) (GUI.unlink_mirror_btn s1)
                    (GUI.trace s1))) w)
  | Some ds =>
      match create_widgets (place ds) ds with
      | None => None
      | Some ws =>
          let mirrored_groups := _find_mirrored_display_groups ds in
          match sorted_modes (set_order (flat_map Display.modes ds)) with
          | None => None
          | Some sorted =>
              Some (Window.mk
                      (GUI.show_status
                         (L "Found " ++ py_str (Z.of_nat (length ds))
                            ++ L " connected display(s)")
                         (GUI.mk ds (mark_mirrored mirrored_groups ws)
                            (GUI.source_display s1) (GUI.target_display s1)
                            [] false (has_mirrored mirrored_groups)
                            (GUI.trace s1)))
                      (Window.source_label w) (Window.target_label w)
                      (Window.mirror_btn w) (Window.extend_right_btn w)
                      (Window.extend_left_btn w)
                      (refill_mode_combo sorted (Window.mode_combo w))
                      (Window.rate_combo w) (Window.dialogs w))
          end
      end
  end.

(** [XrandrGUI.on_refresh_clicked] *)
Definition on_refresh_clicked (env : environment)
  (place : list Display.t -> nat -> Display.t -> option Allocation.t)
  (set_order : list str -> list str) (w : Window.t) : option Window.t :=
  refresh_displays env place set_order (Window.on_clear_clicked w).

(** The iteration of a set gives each element once. *)
Definition set_iteration (set_order : list str -> list str) : Prop :=
  forall l, NoDup (set_order l) /\ forall m, In m (set_order l) <-> In m l.

(** An iteration order: first occurrences, in the order of insertion. *)
Fixpoint insertion_order (l : list str) : list str :=
  match l with
  | [] => []
  | m :: l' =>
      m :: filter (fun m' => negb (str_eqb m' m)) (insertion_order l')
  end.

(** ** Vocabulary of the statements about the window *)

(** The text a selection label must show. *)
Definition label_for (o : option Display.t) : str :=
  match o with
  | Some d => Window.label_of d
  | None => L "(none selected)"
  end.

(** The labels show the selection, the three action buttons go
    together, and they are enabled only with a source and a target. *)
Definition window_in_sync (w : Window.t) : Prop :=
  Window.source_label w = label_for (GUI.source_display (Window.gui w))
  /\ Window.target_label w = label_for (GUI.target_display (Window.gui w))
  /\ Window.extend_right_btn w = Window.mirror_btn w
  /\ Window.extend_left_btn w = Window.mirror_btn w
  /\ (Window.mirror_btn w = true ->
      GUI.source_display (Window.gui w) <> None
      /\ GUI.target_display (Window.gui w) <> None).

(** The command that places [d] right of [prev]. *)
Definition right_of_cmd (prev d : Display.t) : list str :=
  [L "xrandr"; L "--output"; Display.name d; L "--right-of";
   Display.name prev].

(** ** Vocabulary of further statements about the snap engine *)

(** Every widget is stored under the name of its display, as
    [refresh_displays] stores it. *)
Definition keyed_by_name (ws : list (str * DisplayWidget.t)) : bool :=
  forallb (fun kw : str * DisplayWidget.t =>
             str_eqb (fst kw) (Display.name (DisplayWidget.display (snd kw))))
    ws.

Definition directions : list str :=
  [L "right-of"; L "left-of"; L "above"; L "below"].

(** The Apply button is enabled exactly while a change is pending. *)
Definition apply_btn_in_sync (s : GUI.t) : Prop :=
  GUI.apply_layout_btn s
  = negb (is_none (hd_error (GUI.pending_layout_changes s))).

(** The number of status messages in a trace. *)
Definition statuses (tr : list event) : Z :=
  Z.of_nat (length (filter (fun e => match e with
                                     | ShowStatus _ => true
                                     | _ => false
                                     end) tr)).

(** At most one pending change per monitor, each in one of the four
    directions. *)
Definition pending_well_formed (s : GUI.t) : Prop :=
  NoDup (map fst (GUI.pending_layout_changes s))
  /\ forall entry, In entry (GUI.pending_layout_changes s) ->
                   In (snd (snd entry)) directions.

(** A widget as [DisplayWidget.__init__] leaves it, but for the mirror
    marks: no selection mark and no pending flag. *)
Definition unmarked (w : DisplayWidget.t) : Prop :=
  DisplayWidget.has_pending_changes w = false
  /\ DisplayWidget.is_source w = false
  /\ DisplayWidget.is_target w = false.

(** The query command of the parser. *)
Definition query_cmd : list str := [L "xrandr"; L "--query"].


(** * Properties *)

(** ** Strings and characters *)

Lemma str_eqb_eq (a b : str) : str_eqb a b = true <-> a = b.
Proof.
  revert b; induction a as [|c a IH]; intros [|d b]; simpl;
    try (split; [discriminate | intros H; discriminate H]); try tauto.
  rewrite andb_true_iff, IH, Ascii.eqb_eq.
  split; [intros [-> ->]; reflexivity | intros H; inversion H; auto].
Qed.

Lemma str_eqb_refl (a : str) : str_eqb a a = true.
Proof. apply str_eqb_eq; reflexivity. Qed.

Lemma str_eqb_neq (a b : str) : str_eqb a b = false <-> a <> b.
Proof.
  destruct (str_eqb a b) eqn:E.
  - apply str_eqb_eq in E. split; [discriminate | contradiction].
  - split; [intros _ H; apply str_eqb_eq in H; congruence | reflexivity].
Qed.

Lemma is_digit_range (c : ascii) :
  is_digit c = true -> 0 <= digit_value c <= 9.
Proof.
  unfold is_digit, digit_value. generalize (code c) as n. intros n. cbv zeta.
  rewrite andb_true_iff, !N.leb_le. lia.
Qed.

Lemma digit_not_space (c : ascii) : is_digit c = true -> is_space c = false.
Proof.
  unfold is_digit, is_space. generalize (code c) as n. intros n. cbv zeta.
  rewrite andb_true_iff, !N.leb_le. intros [H1 H2].
  rewrite !orb_false_iff, !andb_false_iff, !N.leb_gt, !N.eqb_neq. lia.
Qed.

Lemma nonspace_not_newline (c : ascii) :
  is_nonspace c = true -> Ascii.eqb c "010" = false.
Proof.
  intros H. destruct (Ascii.eqb_spec c "010"); [subst; discriminate H | reflexivity].
Qed.

Lemma digits_fold_nonneg (s : str) (acc : Z) :
  forallb is_digit s = true -> 0 <= acc ->
  0 <= fold_left (fun a c => 10 * a + digit_value c) s acc.
Proof.
  revert acc; induction s as [|c s IH]; cbn [fold_left forallb];
    intros acc H Hacc; [assumption|].
  apply andb_true_iff in H as [Hc Hs].
  apply IH; [assumption|]. apply is_digit_range in Hc. lia.
Qed.

Lemma is_number_spec (s : str) :
  is_number s = true <-> s <> [] /\ forallb is_digit s = true.
Proof.
  destruct s as [|c s]; simpl.
  - split; [discriminate | intros [H _]; contradiction].
  - split; [intros H; split; [discriminate | assumption] | tauto].
Qed.

Lemma py_int_number (s : str) :
  is_number s = true -> Z.of_nat (length s) <= int_max_str_digits ->
  exists n, py_int s = Some n /\ 0 <= n.
Proof.
  intros H Hl. unfold py_int. rewrite H.
  apply Z.leb_le in Hl. rewrite Hl. eexists; split; [reflexivity|].
  apply is_number_spec in H as [_ H].
  apply digits_fold_nonneg; [assumption | lia].
Qed.

Lemma py_int_nonneg (s : str) (n : Z) : py_int s = Some n -> 0 <= n.
Proof.
  unfold py_int. destruct (is_number s) eqn:H; [|discriminate].
  destruct (Z.of_nat (length s) <=? int_max_str_digits); [|discriminate].
  cbn [andb]. intros E. inversion E; subst.
  apply is_number_spec in H as [_ H].
  apply digits_fold_nonneg; [assumption | lia].
Qed.

Lemma py_int_too_long (s : str) :
  int_max_str_digits < Z.of_nat (length s) -> py_int s = None.
Proof.
  intros H. unfold py_int. apply Z.leb_gt in H. rewrite H, andb_false_r.
  reflexivity.
Qed.

Lemma split_line (line rest : str) :
  forallb (fun c => negb (Ascii.eqb c "010")) line = true ->
  split "010" (line ++ "010"%char :: rest) = line :: split "010" rest.
Proof.
  induction line as [|c line IH]; simpl; intros H; [reflexivity|].
  apply andb_true_iff in H as [Hc Hl].
  apply negb_true_iff in Hc. rewrite Hc, IH by assumption. reflexivity.
Qed.

Lemma split_last (line : str) :
  forallb (fun c => negb (Ascii.eqb c "010")) line = true ->
  split "010" line = [line].
Proof.
  induction line as [|c line IH]; simpl; intros H; [reflexivity|].
  apply andb_true_iff in H as [Hc Hl].
  apply negb_true_iff in Hc. rewrite Hc, IH by assumption. reflexivity.
Qed.

(** ** The matcher: what a success contains, and when the first success
    is the greedy one *)

Module ReFacts.
Import Re.

Lemma match_first (r : regex) (s : str) a rest g :
  first r s [] = Some (a, rest, g) -> match_ r s = Some g.
Proof.
  unfold first, match_. destruct (run r s []) as [|[[a' r'] g'] tl]; simpl;
    [discriminate | intros H; inversion H; reflexivity].
Qed.

Lemma match_none (r : regex) (s : str) :
  run r s [] = [] -> match_ r s = None.
Proof. unfold match_. intros ->. reflexivity. Qed.

Lemma in_star_class p s a rest :
  In (a, rest) (star_class p s) -> s = a ++ rest /\ forallb p a = true.
Proof.
  revert a rest; induction s as [|c s IH]; simpl; intros a rest H.
  - destruct H as [H|[]]. inversion H; subst. auto.
  - destruct (p c) eqn:Hc.
    + apply in_app_or in H as [H|[H|[]]].
      * apply in_map_iff in H as [[a' r'] [E H]]. simpl in E.
        inversion E; subst. apply IH in H as [-> H]. simpl. rewrite Hc. auto.
      * inversion H; subst. auto.
    + destruct H as [H|[]]. inversion H; subst. auto.
Qed.

Lemma in_plus_class p s a rest :
  In (a, rest) (plus_class p s) ->
  s = a ++ rest /\ forallb p a = true /\ a <> [].
Proof.
  destruct s as [|c s]; simpl; [intros []|].
  destruct (p c) eqn:Hc; [|intros []].
  intros H. apply in_map_iff in H as [[a' r'] [E H]]. simpl in E.
  inversion E; subst. apply in_star_class in H as [-> H].
  simpl. rewrite Hc. repeat split; [assumption | discriminate].
Qed.

Lemma star_class_greedy p xs rest :
  forallb p xs = true -> stops p rest ->
  exists tl, star_class p (xs ++ rest) = (xs, rest) :: tl.
Proof.
  intros Hxs Hstop. induction xs as [|c xs IH]; simpl.
  - destruct rest as [|d rest]; [eexists; reflexivity|].
    simpl in Hstop. simpl. rewrite Hstop. eexists; reflexivity.
  - simpl in Hxs. apply andb_true_iff in Hxs as [Hc Hxs].
    rewrite Hc. destruct (IH Hxs) as [tl ->]. simpl. eexists; reflexivity.
Qed.

Lemma in_run_lit l s g a rest g' :
  In (a, rest, g') (run (Lit l) s g) ->
  a = l /\ g' = g /\ strip_prefix l s = Some rest.
Proof.
  simpl. destruct (strip_prefix l s) as [r|]; [|intros []].
  intros [H|[]]. inversion H; subst. auto.
Qed.

Lemma in_run_plus p s g a rest g' :
  In (a, rest, g') (run (Plus p) s g) ->
  s = a ++ rest /\ forallb p a = true /\ a <> [] /\ g' = g.
Proof.
  simpl. intros H. apply in_map_iff in H as [[a' r'] [E H]].
  simpl in E. inversion E; subst.
  apply in_plus_class in H as (-> & H1 & H2). auto.
Qed.

Lemma in_run_star p s g a rest g' :
  In (a, rest, g') (run (Star p) s g) ->
  s = a ++ rest /\ forallb p a = true /\ g' = g.
Proof.
  simpl. intros H. apply in_map_iff in H as [[a' r'] [E H]].
  simpl in E. inversion E; subst.
  apply in_star_class in H as (-> & H1). auto.
Qed.

Lemma in_run_seq r1 r2 s g a rest g' :
  In (a, rest, g') (run (Seq r1 r2) s g) ->
  exists a1 s1 g1 a2,
    In (a1, s1, g1) (run r1 s g) /\ In (a2, rest, g') (run r2 s1 g1)
    /\ a = a1 ++ a2.
Proof.
  simpl. intros H. apply in_flat_map in H as [[[a1 s1] g1] [H1 H2]].
  apply in_map_iff in H2 as [[[a2 s2] g2] [E H2]]. inversion E; subst.
  exists a1, s1, g1, a2. auto.
Qed.

Lemma in_run_grp n r s g a rest g' :
  In (a, rest, g') (run (Grp n r) s g) ->
  exists g1, In (a, rest, g1) (run r s g) /\ g' = (n, a) :: g1.
Proof.
  simpl. intros H. apply in_map_iff in H as [[[a1 s1] g1] [E H]].
  inversion E; subst. exists g1. auto.
Qed.

Lemma in_run_opt r s g m :
  In m (run (Opt r) s g) -> In m (run r s g) \/ m = ([], s, g).
Proof.
  simpl. intros H. apply in_app_or in H as [H|[H|[]]]; auto.
Qed.

Lemma in_run_alt r1 r2 s g m :
  In m (run (Alt r1 r2) s g) -> In m (run r1 s g) \/ In m (run r2 s g).
Proof. simpl. apply in_app_or. Qed.

Lemma strip_prefix_app l rest : strip_prefix l (l ++ rest) = Some rest.
Proof.
  induction l as [|c l IH]; simpl; [reflexivity|].
  rewrite Ascii.eqb_refl. assumption.
Qed.

Lemma strip_prefix_some l s rest : strip_prefix l s = Some rest -> s = l ++ rest.
Proof.
  revert s; induction l as [|c l IH]; simpl; intros s H.
  - inversion H; reflexivity.
  - destruct s as [|d s]; [discriminate|].
    destruct (Ascii.eqb_spec c d); [|discriminate].
    subst. f_equal. auto.
Qed.

Lemma first_lit l rest g : first (Lit l) (l ++ rest) g = Some (l, rest, g).
Proof. unfold first. simpl. rewrite strip_prefix_app. reflexivity. Qed.

Lemma first_plus p xs rest g :
  xs <> [] -> forallb p xs = true -> stops p rest ->
  first (Plus p) (xs ++ rest) g = Some (xs, rest, g).
Proof.
  intros Hne Hxs Hstop. destruct xs as [|c xs]; [contradiction|].
  simpl in Hxs. apply andb_true_iff in Hxs as [Hc Hxs].
  unfold first. simpl. rewrite Hc.
  destruct (star_class_greedy p xs rest Hxs Hstop) as [tl ->]. reflexivity.
Qed.

Lemma first_star p xs rest g :
  forallb p xs = true -> stops p rest ->
  first (Star p) (xs ++ rest) g = Some (xs, rest, g).
Proof.
  intros Hxs Hstop. unfold first. simpl.
  destruct (star_class_greedy p xs rest Hxs Hstop) as [tl ->]. reflexivity.
Qed.

Lemma first_seq r1 r2 s g a1 s1 g1 a2 s2 g2 :
  first r1 s g = Some (a1, s1, g1) ->
  first r2 s1 g1 = Some (a2, s2, g2) ->
  first (Seq r1 r2) s g = Some (a1 ++ a2, s2, g2).
Proof.
  unfold first. simpl.
  destruct (run r1 s g) as [|m1 tl1]; simpl; [discriminate|].
  intros H1; inversion H1; subst.
  destruct (run r2 s1 g1) as [|m2 tl2]; simpl; [discriminate|].
  intros H2; inversion H2; subst. reflexivity.
Qed.

Lemma first_grp n r s g a s1 g1 :
  first r s g = Some (a, s1, g1) ->
  first (Grp n r) s g = Some (a, s1, (n, a) :: g1).
Proof.
  unfold first. simpl. destruct (run r s g) as [|m tl]; simpl; [discriminate|].
  intros H; inversion H; subst. reflexivity.
Qed.

Lemma first_opt_taken r s g m :
  first r s g = Some m -> first (Opt r) s g = Some m.
Proof.
  unfold first. simpl. destruct (run r s g); simpl; [discriminate | auto].
Qed.

Lemma first_opt_skipped r s g :
  run r s g = [] -> first (Opt r) s g = Some ([], s, g).
Proof. unfold first. simpl. intros ->. reflexivity. Qed.

Lemma first_alt_left r1 r2 s g m :
  first r1 s g = Some m -> first (Alt r1 r2) s g = Some m.
Proof.
  unfold first. simpl. destruct (run r1 s g); simpl; [discriminate | auto].
Qed.

Lemma no_success (r : regex) (s : str) (g : groups) :
  (forall m, In m (run r s g) -> False) -> run r s g = [].
Proof.
  destruct (run r s g) as [|m tl]; [reflexivity|].
  intros H. destruct (H m). left; reflexivity.
Qed.

(** A run of class characters followed by a character outside the class
    splits a string in one way only. *)
Lemma class_prefix_unique p (xs : str) c r (ys : str) d r' :
  forallb p xs = true -> forallb p ys = true ->
  p c = false -> p d = false ->
  xs ++ c :: r = ys ++ d :: r' -> xs = ys /\ c = d /\ r = r'.
Proof.
  revert ys; induction xs as [|x xs IH]; intros [|y ys] Hxs Hys Hc Hd E;
    simpl in *.
  - inversion E; auto.
  - inversion E; subst. apply andb_true_iff in Hys as [Hy _]. congruence.
  - inversion E; subst. apply andb_true_iff in Hxs as [Hx _]. congruence.
  - inversion E; subst.
    apply andb_true_iff in Hxs as [_ Hxs]. apply andb_true_iff in Hys as [_ Hys].
    destruct (IH ys Hxs Hys Hc Hd H1) as (-> & -> & ->). auto.
Qed.

End ReFacts.

(** ** The header pattern *)

Module HeaderFacts.
Import Re ReFacts.

Lemma match_in (r : regex) (s : str) (g : groups) :
  match_ r s = Some g -> exists a rest, In (a, rest, g) (run r s []).
Proof.
  unfold match_. destruct (run r s []) as [|[[a rest] g'] tl]; [discriminate|].
  intros H; inversion H; subst. exists a, rest. left; reflexivity.
Qed.

Lemma number_of_plus (a : str) :
  forallb is_digit a = true -> a <> [] -> is_number a = true.
Proof. intros H1 H2. apply is_number_spec. auto. Qed.

(** Every success of the geometry group binds groups 4 to 7 to numbers. *)
Lemma geometry_success s g a rest g' :
  In (a, rest, g') (run geometry_re s g) ->
  exists w h x y,
    g' = [(7%nat, y); (6%nat, x); (5%nat, h); (4%nat, w)] ++ g
    /\ is_number w = true /\ is_number h = true
    /\ is_number x = true /\ is_number y = true.
Proof.
  unfold geometry_re. intros H.
  apply in_run_seq in H as (w & s1 & g1 & a1 & H4 & H & _).
  apply in_run_grp in H4 as (g4 & H4 & ->).
  apply in_run_plus in H4 as (_ & Dw & Nw & ->).
  apply in_run_seq in H as (l1 & s2 & g2 & a2 & Hx & H & _).
  apply in_run_lit in Hx as (_ & -> & _).
  apply in_run_seq in H as (h & s3 & g3 & a3 & H5 & H & _).
  apply in_run_grp in H5 as (g5 & H5 & ->).
  apply in_run_plus in H5 as (_ & Dh & Nh & ->).
  apply in_run_seq in H as (l2 & s4 & g4 & a4 & Hp & H & _).
  apply in_run_lit in Hp as (_ & -> & _).
  apply in_run_seq in H as (x & s5 & g5 & a5 & H6 & H & _).
  apply in_run_grp in H6 as (g6 & H6 & ->).
  apply in_run_plus in H6 as (_ & Dx & Nx & ->).
  apply in_run_seq in H as (l3 & s6 & g6 & y & Hp & H & _).
  apply in_run_lit in Hp as (_ & -> & _).
  apply in_run_grp in H as (g7 & H7 & ->).
  apply in_run_plus in H7 as (_ & Dy & Ny & ->).
  exists w, h, x, y. repeat split; auto using number_of_plus.
Qed.

(** The groups of every success of the header pattern. *)
Lemma header_success s a rest g :
  In (a, rest, g) (run header_re s []) ->
  exists name conn prim geo,
    g = geo ++ prim ++ [(2%nat, conn); (1%nat, name)]
    /\ name <> []
    /\ (conn = L "connected" \/ conn = L "disconnected")
    /\ (prim = [] \/ prim = [(3%nat, L "primary")])
    /\ (geo = [] \/
        exists w h x y,
          geo = [(7%nat, y); (6%nat, x); (5%nat, h); (4%nat, w)]
          /\ is_number w = true /\ is_number h = true
          /\ is_number x = true /\ is_number y = true).
Proof.
  unfold header_re. intros H.
  apply in_run_seq in H as (name & s1 & g1 & a1 & H1 & H & _).
  apply in_run_grp in H1 as (g1' & H1 & ->).
  apply in_run_plus in H1 as (_ & _ & Nn & ->).
  apply in_run_seq in H as (l4 & s2 & g2 & a2 & Hs & H & _).
  apply in_run_plus in Hs as (_ & _ & _ & ->).
  apply in_run_seq in H as (conn & s3 & g3 & a3 & H2 & H & _).
  apply in_run_grp in H2 as (g2' & H2 & ->).
  assert (Hconn : (conn = L "connected" \/ conn = L "disconnected")
                  /\ g2' = [(1%nat, name)]).
  { apply in_run_alt in H2 as [H2|H2];
      apply in_run_lit in H2 as (-> & -> & _); auto. }
  destruct Hconn as [Hconn ->].
  apply in_run_seq in H as (l5 & s4 & g4 & a4 & Hs & H & _).
  apply in_run_star in Hs as (_ & _ & ->).
  apply in_run_seq in H as (ap & s5 & g5 & a5 & H3 & H & _).
  assert (Hprim : exists prim,
             g5 = prim ++ [(2%nat, conn); (1%nat, name)]
             /\ (prim = [] \/ prim = [(3%nat, L "primary")])).
  { apply in_run_opt in H3 as [H3|H3].
    - apply in_run_grp in H3 as (g3' & H3 & ->).
      apply in_run_lit in H3 as (-> & -> & _).
      exists [(3%nat, L "primary")]. auto.
    - inversion H3; subst. exists []. auto. }
  destruct Hprim as (prim & -> & Hprim).
  apply in_run_seq in H as (l6 & s6 & g6 & a6 & Hs & H & _).
  apply in_run_star in Hs as (_ & _ & ->).
  exists name, conn, prim.
  apply in_run_opt in H as [H|H].
  - apply geometry_success in H as (w & h & x & y & -> & Hn).
    exists [(7%nat, y); (6%nat, x); (5%nat, h); (4%nat, w)].
    repeat split; auto. right. exists w, h, x, y. auto.
  - inversion H; subst. exists []. repeat split; auto.
Qed.

(** What a success is made of: the text matched is a prefix of the
    subject, and every group it binds holds a piece of the subject. *)
Lemma run_sound (r : regex) : forall s g a rest g',
  In (a, rest, g') (run r s g) ->
  s = a ++ rest
  /\ forall n v, In (n, v) g' -> In (n, v) g \/ (length v <= length s)%nat.
Proof.
  induction r as [l|p|p|p|r IH|r1 IH1 r2 IH2|r1 IH1 r2 IH2|k r IH];
    intros s g a rest g' H.
  - apply in_run_lit in H as (-> & -> & H). apply strip_prefix_some in H.
    split; [assumption | auto].
  - cbn [run] in H. destruct s as [|c s]; [destruct H|].
    destruct (p c); [|destruct H]. destruct H as [H|[]].
    inversion H; subst. split; [reflexivity | auto].
  - apply in_run_star in H as (-> & _ & ->). split; [reflexivity | auto].
  - apply in_run_plus in H as (-> & _ & _ & ->). split; [reflexivity | auto].
  - apply in_run_opt in H as [H|H]; [apply IH, H|].
    inversion H; subst. split; [reflexivity | auto].
  - apply in_run_alt in H as [H|H]; [apply IH1, H | apply IH2, H].
  - apply in_run_seq in H as (a1 & s1 & g1 & a2 & H1 & H2 & ->).
    apply IH1 in H1 as [-> G1]. apply IH2 in H2 as [-> G2].
    split; [rewrite app_assoc; reflexivity|].
    intros n v Hin. destruct (G2 n v Hin) as [Hg|Hl].
    + destruct (G1 n v Hg) as [Hg'|Hl]; [left; assumption | right].
      exact Hl.
    + right. rewrite length_app. lia.
  - apply in_run_grp in H as (g1 & H & ->). apply IH in H as [-> G].
    split; [reflexivity|]. intros n v [E|Hin].
    + inversion E; subst. right. rewrite length_app. lia.
    + apply G, Hin.
Qed.

Lemma group_in (n : nat) (g : groups) (v : str) :
  group n g = Some v -> In (n, v) g.
Proof.
  induction g as [|[k w] g IH]; simpl; [discriminate|].
  destruct (Nat.eqb_spec n k) as [->|_].
  - intros H; inversion H; subst. left; reflexivity.
  - intros H. right. apply IH, H.
Qed.

(** No group of a match is longer than the line. *)
Lemma match_group_length (r : regex) (line : str) g n v :
  match_ r line = Some g -> group n g = Some v ->
  (length v <= length line)%nat.
Proof.
  intros Hm Hg. apply match_in in Hm as (a & rest & Hm).
  apply run_sound in Hm as [_ G]. apply group_in in Hg.
  destruct (G n v Hg) as [[]|H]. exact H.
Qed.

(** Without group 4 the display of a header match exists and has the
    default geometry. *)
Lemma header_display_default line g :
  match_ header_re line = Some g ->
  group 4 g = None ->
  exists d,
    header_display g = Some d
    /\ Display.width d = 1920 /\ Display.height d = 1080
    /\ Display.x d = 0 /\ Display.y d = 0.
Proof.
  intros H H4. apply match_in in H as (a & rest & H).
  apply header_success in H
    as (name & conn & prim & geo & -> & Hname & _ & Hprim & Hgeo).
  destruct Hgeo as [->|(w & h & x & y & -> & Hw & Hh & Hx & Hy)].
  - unfold header_display, int_group_or.
    destruct Hprim as [->| ->]; simpl; eexists; (split; [reflexivity|]);
      simpl; repeat split; lia.
  - simpl in H4. discriminate H4.
Qed.

(** The display of a header match, when [int] returns on its four
    numbers, has a position that is not negative. *)
Lemma header_display_position line g d :
  match_ header_re line = Some g ->
  header_display g = Some d ->
  0 <= Display.x d /\ 0 <= Display.y d.
Proof.
  intros H Hd. apply match_in in H as (a & rest & H).
  apply header_success in H
    as (name & conn & prim & geo & -> & Hname & _ & Hprim & Hgeo).
  unfold header_display, int_group_or in Hd.
  destruct Hgeo as [->|(w & h & x & y & -> & Hw & Hh & Hx & Hy)].
  - destruct Hprim as [->| ->]; simpl in Hd; inversion Hd; subst; simpl; lia.
  - destruct w as [|cw w]; [discriminate Hw|].
    destruct h as [|ch h]; [discriminate Hh|].
    destruct x as [|cx x]; [discriminate Hx|].
    destruct y as [|cy y]; [discriminate Hy|].
    destruct Hprim as [->| ->]; cbn [app group Nat.eqb] in Hd.
    all: destruct (py_int (cw :: w)) as [nw|]; [|discriminate Hd].
    all: destruct (py_int (ch :: h)) as [nh|]; [|discriminate Hd].
    all: destruct (py_int (cx :: x)) as [nx|] eqn:Ex; [|discriminate Hd].
    all: destruct (py_int (cy :: y)) as [ny|] eqn:Ey; [|discriminate Hd].
    all: inversion Hd; subst d; cbn [Display.x Display.y].
    all: split; [apply (py_int_nonneg _ _ Ex) | apply (py_int_nonneg _ _ Ey)].
Qed.

(** On a line of at most [int_max_str_digits] characters every number
    of the header is short enough for [int]: the display exists. *)
Lemma header_display_short line g :
  match_ header_re line = Some g ->
  Z.of_nat (length line) <= int_max_str_digits ->
  exists d, header_display g = Some d.
Proof.
  intros Hm Hlen.
  assert (Hshort : forall n v, group n g = Some v ->
                               Z.of_nat (length v) <= int_max_str_digits).
  { intros n v Hg. pose proof (match_group_length _ _ _ _ _ Hm Hg). lia. }
  apply match_in in Hm as (a & rest & H).
  apply header_success in H
    as (name & conn & prim & geo & -> & Hname & _ & Hprim & Hgeo).
  unfold header_display, int_group_or.
  destruct Hgeo as [->|(w & h & x & y & -> & Hw & Hh & Hx & Hy)].
  - destruct Hprim as [->| ->]; simpl; eexists; reflexivity.
  - destruct (py_int_number w Hw) as (nw & Ew & _);
      [apply (Hshort 4%nat); destruct Hprim as [->| ->]; reflexivity|].
    destruct (py_int_number h Hh) as (nh & Eh & _);
      [apply (Hshort 5%nat); destruct Hprim as [->| ->]; reflexivity|].
    destruct (py_int_number x Hx) as (nx & Ex & _);
      [apply (Hshort 6%nat); destruct Hprim as [->| ->]; reflexivity|].
    destruct (py_int_number y Hy) as (ny & Ey & _);
      [apply (Hshort 7%nat); destruct Hprim as [->| ->]; reflexivity|].
    destruct w as [|cw w]; [discriminate Hw|].
    destruct h as [|ch h]; [discriminate Hh|].
    destruct x as [|cx x]; [discriminate Hx|].
    destruct y as [|cy y]; [discriminate Hy|].
    destruct Hprim as [->| ->]; cbn [app group Nat.eqb];
      rewrite Ew, Eh, Ex, Ey; eexists; reflexivity.
Qed.

End HeaderFacts.

(** ** The parser loop *)

Module ParserFacts.
Import Re ReFacts HeaderFacts.

Lemma apply_mode_line_geometry line g d :
  Display.name (apply_mode_line line g d) = Display.name d
  /\ Display.width (apply_mode_line line g d) = Display.width d
  /\ Display.height (apply_mode_line line g d) = Display.height d
  /\ Display.x (apply_mode_line line g d) = Display.x d
  /\ Display.y (apply_mode_line line g d) = Display.y d.
Proof.
  unfold apply_mode_line.
  destruct (group 1 g); [|auto].
  destruct (str_in s (Display.modes d)); destruct (contains "*" line);
    simpl; auto.
Qed.

Lemma Forall_update_at {A : Type} (P : A -> Prop) (f : A -> A) i l :
  (forall a, P a -> P (f a)) -> Forall P l -> Forall P (update_at i f l).
Proof.
  intros Hf H. revert i; induction H as [|a l Ha Hl IH]; intros i.
  - destruct i; constructor.
  - destruct i; simpl; constructor; auto.
Qed.

(** An iteration that returns keeps the positions not negative. *)
Lemma parse_line_position st line st' :
  parse_line st line = Some st' ->
  Forall position_not_negative (displays st) ->
  Forall position_not_negative (displays st').
Proof.
  unfold parse_line. intros H Hst.
  destruct (match_ header_re line) as [g|] eqn:Hm.
  - destruct (group_is 2 g (L "connected")).
    + destruct (header_display g) as [d|] eqn:Hd; [|discriminate H].
      inversion H; subst. cbn [displays].
      apply Forall_app; split; [assumption|]. constructor; [|constructor].
      exact (header_display_position line g d Hm Hd).
    + inversion H; subst. assumption.
  - destruct (current_display st) as [i|]; [|inversion H; subst; assumption].
    destruct (startswith (L "   ") line); [|inversion H; subst; assumption].
    destruct (match_ mode_re line) as [g|]; [|inversion H; subst; assumption].
    inversion H; subst. cbn [displays].
    apply Forall_update_at; [|assumption].
    intros a [Ha1 Ha2].
    destruct (apply_mode_line_geometry line g a) as (_ & _ & _ & Ex & Ey).
    unfold position_not_negative. rewrite Ex, Ey. auto.
Qed.

Lemma parse_lines_position lines : forall st st',
  parse_lines st lines = Some st' ->
  Forall position_not_negative (displays st) ->
  Forall position_not_negative (displays st').
Proof.
  induction lines as [|line lines IH]; intros st st' H Hst; simpl in H.
  - inversion H; subst. assumption.
  - destruct (parse_line st line) as [st1|] eqn:E; [|discriminate H].
    apply (IH st1 st' H). exact (parse_line_position st line st1 E Hst).
Qed.

(** The only exception of an iteration is the [ValueError] of [int] on a
    number of the header: a line of at most [int_max_str_digits]
    characters cannot raise it. *)
Lemma parse_line_short st line :
  Z.of_nat (length line) <= int_max_str_digits ->
  exists st', parse_line st line = Some st'.
Proof.
  intros Hlen. unfold parse_line.
  destruct (match_ header_re line) as [g|] eqn:Hm.
  - destruct (header_display_short line g Hm Hlen) as (d & ->).
    destruct (group_is 2 g (L "connected")); eauto.
  - destruct (current_display st) as [i|]; [|eauto].
    destruct (startswith (L "   ") line); [|eauto].
    destruct (match_ mode_re line) as [g|]; eauto.
Qed.

Lemma parse_lines_short lines : forall st,
  Forall (fun line => Z.of_nat (length line) <= int_max_str_digits) lines ->
  exists st', parse_lines st lines = Some st'.
Proof.
  induction lines as [|line lines IH]; intros st H; simpl; [eauto|].
  inversion H as [|? ? Hl Hr]; subst.
  destruct (parse_line_short st line Hl) as (st1 & ->). apply IH, Hr.
Qed.

Lemma primary_not_at_digit (c : ascii) (s : str) g :
  is_digit c = true ->
  run (Grp 3 (Lit (L "primary"))) (c :: s) g = [].
Proof.
  intros Dc. cbn [run].
  change (strip_prefix (L "primary") (c :: s))
    with (if Ascii.eqb "p" c then strip_prefix (L "rimary") s else None).
  destruct (Ascii.eqb_spec "p" c); [subst; discriminate Dc | reflexivity].
Qed.

(** A connected header [name connected WxH+X+Y tail]. *)
Lemma header_match_geometry (name w h x y tail : str) :
  name <> [] -> forallb is_nonspace name = true ->
  is_number w = true -> is_number h = true ->
  is_number x = true -> is_number y = true ->
  stops is_digit tail ->
  match_ header_re
    (name ++ L " " ++ L "connected" ++ L " "
       ++ w ++ L "x" ++ h ++ L "+" ++ x ++ L "+" ++ y ++ tail)
  = Some [(7%nat, y); (6%nat, x); (5%nat, h); (4%nat, w);
          (2%nat, L "connected"); (1%nat, name)].
Proof.
  intros Hne Hname Hw Hh Hx Hy Htail.
  apply is_number_spec in Hw as [Nw Dw]. apply is_number_spec in Hh as [Nh Dh].
  apply is_number_spec in Hx as [Nx Dx]. apply is_number_spec in Hy as [Ny Dy].
  assert (Sw : stops is_space
                 (w ++ L "x" ++ h ++ L "+" ++ x ++ L "+" ++ y ++ tail)).
  { destruct w as [|c w]; [contradiction|]. simpl in *.
    apply andb_true_iff in Dw as [Dc _]. apply digit_not_space, Dc. }
  eapply match_first. unfold header_re.
  eapply first_seq.
  { apply first_grp. apply first_plus; [assumption..|reflexivity]. }
  eapply first_seq.
  { apply (first_plus is_space (L " ")); [discriminate|reflexivity..]. }
  eapply first_seq.
  { apply first_grp. apply first_alt_left. apply first_lit. }
  eapply first_seq.
  { apply (first_star is_space (L " ")); [reflexivity|exact Sw]. }
  eapply first_seq.
  { apply first_opt_skipped. destruct w as [|c w]; [contradiction|].
    simpl in Dw. apply andb_true_iff in Dw as [Dc _].
    apply primary_not_at_digit, Dc. }
  eapply first_seq.
  { apply (first_star is_space []); [reflexivity|exact Sw]. }
  apply first_opt_taken. unfold geometry_re.
  eapply first_seq.
  { apply first_grp. apply first_plus; [assumption..|reflexivity]. }
  eapply first_seq; [apply first_lit|].
  eapply first_seq.
  { apply first_grp. apply first_plus; [assumption..|reflexivity]. }
  eapply first_seq; [apply first_lit|].
  eapply first_seq.
  { apply first_grp. apply first_plus; [assumption..|reflexivity]. }
  eapply first_seq; [apply first_lit|].
  apply first_grp. apply first_plus; assumption.
Qed.

Lemma geometry_rejects_minus (w h offsets : str) g :
  is_number w = true -> is_number h = true -> minus_signed offsets ->
  run geometry_re (w ++ L "x" ++ h ++ offsets) g = [].
Proof.
  intros Hw Hh [tail Hoff].
  apply is_number_spec in Hw as [Nw Dw]. apply is_number_spec in Hh as [Nh Dh].
  apply no_success. intros [[a rest] g'] H. unfold geometry_re in H.
  apply in_run_seq in H as (a4 & s1 & g1 & a1 & H4 & H & _).
  apply in_run_grp in H4 as (g4 & H4 & ->).
  apply in_run_plus in H4 as (E4 & D4 & _ & ->).
  apply in_run_seq in H as (l1 & s2 & g2 & a2 & Hx & H & _).
  apply in_run_lit in Hx as (_ & -> & Hx). apply strip_prefix_some in Hx.
  subst s1. simpl in E4.
  apply (class_prefix_unique is_digit) in E4 as (_ & _ & E4); try assumption;
    try reflexivity.
  subst s2.
  apply in_run_seq in H as (a5 & s3 & g3 & a3 & H5 & H & _).
  apply in_run_grp in H5 as (g5 & H5 & ->).
  apply in_run_plus in H5 as (E5 & D5 & _ & ->).
  apply in_run_seq in H as (l2 & s4 & g4' & a4' & Hp & H & _).
  apply in_run_lit in Hp as (_ & -> & Hp). apply strip_prefix_some in Hp.
  subst s3. simpl in E5.
  destruct Hoff as [-> | [-> | (x & Hx & Hoff)]]; simpl in E5.
  - apply (class_prefix_unique is_digit) in E5 as (_ & E & _); try assumption;
      try reflexivity.
    discriminate E.
  - apply (class_prefix_unique is_digit) in E5 as (_ & _ & E); try assumption;
      try reflexivity.
    subst s4.
    apply in_run_seq in H as (a6 & s5 & g5 & a5' & H6 & _).
    apply in_run_grp in H6 as (g6 & H6 & ->).
    apply in_run_plus in H6 as (E6 & D6 & N6 & _).
    destruct a6 as [|c a6]; [contradiction|].
    simpl in E6. inversion E6; subst. discriminate D6.
  - apply is_number_spec in Hx as [Nx Dx].
    assert (E : s4 = x ++ "-"%char :: tail
                \/ s4 = x ++ "+"%char :: "-"%char :: tail).
    { destruct Hoff as [-> | ->]; simpl in E5;
        apply (class_prefix_unique is_digit) in E5 as (_ & _ & E);
        try assumption; try reflexivity; subst s4; [left | right];
        rewrite <- ?app_assoc; reflexivity. }
    clear E5 Hoff.
    apply in_run_seq in H as (a6 & s5 & g5 & a5' & H6 & H & _).
    apply in_run_grp in H6 as (g6 & H6 & ->).
    apply in_run_plus in H6 as (E6 & D6 & N6 & ->).
    apply in_run_seq in H as (l3 & s6 & g6 & a6' & Hp & H & _).
    apply in_run_lit in Hp as (_ & -> & Hp). apply strip_prefix_some in Hp.
    subst s5. simpl in E6. rewrite E6 in E. clear E6.
    destruct E as [E|E].
    + apply (class_prefix_unique is_digit) in E as (_ & E & _);
        try assumption; try reflexivity.
      discriminate E.
    + apply (class_prefix_unique is_digit) in E as (_ & _ & E);
        try assumption; try reflexivity.
      subst s6.
      apply in_run_grp in H as (g7 & H7 & _).
      apply in_run_plus in H7 as (E7 & D7 & N7 & _).
      destruct a6' as [|c a7]; [contradiction|].
      simpl in E7. inversion E7; subst. discriminate D7.
Qed.

(** The part of the header pattern before the geometry, on a header line
    whose rest starts with a digit: the name, the state and the keyword
    are taken greedily, and what the optional geometry does on the rest
    decides the match. *)
Lemma header_prefix (name ws1 ws2 ws3 : str) (primary : bool) (c : ascii)
  (r : str) a rest' g' :
  name <> [] -> forallb is_nonspace name = true ->
  ws1 <> [] -> forallb is_space ws1 = true ->
  forallb is_space ws2 = true -> forallb is_space ws3 = true ->
  is_digit c = true ->
  first (Opt geometry_re) (c :: r)
    ((if primary then [(3%nat, L "primary")] else [])
       ++ [(2%nat, L "connected"); (1%nat, name)])
  = Some (a, rest', g') ->
  match_ header_re (header_text name ws1 ws2 primary ws3 (c :: r)) = Some g'.
Proof.
  intros Hne Hname Hne1 Hws1 Hws2 Hws3 Dc Hgeo.
  assert (Sc : stops is_space (c :: r)) by (apply digit_not_space, Dc).
  assert (S1 : forall tl, stops is_nonspace (ws1 ++ tl)).
  { intros tl. destruct ws1 as [|s1 ws1]; [contradiction|].
    simpl in Hws1. apply andb_true_iff in Hws1 as [Hs1 _].
    simpl. unfold is_nonspace. rewrite Hs1. reflexivity. }
  destruct primary.
  - eapply match_first. unfold header_re, header_text.
    rewrite <- (app_assoc (L "primary") ws3 (c :: r)).
    eapply first_seq.
    { apply first_grp. apply first_plus; [assumption | assumption | apply S1]. }
    eapply first_seq.
    { apply (first_plus is_space ws1); [assumption | assumption | reflexivity]. }
    eapply first_seq.
    { apply first_grp. apply first_alt_left. apply first_lit. }
    eapply first_seq.
    { apply (first_star is_space ws2); [assumption | reflexivity]. }
    eapply first_seq.
    { apply first_opt_taken. apply first_grp. apply first_lit. }
    eapply first_seq.
    { apply (first_star is_space ws3); [assumption | exact Sc]. }
    exact Hgeo.
  - eapply match_first. unfold header_re, header_text.
    change ([] ++ c :: r) with (c :: r).
    eapply first_seq.
    { apply first_grp. apply first_plus; [assumption | assumption | apply S1]. }
    eapply first_seq.
    { apply (first_plus is_space ws1); [assumption | assumption | reflexivity]. }
    eapply first_seq.
    { apply first_grp. apply first_alt_left. apply first_lit. }
    eapply first_seq.
    { apply (first_star is_space ws2); [assumption | exact Sc]. }
    eapply first_seq.
    { apply first_opt_skipped. apply primary_not_at_digit, Dc. }
    eapply first_seq.
    { apply (first_star is_space []); [reflexivity | exact Sc]. }
    exact Hgeo.
Qed.

(** A connected header whose offsets are minus-signed, whatever the
    white space and with or without [primary]: the geometry is not
    taken. *)
Lemma header_text_minus (name ws1 ws2 ws3 : str) (primary : bool)
  (w h offsets : str) :
  name <> [] -> forallb is_nonspace name = true ->
  ws1 <> [] -> forallb is_space ws1 = true ->
  forallb is_space ws2 = true -> forallb is_space ws3 = true ->
  is_number w = true -> is_number h = true -> minus_signed offsets ->
  match_ header_re
    (header_text name ws1 ws2 primary ws3 (w ++ L "x" ++ h ++ offsets))
  = Some ((if primary then [(3%nat, L "primary")] else [])
            ++ [(2%nat, L "connected"); (1%nat, name)]).
Proof.
  intros Hne Hname Hne1 Hws1 Hws2 Hws3 Hw Hh Hoff.
  pose proof (geometry_rejects_minus w h offsets
                ((if primary then [(3%nat, L "primary")] else [])
                   ++ [(2%nat, L "connected"); (1%nat, name)])
                Hw Hh Hoff) as Hgeo.
  apply is_number_spec in Hw as [Nw Dw].
  destruct w as [|c w]; [contradiction|].
  simpl in Dw. apply andb_true_iff in Dw as [Dc Dw].
  cbn [app] in *.
  eapply (header_prefix name ws1 ws2 ws3 primary c); try eassumption.
  apply first_opt_skipped. exact Hgeo.
Qed.

End ParserFacts.

(** ** The parser: claims *)

Module ParserClaims.
Import Re ReFacts HeaderFacts ParserFacts.

Lemma parse_xrandr_text_position (output : str) (ds : list Display.t) :
  parse_xrandr_text output = Some ds -> Forall position_not_negative ds.
Proof.
  unfold parse_xrandr_text.
  destruct (parse_lines {| displays := []; current_display := None |}
              (split "010" output)) as [st|] eqn:E; [|discriminate].
  intros H; inversion H; subst.
  apply (parse_lines_position _ _ _ E). constructor.
Qed.

Lemma parse_xrandr_text_short (output : str) :
  short_lines output -> exists ds, parse_xrandr_text output = Some ds.
Proof.
  unfold short_lines, parse_xrandr_text, nl. intros H.
  destruct (parse_lines_short (split "010" output)
              {| displays := []; current_display := None |} H) as (st & ->).
  eauto.
Qed.

Lemma no_newline_nonspace (name : str) :
  forallb is_nonspace name = true -> no_newline name = true.
Proof.
  unfold no_newline, nl.
  induction name as [|c name IH]; cbn [forallb]; [reflexivity|].
  intros H. apply andb_true_iff in H as [Hc Hn].
  rewrite (nonspace_not_newline c Hc). simpl. auto.
Qed.

Lemma no_newline_number (w : str) : is_number w = true -> no_newline w = true.
Proof.
  intros H. apply is_number_spec in H as [_ H]. unfold no_newline.
  induction w as [|c w IH]; cbn [forallb]; [reflexivity|].
  cbn [forallb] in H. apply andb_true_iff in H as [Hc Hw].
  destruct (Ascii.eqb_spec c nl) as [->|_]; [discriminate Hc|]. simpl. auto.
Qed.

Lemma no_newline_app (a b : str) :
  no_newline (a ++ b) = no_newline a && no_newline b.
Proof. apply forallb_app. Qed.

(** C3. A block made of the header [name connected 1920x1080+0+0 ...] and
    the mode lines ["   1920x1080     60.00*+"] and
    ["   1280x720      59.94"] parses to exactly one monitor: that name,
    connected, current mode 1920x1080, current rate 60.00, and the modes
    1920x1080 then 1280x720. *)
Theorem parse_header_and_two_modes (name tail : str) :
  name <> [] -> forallb is_nonspace name = true ->
  no_newline tail = true -> stops is_digit tail ->
  parse_xrandr_text
    (name ++ L " connected 1920x1080+0+0" ++ tail
       ++ nl :: L "   1920x1080     60.00*+"
       ++ nl :: L "   1280x720      59.94")
  = Some [Display.mk name 1920 1080 0 0 false true
            [L "1920x1080"; L "1280x720"] (L "1920x1080") (L "60.00")].
Proof.
  intros Hne Hname Htail Hstop.
  unfold parse_xrandr_text.
  replace (name ++ L " connected 1920x1080+0+0" ++ tail
             ++ nl :: L "   1920x1080     60.00*+"
             ++ nl :: L "   1280x720      59.94")
    with ((name ++ L " connected 1920x1080+0+0" ++ tail)
            ++ "010"%char :: L "   1920x1080     60.00*+"
            ++ nl :: L "   1280x720      59.94")
    by (rewrite <- !app_assoc; reflexivity).
  rewrite split_line.
  2:{ change (no_newline (name ++ L " connected 1920x1080+0+0" ++ tail) = true).
      rewrite !no_newline_app, (no_newline_nonspace name Hname), Htail.
      reflexivity. }
  cbn [parse_lines]. unfold parse_line at 1.
  change (name ++ L " connected 1920x1080+0+0" ++ tail)
    with (name ++ L " " ++ L "connected" ++ L " "
            ++ L "1920" ++ L "x" ++ L "1080" ++ L "+" ++ L "0" ++ L "+"
            ++ L "0" ++ tail).
  rewrite (header_match_geometry name (L "1920") (L "1080") (L "0") (L "0")
             tail Hne Hname eq_refl eq_refl eq_refl eq_refl Hstop).
  vm_compute. reflexivity.
Qed.

Lemma parse_header_and_two_modes_witness :
  L "HDMI-1" <> []
  /\ forallb is_nonspace (L "HDMI-1") = true
  /\ no_newline (L " (normal left inverted right x axis y axis) 527mm x 296mm")
     = true
  /\ stops is_digit
       (L " (normal left inverted right x axis y axis) 527mm x 296mm")
  /\ parse_xrandr_text
       (L "HDMI-1" ++ L " connected 1920x1080+0+0"
          ++ L " (normal left inverted right x axis y axis) 527mm x 296mm"
          ++ nl :: L "   1920x1080     60.00*+"
          ++ nl :: L "   1280x720      59.94")
     = Some [Display.mk (L "HDMI-1") 1920 1080 0 0 false true
               [L "1920x1080"; L "1280x720"] (L "1920x1080") (L "60.00")].
Proof.
  assert (H1 : L "HDMI-1" <> []) by discriminate.
  split; [exact H1|]. do 3 (split; [reflexivity|]).
  apply (parse_header_and_two_modes (L "HDMI-1")
           (L " (normal left inverted right x axis y axis) 527mm x 296mm"));
    [exact H1 | reflexivity | reflexivity | reflexivity].
Defined.

(** C4. The parser keeps the previous connected monitor as the current
    one across a [disconnected] header: the mode lines of the
    disconnected output VGA-1 land in the record of HDMI-1, in its mode
    list, and with an asterisk in its current mode and rate as well. *)
Theorem disconnected_modes_leak_into_previous_monitor :
  parse_xrandr_text
    (L "HDMI-1 connected 1920x1080+0+0"
       ++ nl :: L "   1920x1080     60.00*+"
       ++ nl :: L "VGA-1 disconnected (normal left inverted right x axis y axis)"
       ++ nl :: L "   1024x768      75.03")
  = Some [Display.mk (L "HDMI-1") 1920 1080 0 0 false true
            [L "1920x1080"; L "1024x768"] (L "1920x1080") (L "60.00")]
  /\
  parse_xrandr_text
    (L "HDMI-1 connected 1920x1080+0+0"
       ++ nl :: L "   1920x1080     60.00*+"
       ++ nl :: L "VGA-1 disconnected (normal left inverted right x axis y axis)"
       ++ nl :: L "   1024x768      75.03*")
  = Some [Display.mk (L "HDMI-1") 1920 1080 0 0 false true
            [L "1920x1080"; L "1024x768"] (L "1024x768") (L "75.03")].
Proof. split; vm_compute; reflexivity. Qed.

(** C8, as the claim states it, fails: a connected header whose geometry
    token carries the offsets -1920 and -50 yields a monitor at (0,0)
    with the default size, not at (-1920,-50). *)
Lemma negative_offsets_counterexample :
  parse_xrandr_text (L "DP-1 connected 2560x1440+-1920+-50 (normal)")
  = Some [default_display (L "DP-1")]
  /\ parse_xrandr_text (L "DP-1 connected 2560x1440-1920-50 (normal)")
     = Some [default_display (L "DP-1")]
  /\ Display.x (default_display (L "DP-1")) <> -1920
  /\ Display.y (default_display (L "DP-1")) <> -50.
Proof. repeat split; try (vm_compute; reflexivity); discriminate. Qed.

(** C8, amended.  Every monitor the parser yields has a position that is
    not negative; and a header line of a connected output whose geometry
    token carries a minus-signed offset, whatever the white space between
    its tokens and with or without [primary], is not recognised as
    geometry: the line appends a monitor with the default geometry,
    1920x1080 at (0,0), in every state of the loop, and a text made of
    that line parses to this monitor alone. *)
Theorem minus_signed_geometry_gets_default :
  (forall output ds,
      parse_xrandr_text output = Some ds -> Forall position_not_negative ds)
  /\
  (forall st name ws1 ws2 primary ws3 w h offsets,
      name <> [] -> forallb is_nonspace name = true ->
      ws1 <> [] -> forallb is_space ws1 = true ->
      forallb is_space ws2 = true -> forallb is_space ws3 = true ->
      is_number w = true -> is_number h = true ->
      minus_signed offsets ->
      let line :=
        header_text name ws1 ws2 primary ws3 (w ++ L "x" ++ h ++ offsets) in
      let d :=
        Display.mk name 1920 1080 0 0 primary true [] (L "1920x1080")
          (L "60.00") in
      parse_line st line
      = Some {| displays := displays st ++ [d];
                current_display := Some (length (displays st)) |}
      /\ (no_newline line = true -> parse_xrandr_text line = Some [d])).
Proof.
  split; [exact parse_xrandr_text_position|].
  intros st name ws1 ws2 primary ws3 w h offsets Hne Hname Hne1 Hws1 Hws2 Hws3
    Hw Hh Hoff line d.
  assert (Hline : forall st0,
             parse_line st0 line
             = Some {| displays := displays st0 ++ [d];
                       current_display := Some (length (displays st0)) |}).
  { intros st0. unfold parse_line, line.
    rewrite (header_text_minus name ws1 ws2 ws3 primary w h offsets
               Hne Hname Hne1 Hws1 Hws2 Hws3 Hw Hh Hoff).
    unfold d. destruct primary; vm_compute; reflexivity. }
  split; [apply Hline|].
  intros Hnl. unfold parse_xrandr_text. rewrite split_last by exact Hnl.
  cbn [parse_lines]. rewrite Hline. reflexivity.
Qed.

Lemma minus_signed_geometry_gets_default_witness :
  L "DP-1" <> [] /\ forallb is_nonspace (L "DP-1") = true
  /\ L "  " <> [] /\ forallb is_space (L "  ") = true
  /\ forallb is_space (L " ") = true
  /\ forallb is_space ["009"%char] = true
  /\ is_number (L "2560") = true /\ is_number (L "1440") = true
  /\ minus_signed (L "+0-50 (normal)")
  /\ parse_xrandr_text
       (header_text (L "DP-1") (L "  ") (L " ") true ["009"%char]
          (L "2560" ++ L "x" ++ L "1440" ++ L "+0-50 (normal)"))
     = Some [Display.mk (L "DP-1") 1920 1080 0 0 true true []
               (L "1920x1080") (L "60.00")].
Proof.
  assert (H1 : L "DP-1" <> []) by discriminate.
  assert (H2 : L "  " <> []) by discriminate.
  assert (H3 : minus_signed (L "+0-50 (normal)")).
  { exists (L "50 (normal)"). right. right. exists (L "0").
    split; [reflexivity|]. left. reflexivity. }
  split; [exact H1|]. split; [reflexivity|].
  split; [exact H2|]. do 5 (split; [reflexivity|]).
  split; [exact H3|].
  apply (proj2 (proj2 minus_signed_geometry_gets_default
                  {| displays := []; current_display := None |}
                  (L "DP-1") (L "  ") (L " ") true ["009"%char]
                  (L "2560") (L "1440") (L "+0-50 (normal)")
                  H1 eq_refl H2 eq_refl eq_refl eq_refl eq_refl eq_refl H3)).
  reflexivity.
Defined.

(** C9. A header line of a connected output in which the pattern finds
    no geometry token never makes the parser fail: it appends a monitor
    with exactly width 1920, height 1080, x 0 and y 0, and makes it the
    current one. *)
Theorem missing_geometry_defaults (st : parse_state) (line : str)
  (g : groups) :
  match_ header_re line = Some g ->
  group_is 2 g (L "connected") = true ->
  group 4 g = None ->
  exists d,
    parse_line st line
    = Some {| displays := displays st ++ [d];
              current_display := Some (length (displays st)) |}
    /\ Display.width d = 1920 /\ Display.height d = 1080
    /\ Display.x d = 0 /\ Display.y d = 0.
Proof.
  intros Hm Hc H4. unfold parse_line. rewrite Hm, Hc.
  destruct (header_display_default line g Hm H4) as (d & -> & Hd).
  exists d. split; [reflexivity|]. exact Hd.
Qed.

Lemma missing_geometry_defaults_witness :
  match_ header_re
    (L "HDMI-1 connected (normal left inverted right x axis y axis)")
  = Some [(2%nat, L "connected"); (1%nat, L "HDMI-1")]
  /\ group_is 2 [(2%nat, L "connected"); (1%nat, L "HDMI-1")] (L "connected")
     = true
  /\ group 4 [(2%nat, L "connected"); (1%nat, L "HDMI-1")] = None
  /\ exists d,
      parse_line {| displays := []; current_display := None |}
        (L "HDMI-1 connected (normal left inverted right x axis y axis)")
      = Some {| displays := [] ++ [d]; current_display := Some 0%nat |}
      /\ Display.width d = 1920 /\ Display.height d = 1080
      /\ Display.x d = 0 /\ Display.y d = 0.
Proof.
  do 3 (split; [reflexivity|]).
  apply (missing_geometry_defaults
           {| displays := []; current_display := None |}
           (L "HDMI-1 connected (normal left inverted right x axis y axis)")
           [(2%nat, L "connected"); (1%nat, L "HDMI-1")]);
    reflexivity.
Defined.

End ParserClaims.

(** ** Dict lemmas *)

Module PyDictFacts.
Section Facts.
Context {K V : Type}.
Variable eqb : K -> K -> bool.
Hypothesis eqb_eq : forall a b, eqb a b = true <-> a = b.

Local Abbreviation get := (PyDict.get eqb).
Local Abbreviation set := (PyDict.set eqb).

Lemma eqb_refl (a : K) : eqb a a = true.
Proof. apply eqb_eq; reflexivity. Qed.

Lemma eqb_neq (a b : K) : eqb a b = false <-> a <> b.
Proof.
  destruct (eqb a b) eqn:E.
  - apply eqb_eq in E. split; [discriminate | contradiction].
  - split; [intros _ H; apply eqb_eq in H; congruence | reflexivity].
Qed.

Lemma get_none (k : K) (d : list (K * V)) :
  get k d = None <-> ~ In k (map fst d).
Proof.
  induction d as [|[k0 v0] d IH]; simpl; [tauto|].
  destruct (eqb k k0) eqn:E.
  - apply eqb_eq in E. subst. split; [discriminate | tauto].
  - apply eqb_neq in E. rewrite IH. split; [intros H [H1|H1]; auto | tauto].
Qed.

Lemma get_some_in (k : K) (v : V) (d : list (K * V)) :
  get k d = Some v -> In (k, v) d.
Proof.
  induction d as [|[k0 v0] d IH]; simpl; [discriminate|].
  destruct (eqb k k0) eqn:E; [|auto].
  apply eqb_eq in E. intros H; inversion H; subst. auto.
Qed.


Lemma get_set (k : K) (v : V) (k' : K) (d : list (K * V)) :
  get k' (set k v d) = if eqb k' k then Some v else get k' d.
Proof.
  induction d as [|[k0 v0] d IH]; simpl; [reflexivity|].
  destruct (eqb k k0) eqn:E; simpl.
  - apply eqb_eq in E. subst. destruct (eqb k' k0); reflexivity.
  - rewrite IH. destruct (eqb k' k0) eqn:E0; [|reflexivity].
    apply eqb_eq in E0. subst. apply eqb_neq in E.
    destruct (eqb k0 k) eqn:E1; [|reflexivity].
    apply eqb_eq in E1. congruence.
Qed.

Lemma set_new (k : K) (v : V) (d : list (K * V)) :
  get k d = None -> set k v d = d ++ [(k, v)].
Proof.
  induction d as [|[k0 v0] d IH]; simpl; [reflexivity|].
  destruct (eqb k k0); [discriminate|]. intros H. rewrite IH by assumption.
  reflexivity.
Qed.

Lemma set_last (k : K) (v v' : V) (d : list (K * V)) :
  get k d = None -> set k v' (d ++ [(k, v)]) = d ++ [(k, v')].
Proof.
  induction d as [|[k0 v0] d IH]; simpl.
  - rewrite eqb_refl. reflexivity.
  - destruct (eqb k k0); [discriminate|]. intros H.
    rewrite IH by assumption. reflexivity.
Qed.

Lemma get_last (k : K) (v : V) (d : list (K * V)) :
  get k d = None -> get k (d ++ [(k, v)]) = Some v.
Proof.
  induction d as [|[k0 v0] d IH]; simpl.
  - rewrite eqb_refl. reflexivity.
  - destruct (eqb k k0); [discriminate | assumption].
Qed.

Lemma keys_set (k : K) (v : V) (d : list (K * V)) :
  In k (map fst d) -> map fst (set k v d) = map fst d.
Proof.
  induction d as [|[k0 v0] d IH]; simpl; [intros []|].
  destruct (eqb k k0) eqn:E; simpl; [reflexivity|].
  apply eqb_neq in E. intros [H|H]; [congruence|].
  rewrite IH by assumption. reflexivity.
Qed.

Lemma in_set (k : K) (v : V) (d : list (K * V)) (k' : K) (v' : V) :
  NoDup (map fst d) -> In k (map fst d) ->
  In (k', v') (set k v d) <->
  (k' = k /\ v' = v) \/ (k' <> k /\ In (k', v') d).
Proof.
  induction d as [|[k0 v0] d IH]; simpl; [intros _ []|].
  intros Hnd Hin. inversion Hnd as [|? ? Hk0 Hnd']; subst.
  destruct (eqb k k0) eqn:E; simpl.
  - apply eqb_eq in E. subst k0. split.
    + intros [H|H]; [inversion H; auto|].
      right. split; [|auto]. intros ->.
      apply Hk0. apply (in_map fst) in H. exact H.
    + intros [[-> ->]|[Hne [H|H]]]; auto.
      inversion H; congruence.
  - apply eqb_neq in E. destruct Hin as [Hin|Hin]; [congruence|].
    rewrite (IH Hnd' Hin). split.
    + intros [H|[H|[H1 H2]]]; auto.
      inversion H; subst. right. split; [congruence | auto].
    + intros [H|[H1 [H2|H2]]]; auto.
Qed.

End Facts.
End PyDictFacts.

(** ** Mirror groups *)

Module MirrorFacts.
Import PyDictFacts.

Lemma pos_eqb_eq (p q : Z * Z) : pos_eqb p q = true <-> p = q.
Proof.
  destruct p as [a b], q as [c d]. unfold pos_eqb. simpl.
  rewrite andb_true_iff, !Z.eqb_eq.
  split; [intros [-> ->]; reflexivity | intros H; inversion H; auto].
Qed.

Lemma names_at_snoc_same ds d :
  names_at (position_of d) (ds ++ [d])
  = names_at (position_of d) ds ++ [Display.name d].
Proof.
  unfold names_at. rewrite filter_app, map_app. simpl.
  rewrite (proj2 (pos_eqb_eq _ _) eq_refl). reflexivity.
Qed.

Lemma names_at_snoc_other p ds d :
  p <> position_of d -> names_at p (ds ++ [d]) = names_at p ds.
Proof.
  intros H. unfold names_at. rewrite filter_app, map_app. simpl.
  destruct (pos_eqb (position_of d) p) eqn:E.
  - apply pos_eqb_eq in E. congruence.
  - simpl. apply app_nil_r.
Qed.

Lemma names_at_absent p ds :
  (forall d, In d ds -> position_of d <> p) -> names_at p ds = [].
Proof.
  intros H. unfold names_at. induction ds as [|d ds IH]; simpl; [reflexivity|].
  destruct (pos_eqb (position_of d) p) eqn:E.
  - apply pos_eqb_eq in E. destruct (H d); simpl; auto.
  - apply IH. intros d' Hd'. apply H. simpl; auto.
Qed.

Lemma in_names_at n p ds :
  In n (names_at p ds) <->
  exists d, In d ds /\ position_of d = p /\ Display.name d = n.
Proof.
  unfold names_at. rewrite in_map_iff. split.
  - intros (d & <- & H). apply filter_In in H as [H1 H2].
    apply pos_eqb_eq in H2. eauto.
  - intros (d & H1 & H2 & <-). exists d. split; [reflexivity|].
    apply filter_In. split; [assumption|]. apply pos_eqb_eq. assumption.
Qed.

Lemma group_step_new pg d :
  PyDict.get pos_eqb (position_of d) pg = None ->
  group_step pg d = pg ++ [(position_of d, [Display.name d])].
Proof.
  intros H. unfold group_step. rewrite H.
  rewrite (set_new pos_eqb _ _ _ H).
  rewrite (get_last pos_eqb pos_eqb_eq _ _ _ H).
  rewrite (set_last pos_eqb pos_eqb_eq _ _ _ _ H). reflexivity.
Qed.

Lemma group_step_old pg d l :
  PyDict.get pos_eqb (position_of d) pg = Some l ->
  group_step pg d
  = PyDict.set pos_eqb (position_of d) (l ++ [Display.name d]) pg.
Proof. intros H. unfold group_step. rewrite H, H. reflexivity. Qed.

Lemma group_step_inv ds pg d :
  groups_inv ds pg -> groups_inv (ds ++ [d]) (group_step pg d).
Proof.
  intros [Hk Hg Hc Hi].
  destruct (PyDict.get pos_eqb (position_of d) pg) as [l|] eqn:E.
  - rewrite (group_step_old pg d l E).
    pose proof (get_some_in pos_eqb pos_eqb_eq _ _ _ E) as Hin.
    assert (Hkey : In (position_of d) (map fst pg))
      by (apply (in_map fst) in Hin; exact Hin).
    constructor.
    + rewrite (keys_set pos_eqb pos_eqb_eq) by assumption. assumption.
    + intros p g H.
      apply (in_set pos_eqb pos_eqb_eq) in H as [[-> ->]|[Hne H]];
        try assumption.
      * rewrite names_at_snoc_same. f_equal. apply Hg, Hin.
      * rewrite names_at_snoc_other by assumption. apply Hg, H.
    + intros d' H. rewrite (keys_set pos_eqb pos_eqb_eq) by assumption.
      apply in_app_or in H as [H|[<-|[]]]; auto.
    + intros p H. rewrite (keys_set pos_eqb pos_eqb_eq) in H by assumption.
      destruct (Hi p H) as (d' & H1 & H2). exists d'.
      split; [apply in_or_app; auto | assumption].
  - rewrite (group_step_new pg d E).
    pose proof (proj1 (get_none pos_eqb pos_eqb_eq _ _) E) as Hnot.
    constructor.
    + rewrite map_app. apply NoDup_app; [assumption | |].
      * constructor; [intros [] | constructor].
      * intros p Hp [<-|[]]. apply Hnot, Hp.
    + intros p g H. apply in_app_or in H as [H|[H|[]]].
      * rewrite names_at_snoc_other; [apply Hg, H|].
        intros ->. apply Hnot. apply (in_map fst) in H. exact H.
      * inversion H; subst. rewrite names_at_snoc_same.
        rewrite names_at_absent; [reflexivity|].
        intros d' Hd' Heq. apply Hnot. rewrite <- Heq. apply Hc, Hd'.
    + intros d' H. rewrite map_app. apply in_or_app.
      apply in_app_or in H as [H|[<-|[]]]; simpl; auto.
    + intros p H. rewrite map_app in H.
      apply in_app_or in H as [H|[<-|[]]].
      * destruct (Hi p H) as (d' & H1 & H2). exists d'.
        split; [apply in_or_app; auto | assumption].
      * exists d. split; [apply in_or_app; simpl; auto | reflexivity].
Qed.

Lemma fold_group_step_inv ds : forall done pg,
  groups_inv done pg ->
  groups_inv (done ++ ds) (fold_left group_step ds pg).
Proof.
  induction ds as [|d ds IH]; intros done pg H; simpl.
  - rewrite app_nil_r. assumption.
  - replace (done ++ d :: ds) with ((done ++ [d]) ++ ds)
      by (rewrite <- app_assoc; reflexivity).
    apply IH, group_step_inv, H.
Qed.

Lemma position_groups_inv ds : groups_inv ds (position_groups_of ds).
Proof.
  apply (fold_group_step_inv ds [] []).
  constructor; simpl; [constructor | intros ? ? [] | intros ? [] | intros ? []].
Qed.


End MirrorFacts.

Module MirrorClaims.
Import PyDictFacts MirrorFacts.



Lemma flagged_mirrored_spec (g : list str) :
  flagged_mirrored g = true <-> (2 <= length g)%nat.
Proof. unfold flagged_mirrored. rewrite Nat.ltb_lt. lia. Qed.

Lemma groups_are_values ds g :
  In g (_find_mirrored_display_groups ds) <->
  exists p, In (p, g) (position_groups_of ds).
Proof.
  unfold _find_mirrored_display_groups, PyDict.values. rewrite in_map_iff.
  split.
  - intros ([p g'] & <- & H). exists p. exact H.
  - intros (p & H). exists (p, g). auto.
Qed.



End MirrorClaims.

(** ** The snap engine *)

Module SnapFacts.
Import PyDictFacts.

Lemma scan_is_fold_over_candidates w items : forall acc,
  fold_left (scan_widget w) items acc
  = fold_left (consider_snap w) (candidates w items) acc.
Proof.
  induction items as [|[name widget] items IH]; intros acc; [reflexivity|].
  cbn [fold_left candidates flat_map]. rewrite fold_left_app, IH.
  f_equal. unfold scan_widget. cbn [fst snd].
  destruct (str_eqb name (Display.name (DisplayWidget.display w)));
    reflexivity.
Qed.

Lemma within_threshold_spec (d2 : Z) :
  within_threshold d2 = true <-> d2 < 150 * 150.
Proof. unfold within_threshold, snap_threshold. rewrite Z.ltb_lt. lia. Qed.

Lemma consider_snap_selected w cs acc c :
  selected w cs acc -> selected w (cs ++ [c]) (consider_snap w acc c).
Proof.
  unfold selected, consider_snap. cbv zeta.
  destruct acc as [[b|] m]; cbn [fst snd].
  - intros (-> & Hb & pre & post & -> & Hpre & Hpost). cbn [lt_min].
    destruct (snap_distance2 w c <? snap_distance2 w b) eqn:E1;
      [destruct (within_threshold (snap_distance2 w c)) eqn:E2|];
      cbn [andb fst snd].
    + apply Z.ltb_lt in E1. apply within_threshold_spec in E2.
      split; [reflexivity|]. split; [assumption|].
      exists (pre ++ b :: post), []. split; [reflexivity|]. split.
      * intros c' H. apply in_app_or in H as [H|[<-|H]];
          [apply Hpre in H | | apply Hpost in H]; lia.
      * intros c' [].
    + apply Z.ltb_lt in E1.
      assert (~ snap_distance2 w c < 150 * 150)
        by (rewrite <- within_threshold_spec; congruence).
      lia.
    + apply Z.ltb_ge in E1.
      split; [reflexivity|]. split; [assumption|].
      exists pre, (post ++ [c]). split; [rewrite <- app_assoc; reflexivity|].
      split; [assumption|].
      intros c' H. apply in_app_or in H as [H|[<-|[]]]; auto.
  - intros (-> & Hall). cbn [lt_min andb].
    destruct (within_threshold (snap_distance2 w c)) eqn:E2; cbn [fst snd].
    + apply within_threshold_spec in E2.
      split; [reflexivity|]. split; [assumption|].
      exists cs, []. split; [reflexivity|]. split.
      * intros c' H. apply Hall in H. lia.
      * intros c' [].
    + split; [reflexivity|].
      intros c' H. apply in_app_or in H as [H|[<-|[]]]; [auto|].
      assert (~ snap_distance2 w c < 150 * 150)
        by (rewrite <- within_threshold_spec; congruence).
      lia.
Qed.

Lemma fold_consider_selected w cs :
  selected w cs (fold_left (consider_snap w) cs (None, None)).
Proof.
  induction cs as [|c cs IH] using rev_ind.
  - simpl. split; [reflexivity | intros c []].
  - rewrite fold_left_app. cbn [fold_left]. apply consider_snap_selected, IH.
Qed.

Lemma build_widgets_from_keys place ds : forall i ws,
  NoDup (map Display.name ds) ->
  (forall d, In d ds -> ~ In (Display.name d) (map fst ws)) ->
  build_widgets_from place i ds ws
  = ws ++ map (fun id : nat * Display.t =>
                 (Display.name (snd id),
                  DisplayWidget.init (snd id) (place (fst id) (snd id))))
              (combine (seq i (length ds)) ds).
Proof.
  unfold build_widgets_from.
  induction ds as [|d ds IH]; intros i ws Hnd Hnew;
    cbn [length seq combine fold_left map].
  - rewrite app_nil_r. reflexivity.
  - inversion Hnd as [|? ? Hd Hnd']; subst.
    unfold register at 2. cbn [fst snd].
    rewrite (set_new str_eqb).
    2:{ apply (get_none str_eqb str_eqb_eq). apply Hnew. left; reflexivity. }
    rewrite IH; [rewrite <- app_assoc; reflexivity | assumption |].
    intros d' Hd' Hin. rewrite map_app in Hin.
    apply in_app_or in Hin as [Hin|[Hin|[]]].
    + apply (Hnew d'); [right; assumption | assumption].
    + simpl in Hin. apply Hd. rewrite Hin. apply in_map, Hd'.
Qed.

Lemma map_snd_combine_seq {A : Type} (l : list A) : forall i,
  map snd (combine (seq i (length l)) l) = l.
Proof.
  induction l as [|a l IH]; intros i; simpl; [reflexivity|].
  rewrite IH. reflexivity.
Qed.

Lemma get_update (k k' : str) (f : DisplayWidget.t -> DisplayWidget.t)
  (ws : list (str * DisplayWidget.t)) :
  PyDict.get str_eqb k'
    (map (fun kw : str * DisplayWidget.t =>
            if str_eqb k (fst kw) then (fst kw, f (snd kw)) else kw) ws)
  = if str_eqb k' k then option_map f (PyDict.get str_eqb k' ws)
    else PyDict.get str_eqb k' ws.
Proof.
  induction ws as [|[k0 w0] ws IH]; cbn [map PyDict.get fst snd].
  - destruct (str_eqb k' k); reflexivity.
  - destruct (str_eqb k k0) eqn:E0; cbn [PyDict.get fst snd].
    + apply str_eqb_eq in E0. subst k0.
      destruct (str_eqb k' k); [reflexivity | exact IH].
    + destruct (str_eqb k' k0) eqn:E1; [|exact IH].
      apply str_eqb_eq in E1. subst k0.
      destruct (str_eqb k' k) eqn:E2; [|reflexivity].
      apply str_eqb_eq in E2. subst k'. rewrite str_eqb_refl in E0.
      discriminate E0.
Qed.

Lemma distance2_nonneg (ax ay bx by_ : Z) : 0 <= distance2 ax ay bx by_.
Proof.
  unfold distance2. cbv zeta.
  pose proof (Z.square_nonneg (ax - bx)).
  pose proof (Z.square_nonneg (ay - by_)). lia.
Qed.

Lemma sqrt_IZR_lt (a b : Z) :
  0 <= a -> 0 <= b -> (sqrt (IZR a) < sqrt (IZR b))%R <-> a < b.
Proof.
  intros Ha Hb. split.
  - intros H. apply lt_IZR. apply sqrt_lt_0_alt. exact H.
  - intros H. apply sqrt_lt_1_alt.
    split; [apply IZR_le; lia | apply IZR_lt; lia].
Qed.

Lemma sqrt_IZR_le (a b : Z) :
  0 <= a -> 0 <= b -> (sqrt (IZR a) <= sqrt (IZR b))%R <-> a <= b.
Proof.
  intros Ha Hb. split.
  - intros H. apply le_IZR.
    apply sqrt_le_0; [apply IZR_le; lia | apply IZR_le; lia | exact H].
  - intros H. apply sqrt_le_1_alt. apply IZR_le; lia.
Qed.

Lemma sqrt_22500 : sqrt (IZR 22500) = 150%R.
Proof.
  replace (IZR 22500) with (150 * 150)%R by lra.
  apply sqrt_square. lra.
Qed.

(** The distance of the design is the square root of the squared
    distance the loop compares. *)
Lemma stated_distance_sqrt w c :
  stated_distance w c = sqrt (IZR (snap_distance2 w c)).
Proof. destruct c as [[[x y] n] d]. reflexivity. Qed.

Lemma snap_distance2_nonneg w c : 0 <= snap_distance2 w c.
Proof. destruct c as [[[x y] n] d]. apply distance2_nonneg. Qed.

Lemma stated_distance_lt w b c :
  (stated_distance w b < stated_distance w c)%R
  <-> snap_distance2 w b < snap_distance2 w c.
Proof.
  rewrite !stated_distance_sqrt.
  apply sqrt_IZR_lt; apply snap_distance2_nonneg.
Qed.

Lemma stated_distance_le w b c :
  (stated_distance w b <= stated_distance w c)%R
  <-> snap_distance2 w b <= snap_distance2 w c.
Proof.
  rewrite !stated_distance_sqrt.
  apply sqrt_IZR_le; apply snap_distance2_nonneg.
Qed.

Lemma stated_distance_below w c :
  (stated_distance w c < 150)%R <-> snap_distance2 w c < 150 * 150.
Proof.
  rewrite stated_distance_sqrt, <- sqrt_22500.
  rewrite sqrt_IZR_lt; [lia | apply snap_distance2_nonneg | lia].
Qed.

Lemma stated_distance_not_below w c :
  (150 <= stated_distance w c)%R <-> 150 * 150 <= snap_distance2 w c.
Proof.
  rewrite stated_distance_sqrt, <- sqrt_22500.
  rewrite sqrt_IZR_le; [lia | lia | apply snap_distance2_nonneg].
Qed.

(** The enumeration of the loop is the enumeration of the design. *)
Lemma candidates_as_stated w items :
  candidates w items = stated_candidates w items.
Proof.
  unfold candidates, stated_candidates.
  induction items as [|item items IH]; cbn [flat_map]; [reflexivity|].
  rewrite IH. f_equal.
  destruct (str_eqb (fst item) (Display.name (DisplayWidget.display w)));
    reflexivity.
Qed.

(** What the loop has selected, in the words of the design. *)
Lemma best_snap_as_stated w items :
  match find_best_snap w items with
  | None =>
      forall c, In c (stated_candidates w items) ->
                (150 <= stated_distance w c)%R
  | Some b =>
      (stated_distance w b < 150)%R
      /\ exists pre post,
          stated_candidates w items = pre ++ b :: post
          /\ (forall c, In c pre ->
                        (stated_distance w b < stated_distance w c)%R)
          /\ (forall c, In c post ->
                        (stated_distance w b <= stated_distance w c)%R)
  end.
Proof.
  unfold find_best_snap.
  rewrite scan_is_fold_over_candidates, candidates_as_stated.
  pose proof (fold_consider_selected w (stated_candidates w items)) as H.
  unfold selected in H.
  destruct (fst (fold_left (consider_snap w) (stated_candidates w items)
                   (None, None))) as [b|].
  - destruct H as (_ & H1 & pre & post & E & Hpre & Hpost).
    split; [apply stated_distance_below; exact H1|].
    exists pre, post. split; [exact E|]. split.
    + intros c Hc. apply stated_distance_lt. apply Hpre, Hc.
    + intros c Hc. apply stated_distance_le. apply Hpost, Hc.
  - destruct H as (_ & H). intros c Hc.
    apply stated_distance_not_below. apply H, Hc.
Qed.

End SnapFacts.

Module SnapClaims.
Import SnapFacts.

(** C1. The widget store lists the monitors in parser order.  On a drag
    release, over the other monitors in store order, each with the slots
    right-of, left-of, above, below in that order, a snap is selected
    exactly when the least Euclidean distance from the top-left corner
    of the dragged rectangle to a slot is below 150, and the snap
    selected is the first slot of the enumeration at that least
    distance.  The handler acts on that selection: with none it only
    looks for a free fallback anchor and records nothing; with one it
    either leaves everything as it is, when the slot overlaps a monitor,
    or moves the widget to the slot and records the neighbour and the
    direction of the slot as the pending change of the dragged
    monitor. *)
Theorem snap_selects_first_global_minimum :
  (forall place ds,
      NoDup (map Display.name ds) ->
      map fst (build_widgets place ds) = map Display.name ds
      /\ map (fun kw => DisplayWidget.display (snd kw))
           (build_widgets place ds) = ds)
  /\
  (forall w items,
      match find_best_snap w items with
      | None =>
          forall c, In c (stated_candidates w items) ->
                    (150 <= stated_distance w c)%R
      | Some b =>
          (stated_distance w b < 150)%R
          /\ exists pre post,
              stated_candidates w items = pre ++ b :: post
              /\ (forall c, In c pre ->
                            (stated_distance w b < stated_distance w c)%R)
              /\ (forall c, In c post ->
                            (stated_distance w b <= stated_distance w c)%R)
      end)
  /\
  (forall s k w,
      PyDict.get str_eqb k (GUI.display_widgets s) = Some w ->
      let s' := snap_widget_position s k in
      match find_best_snap w (GUI.display_widgets s) with
      | None =>
          s' = _find_non_overlapping_position s k
          /\ GUI.pending_layout_changes s' = GUI.pending_layout_changes s
      | Some (snap_x, snap_y, relative_to, direction) =>
          if _would_overlap (GUI.display_widgets s) w snap_x snap_y
          then s' = s
          else
            GUI.pending_layout_changes s'
            = PyDict.set str_eqb (Display.name (DisplayWidget.display w))
                (relative_to, direction) (GUI.pending_layout_changes s)
            /\ PyDict.get str_eqb k (GUI.display_widgets s')
               = Some (DisplayWidget.set_has_pending_changes true
                         (DisplayWidget.move snap_x snap_y w))
            /\ GUI.apply_layout_btn s' = true
      end).
Proof.
  split; [|split].
  - intros place ds Hnd. unfold build_widgets.
    rewrite (build_widgets_from_keys place ds 0 [] Hnd)
      by (intros d _ []).
    cbn [app]. rewrite !map_map. cbn [fst snd DisplayWidget.display
                                        DisplayWidget.init].
    split.
    + rewrite <- (map_map snd Display.name), map_snd_combine_seq.
      reflexivity.
    + change (map (fun x : nat * Display.t => snd x)
                (combine (seq 0 (length ds)) ds) = ds).
      apply map_snd_combine_seq.
  - exact best_snap_as_stated.
  - intros s k w Hget s'. subst s'. unfold snap_widget_position.
    rewrite Hget.
    destruct (find_best_snap w (GUI.display_widgets s))
      as [[[[sx sy] rel] dir]|].
    + destruct (_would_overlap (GUI.display_widgets s) w sx sy);
        cbn [negb]; [reflexivity|].
      cbn [GUI.display_widgets GUI.pending_layout_changes
           GUI.apply_layout_btn GUI.show_status GUI.emit
           GUI.set_apply_layout_btn GUI.update_widget
           GUI.set_display_widgets GUI.set_pending_layout_changes].
      split; [reflexivity|]. split; [|reflexivity].
      rewrite !get_update, str_eqb_refl, Hget. reflexivity.
    + split; [reflexivity|].
      unfold _find_non_overlapping_position. rewrite Hget.
      destruct (find _ test_positions) as [[px py]|]; reflexivity.
Qed.

End SnapClaims.

Module SnapScenes.
Import SnapFacts SnapClaims.

Lemma snap_selects_first_global_minimum_witness :
  PyDict.get str_eqb (L "DP-1") (GUI.display_widgets tie_scene)
  = Some (widget_at (L "DP-1") 150 0)
  /\ find_best_snap (widget_at (L "DP-1") 150 0)
       (GUI.display_widgets tie_scene)
     = Some (100, 0, L "eDP-1", L "right-of")
  /\ (stated_distance (widget_at (L "DP-1") 150 0)
        (100, 0, L "eDP-1", L "right-of")%Z < 150)%R
  /\ GUI.pending_layout_changes (snap_widget_position tie_scene (L "DP-1"))
     = [(L "DP-1", (L "eDP-1", L "right-of"))]
  /\ PyDict.get str_eqb (L "DP-1")
       (GUI.display_widgets (snap_widget_position tie_scene (L "DP-1")))
     = Some (DisplayWidget.set_has_pending_changes true
               (widget_at (L "DP-1") 100 0)).
Proof.
  assert (Hget : PyDict.get str_eqb (L "DP-1") (GUI.display_widgets tie_scene)
                 = Some (widget_at (L "DP-1") 150 0)) by reflexivity.
  assert (Hbest : find_best_snap (widget_at (L "DP-1") 150 0)
                    (GUI.display_widgets tie_scene)
                  = Some (100, 0, L "eDP-1", L "right-of")) by reflexivity.
  split; [exact Hget|]. split; [exact Hbest|].
  pose proof (proj1 (proj2 snap_selects_first_global_minimum)
                (widget_at (L "DP-1") 150 0) (GUI.display_widgets tie_scene))
    as Hsel.
  rewrite Hbest in Hsel. split; [exact (proj1 Hsel)|].
  pose proof (proj2 (proj2 snap_selects_first_global_minimum)
                tie_scene (L "DP-1") (widget_at (L "DP-1") 150 0) Hget)
    as Hact.
  cbv zeta in Hact. rewrite Hbest in Hact.
  replace (_would_overlap (GUI.display_widgets tie_scene)
             (widget_at (L "DP-1") 150 0) 100 0) with false in Hact
    by reflexivity.
  destruct Hact as (Hp & Hw & _). split; [exact Hp | exact Hw].
Defined.

(** A tie: DP-1 dropped at (150,0) is 50 away from the right edge slot of
    eDP-1 and from the left edge slot of HDMI-1; the first one wins. *)
Example snap_tie_picks_first_enumerated :
  find_best_snap (widget_at (L "DP-1") 150 0)
    [(L "eDP-1", widget_at (L "eDP-1") 0 0);
     (L "HDMI-1", widget_at (L "HDMI-1") 300 0);
     (L "DP-1", widget_at (L "DP-1") 150 0)]
  = Some (100, 0, L "eDP-1", L "right-of")
  /\ snap_distance2 (widget_at (L "DP-1") 150 0)
       (100, 0, L "eDP-1", L "right-of")
     = snap_distance2 (widget_at (L "DP-1") 150 0)
         (200, 0, L "HDMI-1", L "left-of").
Proof. split; reflexivity. Qed.

(** C2. DP-1 is released at (110,10); the nearest slot, right of eDP-1 at
    (100,0), overlaps HDMI-1.  The snap is not committed, but no fallback
    anchor is tried either, although (200,20) is free: the handler
    returns with the state unchanged, DP-1 still on top of HDMI-1. *)
Theorem vetoed_snap_skips_fallback :
  find_best_snap (widget_at (L "DP-1") 110 10) (GUI.display_widgets veto_scene)
  = Some (100, 0, L "eDP-1", L "right-of")
  /\ _would_overlap (GUI.display_widgets veto_scene)
       (widget_at (L "DP-1") 110 10) 100 0 = true
  /\ find (fun p : Z * Z =>
             negb (_would_overlap (GUI.display_widgets veto_scene)
                     (widget_at (L "DP-1") 110 10) (fst p) (snd p)))
          test_positions = Some (200, 20)
  /\ snap_widget_position veto_scene (L "DP-1") = veto_scene
  /\ _would_overlap (GUI.display_widgets veto_scene)
       (widget_at (L "DP-1") 110 10) 110 10 = true.
Proof. repeat split; vm_compute; reflexivity. Qed.

End SnapScenes.

(** ** Selection *)

Module SelectionClaims.

(** C5. Clicking HDMI-1, DP-1, HDMI-1, DP-1 from an empty selection ends
    with DP-1 as the source and as the target at once: the last click
    falls into the first branch, which does not look at the target. *)
Theorem clicks_make_source_equal_target :
  let s :=
    clicks two_monitors
      [(L "HDMI-1", default_display (L "HDMI-1"));
       (L "DP-1", default_display (L "DP-1"));
       (L "HDMI-1", default_display (L "HDMI-1"));
       (L "DP-1", default_display (L "DP-1"))] in
  GUI.source_display s = Some (default_display (L "DP-1"))
  /\ GUI.target_display s = Some (default_display (L "DP-1"))
  /\ option_map (fun w => (DisplayWidget.is_source w, DisplayWidget.is_target w))
       (PyDict.get str_eqb (L "DP-1") (GUI.display_widgets s))
     = Some (true, true).
Proof. repeat split; vm_compute; reflexivity. Qed.

(** The part of the toggle that holds: one click selects the source, a
    second click on the same monitor clears it. *)
Lemma click_twice_clears_source (s : GUI.t) (widget : str) (d : Display.t) :
  GUI.source_display s = None ->
  GUI.source_display (on_display_clicked s widget d) = Some d
  /\ GUI.source_display
       (on_display_clicked (on_display_clicked s widget d) widget d) = None.
Proof.
  intros H.
  assert (E : on_display_clicked s widget d
              = GUI.show_status
                  (L "Selected " ++ Display.name d ++ L " as source")
                  (GUI.update_widget widget (DisplayWidget.set_is_source true)
                     (GUI.set_source_display (Some d) s))).
  { unfold on_display_clicked. rewrite H. reflexivity. }
  rewrite E. split; [reflexivity|].
  unfold on_display_clicked.
  cbn [GUI.source_display GUI.target_display GUI.show_status GUI.emit
       GUI.update_widget GUI.set_display_widgets GUI.set_source_display
       is_none name_is].
  rewrite str_eqb_refl. cbn [negb]. rewrite andb_false_r. reflexivity.
Qed.

End SelectionClaims.

(** ** The apply handler *)

Module ApplyFacts.

Lemma runs_app (a b : list event) : runs (a ++ b) = runs a ++ runs b.
Proof. unfold runs. apply flat_map_app. Qed.

Lemma runs_report (n : str) (o : outcome) : runs (report n o) = [].
Proof.
  destruct o as [rc out err|e]; simpl; [|reflexivity].
  destruct (rc =? 0); reflexivity.
Qed.

Lemma runs_batch env pending : forall tr,
  runs (batch env tr pending) = map entry_cmd pending.
Proof.
  induction pending as [|entry rest IH]; intros tr; [reflexivity|].
  cbn [batch map]. cbv zeta.
  rewrite runs_app, IH. cbn [runs flat_map app].
  fold (runs (report (fst entry) (env tr (entry_cmd entry)))).
  rewrite runs_report. reflexivity.
Qed.

Lemma apply_entry_batch env tr n entry :
  exists n',
    apply_entry env (tr, n) entry
    = (tr ++ Run (entry_cmd entry)
          :: report (fst entry) (env tr (entry_cmd entry)), n').
Proof.
  destruct entry as [display_name [relative_to direction]].
  unfold apply_entry, entry_cmd, report, error_text. cbn [fst snd].
  destruct (env tr (reposition_cmd display_name relative_to direction))
    as [rc out err|e].
  - destruct (rc =? 0); eexists; [reflexivity|].
    rewrite <- app_assoc. reflexivity.
  - eexists. rewrite <- app_assoc. reflexivity.
Qed.

Lemma fold_apply_batch env pending : forall tr n,
  exists n',
    fold_left (apply_entry env) pending (tr, n)
    = (tr ++ batch env tr pending, n').
Proof.
  induction pending as [|entry rest IH]; intros tr n; cbn [fold_left batch].
  - exists n. rewrite app_nil_r. reflexivity.
  - destruct (apply_entry_batch env tr n entry) as [n1 ->].
    destruct (IH (tr ++ Run (entry_cmd entry)
                     :: report (fst entry) (env tr (entry_cmd entry))) n1)
      as [n2 ->].
    exists n2. cbv zeta. rewrite <- app_assoc. reflexivity.
Qed.

Lemma batch_entry env pre entry post : forall tr,
  exists mid,
    batch env tr (pre ++ entry :: post)
    = mid ++ Run (entry_cmd entry)
          :: report (fst entry) (env (tr ++ mid) (entry_cmd entry))
          ++ batch env
               (tr ++ mid ++ Run (entry_cmd entry)
                   :: report (fst entry) (env (tr ++ mid) (entry_cmd entry)))
               post.
Proof.
  induction pre as [|e pre IH]; intros tr.
  - exists []. cbn [app batch]. cbv zeta. rewrite !app_nil_r. reflexivity.
  - cbn [app batch]. cbv zeta.
    destruct (IH (tr ++ Run (entry_cmd e)
                     :: report (fst e) (env tr (entry_cmd e)))) as [mid E].
    exists ((Run (entry_cmd e) :: report (fst e) (env tr (entry_cmd e)))
              ++ mid).
    rewrite E. rewrite <- !app_assoc. reflexivity.
Qed.

(** The trace the handler leaves when there is something to apply. *)
Lemma apply_trace env s :
  GUI.pending_layout_changes s <> [] ->
  exists summary,
    GUI.trace (on_apply_layout_clicked env s)
    = GUI.trace s
        ++ batch env (GUI.trace s) (GUI.pending_layout_changes s)
        ++ summary ++ [TimeoutAdd 500]
    /\ runs summary = [].
Proof.
  intros Hne. unfold on_apply_layout_clicked.
  destruct (GUI.pending_layout_changes s) as [|entry rest] eqn:E;
    [contradiction|].
  destruct (fold_apply_batch env (entry :: rest) (GUI.trace s) 0) as [n ->].
  cbn [GUI.trace].
  destruct (n >? 0).
  - eexists [ShowStatus _]. rewrite <- !app_assoc. split; reflexivity.
  - exists []. rewrite <- !app_assoc. split; reflexivity.
Qed.

Lemma apply_idle env s :
  GUI.pending_layout_changes s = [] -> on_apply_layout_clicked env s = s.
Proof. intros H. unfold on_apply_layout_clicked. rewrite H. reflexivity. Qed.

Lemma consistent_init : pending_flags_consistent GUI.init = true.
Proof. reflexivity. Qed.

Lemma consistent_apply env s :
  pending_flags_consistent s = true ->
  pending_flags_consistent (on_apply_layout_clicked env s) = true.
Proof.
  intros H. unfold on_apply_layout_clicked.
  destruct (GUI.pending_layout_changes s) as [|entry rest] eqn:E;
    [exact H|].
  destruct (fold_left (apply_entry env) (entry :: rest) (GUI.trace s, 0))
    as [tr n].
  unfold pending_flags_consistent. cbn [GUI.display_widgets].
  apply forallb_forall. intros kw Hin.
  apply in_map_iff in Hin as (kw0 & <- & _). reflexivity.
Qed.

End ApplyFacts.

(** ** The pending flag follows the pending map in every reachable state *)

Module ReachFacts.
Import ApplyFacts.

Lemma consistent_update (s s' : GUI.t)
  (h : str * DisplayWidget.t -> str * DisplayWidget.t) :
  GUI.pending_layout_changes s' = GUI.pending_layout_changes s ->
  GUI.display_widgets s' = map h (GUI.display_widgets s) ->
  (forall kw, DisplayWidget.has_pending_changes (snd (h kw))
              = DisplayWidget.has_pending_changes (snd kw)) ->
  pending_flags_consistent s = true -> pending_flags_consistent s' = true.
Proof.
  unfold pending_flags_consistent. intros Hp Hw Hh H.
  rewrite Hp, Hw. rewrite forallb_forall in H. apply forallb_forall.
  intros kw Hin. apply in_map_iff in Hin as (kw0 & <- & Hin).
  rewrite Hh. apply H, Hin.
Qed.

Lemma consistent_nonempty (s : GUI.t) :
  GUI.pending_layout_changes s <> [] -> pending_flags_consistent s = true.
Proof.
  intros H. unfold pending_flags_consistent.
  destruct (GUI.pending_layout_changes s); [contradiction|].
  apply forallb_forall. intros kw _. apply implb_true_r.
Qed.

Lemma set_not_empty {K V : Type} (eqb : K -> K -> bool) k (v : V) d :
  PyDict.set eqb k v d <> [].
Proof. destruct d as [|[k0 v0] d]; simpl; [|destruct (eqb k k0)]; discriminate. Qed.

Lemma consistent_find_position (s : GUI.t) (widget : str) :
  pending_flags_consistent s = true ->
  pending_flags_consistent (_find_non_overlapping_position s widget) = true.
Proof.
  intros H. unfold _find_non_overlapping_position.
  destruct (PyDict.get str_eqb widget (GUI.display_widgets s)); [|exact H].
  destruct (find _ test_positions) as [[px py]|]; [|exact H].
  eapply (consistent_update s); [reflexivity | reflexivity | | exact H].
  intros kw. cbv beta. destruct (str_eqb widget (fst kw)); reflexivity.
Qed.

Lemma consistent_snap (s : GUI.t) (dragged_widget : str) :
  pending_flags_consistent s = true ->
  pending_flags_consistent (snap_widget_position s dragged_widget) = true.
Proof.
  intros H. unfold snap_widget_position.
  destruct (PyDict.get str_eqb dragged_widget (GUI.display_widgets s));
    [|exact H].
  destruct (find_best_snap _ _) as [[[[sx sy] rel] dir]|];
    [|apply consistent_find_position, H].
  destruct (_would_overlap _ _ sx sy); cbn [negb]; [exact H|].
  apply consistent_nonempty. cbn [GUI.pending_layout_changes GUI.show_status
    GUI.emit GUI.set_apply_layout_btn GUI.update_widget
    GUI.set_display_widgets GUI.set_pending_layout_changes].
  apply set_not_empty.
Qed.

Lemma consistent_click (s : GUI.t) (widget : str) (display : Display.t) :
  pending_flags_consistent s = true ->
  pending_flags_consistent (on_display_clicked s widget display) = true.
Proof.
  intros H. unfold on_display_clicked.
  repeat match goal with
         | |- context [if ?b then _ else _] => destruct b
         end;
    try exact H;
    (eapply (consistent_update s); [reflexivity | reflexivity | | exact H];
     intros kw; cbv beta; destruct (str_eqb widget (fst kw)); reflexivity).
Qed.

Lemma reachable_consistent (s : GUI.t) :
  reachable s -> pending_flags_consistent s = true.
Proof.
  induction 1 as [s Hp Hw| | |].
  - unfold pending_flags_consistent. rewrite forallb_forall in Hw.
    apply forallb_forall. intros kw Hin. specialize (Hw kw Hin).
    apply negb_true_iff in Hw. rewrite Hw. reflexivity.
  - apply consistent_click; assumption.
  - apply consistent_snap; assumption.
  - apply consistent_apply; assumption.
Qed.

End ReachFacts.

Module ApplyClaims.
Import ApplyFacts.

(** C7, as the claim states it, fails: an entry whose invocation raises
    is reported with the text of the exception, and an entry whose
    stderr is blank but not empty is reported as "Unknown error"; in
    neither case does the report end with the text the claim names. *)
Lemma failing_entry_report_counterexample :
  GUI.trace
    (on_apply_layout_clicked
       (fun _ _ => Raised (L "[Errno 2] No such file or directory: 'xrandr'"))
       one_pending)
  = [Run [L "xrandr"; L "--output"; L "HDMI-1"; L "--right-of"; L "eDP-1"];
     ShowStatus
       (L "Error positioning HDMI-1: [Errno 2] No such file or directory: 'xrandr'");
     TimeoutAdd 500]
  /\ endswith
       (stated_error_text
          (Raised (L "[Errno 2] No such file or directory: 'xrandr'")))
       (L "Error positioning HDMI-1: [Errno 2] No such file or directory: 'xrandr'")
     = false
  /\ GUI.trace
       (on_apply_layout_clicked (fun _ _ => Completed 1 [] (L "  "))
          one_pending)
     = [Run [L "xrandr"; L "--output"; L "HDMI-1"; L "--right-of"; L "eDP-1"];
        ShowStatus (L "Failed to position HDMI-1: Unknown error");
        TimeoutAdd 500]
  /\ endswith (stated_error_text (Completed 1 [] (L "  ")))
       (L "Failed to position HDMI-1: Unknown error")
     = false.
Proof. repeat split; vm_compute; reflexivity. Qed.

(** C7, amended.  Apply-pending runs one reposition command per pending
    entry, in order, of the form xrandr --output name --direction
    reference and nothing more, whatever the outcomes of the other
    invocations; right after its command an entry that exits non-zero is
    reported with the stderr text stripped of surrounding white space,
    or "Unknown error" when nothing is left, an entry whose invocation
    raises is reported with the text of the exception, and an entry that
    exits with zero is not reported. *)
Theorem apply_attempts_every_entry (env : environment) (s : GUI.t) :
  runs (GUI.trace (on_apply_layout_clicked env s))
  = runs (GUI.trace s) ++ map entry_cmd (GUI.pending_layout_changes s)
  /\ (forall entry,
        entry_cmd entry
        = [L "xrandr"; L "--output"; fst entry;
           L "--" ++ snd (snd entry); fst (snd entry)])
  /\ (forall pre entry post,
        GUI.pending_layout_changes s = pre ++ entry :: post ->
        exists before after,
          GUI.trace (on_apply_layout_clicked env s)
          = before
              ++ Run (entry_cmd entry)
              :: report (fst entry) (env before (entry_cmd entry))
              ++ after)
  /\ (forall n rc out err,
        rc <> 0 ->
        report n (Completed rc out err)
        = [ShowStatus
             (L "Failed to position " ++ n ++ L ": "
                ++ (if str_eqb (strip err) [] then L "Unknown error"
                    else strip err))])
  /\ (forall n e,
        report n (Raised e)
        = [ShowStatus (L "Error positioning " ++ n ++ L ": " ++ e)])
  /\ (forall n out err, report n (Completed 0 out err) = []).
Proof.
  split; [|split; [|split; [|split; [|split]]]].
  - destruct (GUI.pending_layout_changes s) as [|entry rest] eqn:E.
    + rewrite (apply_idle env s E). cbn [map]. rewrite app_nil_r. reflexivity.
    + destruct (apply_trace env s) as (summary & Ht & Hs);
        [rewrite E; discriminate|].
      rewrite Ht, !runs_app, runs_batch, Hs, E. cbn [runs flat_map app].
      rewrite app_nil_r. reflexivity.
  - intros [n [r d]]. reflexivity.
  - intros pre entry post E.
    destruct (apply_trace env s) as (summary & Ht & _);
      [rewrite E; destruct pre; discriminate|].
    rewrite Ht, E.
    destruct (batch_entry env pre entry post (GUI.trace s)) as [mid ->].
    exists (GUI.trace s ++ mid). eexists.
    rewrite <- !app_assoc. cbn [app]. rewrite <- !app_assoc. reflexivity.
  - intros n rc out err Hrc. cbn [report].
    destruct (rc =? 0) eqn:E; [apply Z.eqb_eq in E; contradiction|].
    destruct (strip err); reflexivity.
  - reflexivity.
  - reflexivity.
Qed.

Lemma apply_attempts_every_entry_witness :
  GUI.pending_layout_changes one_pending
  = [] ++ (L "HDMI-1", (L "eDP-1", L "right-of")) :: []
  /\ exists before after,
      GUI.trace
        (on_apply_layout_clicked
           (fun _ _ => Completed 1 [] (L "xrandr: cannot find output")) one_pending)
      = before
          ++ Run (entry_cmd (L "HDMI-1", (L "eDP-1", L "right-of")))
          :: report (L "HDMI-1") (Completed 1 [] (L "xrandr: cannot find output"))
          ++ after.
Proof.
  split; [reflexivity|].
  exact (proj1 (proj2 (proj2
           (apply_attempts_every_entry
              (fun _ _ => Completed 1 [] (L "xrandr: cannot find output"))
              one_pending)))
           [] (L "HDMI-1", (L "eDP-1", L "right-of")) [] eq_refl).
Defined.

(** C10. When the handler has run, the pending map is empty and no
    widget carries the pending flag, whatever the invocations returned:
    failed entries are dropped with the others.  The state it starts
    from has a flag only where the map has an entry. *)
Theorem apply_clears_pending (env : environment) (s : GUI.t) :
  pending_flags_consistent s = true ->
  GUI.pending_layout_changes (on_apply_layout_clicked env s) = []
  /\ (forall key w,
        In (key, w) (GUI.display_widgets (on_apply_layout_clicked env s)) ->
        DisplayWidget.has_pending_changes w = false)
  /\ map fst (GUI.display_widgets (on_apply_layout_clicked env s))
     = map fst (GUI.display_widgets s).
Proof.
  intros H. unfold on_apply_layout_clicked.
  destruct (GUI.pending_layout_changes s) as [|entry rest] eqn:E.
  - split; [exact E|]. split; [|reflexivity].
    intros key w Hin. unfold pending_flags_consistent in H.
    rewrite E in H. cbn [hd_error is_none negb] in H.
    rewrite forallb_forall in H. specialize (H (key, w) Hin).
    cbn [snd] in H. destruct (DisplayWidget.has_pending_changes w);
      [discriminate H | reflexivity].
  - destruct (fold_left (apply_entry env) (entry :: rest) (GUI.trace s, 0))
      as [tr n].
    cbn [GUI.pending_layout_changes GUI.display_widgets].
    split; [reflexivity|]. split.
    + intros key w Hin. apply in_map_iff in Hin as ([k w0] & Ew & _).
      inversion Ew; subst. reflexivity.
    + rewrite map_map. reflexivity.
Qed.

Lemma apply_clears_pending_witness :
  pending_flags_consistent one_pending = true
  /\ GUI.pending_layout_changes
       (on_apply_layout_clicked
          (fun _ _ => Completed 1 [] (L "xrandr: cannot find output"))
          one_pending) = []
  /\ runs (GUI.trace
             (on_apply_layout_clicked
                (fun _ _ => Completed 1 [] (L "xrandr: cannot find output"))
                one_pending))
     = [[L "xrandr"; L "--output"; L "HDMI-1"; L "--right-of"; L "eDP-1"]].
Proof.
  split; [reflexivity|]. split; [|reflexivity].
  exact (proj1 (apply_clears_pending
                  (fun _ _ => Completed 1 [] (L "xrandr: cannot find output"))
                  one_pending eq_refl)).
Defined.

End ApplyClaims.

(** ** The parser: further properties *)

Module ParserExtras.
Import Re ReFacts HeaderFacts ParserFacts ParserClaims.

Lemma apply_mode_line_flags line g d :
  Display.is_connected (apply_mode_line line g d) = Display.is_connected d
  /\ Display.is_primary (apply_mode_line line g d) = Display.is_primary d.
Proof.
  unfold apply_mode_line.
  destruct (group 1 g); [|auto].
  destruct (str_in s (Display.modes d)); destruct (contains "*" line);
    simpl; auto.
Qed.

Lemma header_display_name g d :
  header_display g = Some d ->
  group 1 g = Some (Display.name d)
  /\ Display.is_connected d = true
  /\ Display.modes d = []
  /\ Display.current_mode d = header_mode d.
Proof.
  unfold header_display. destruct (group 1 g) as [n|]; [|discriminate].
  destruct (int_group_or 4 g 1920); [|discriminate].
  destruct (int_group_or 5 g 1080); [|discriminate].
  destruct (int_group_or 6 g 0); [|discriminate].
  destruct (int_group_or 7 g 0); [|discriminate].
  intros H; inversion H; subst. simpl. auto.
Qed.

Lemma map_update_at {A B : Type} (h : A -> B) (f : A -> A) i l :
  (forall a, h (f a) = h a) -> map h (update_at i f l) = map h l.
Proof.
  intros Hf. revert i; induction l as [|a l IH]; intros i; [destruct i; reflexivity|].
  destruct i; simpl; [rewrite Hf | rewrite IH]; reflexivity.
Qed.

(** The shape of the loop: what one line does to the names, and what it
    keeps of any property that headers establish and mode lines keep. *)
Lemma parse_line_names st line st' :
  parse_line st line = Some st' ->
  map Display.name (displays st')
  = map Display.name (displays st) ++ connected_names [line].
Proof.
  unfold parse_line, connected_names, connected_header_name.
  cbn [flat_map]. rewrite app_nil_r.
  destruct (match_ header_re line) as [g|].
  - destruct (group_is 2 g (L "connected")).
    + destruct (header_display g) as [d|] eqn:E; [|discriminate].
      intros H; inversion H; subst. cbn [displays].
      apply header_display_name in E as (-> & _). rewrite map_app. reflexivity.
    + intros H; inversion H; subst. rewrite app_nil_r. reflexivity.
  - rewrite app_nil_r.
    destruct (current_display st) as [i|]; [|intros H; inversion H; reflexivity].
    destruct (startswith (L "   ") line); [|intros H; inversion H; reflexivity].
    destruct (match_ mode_re line) as [g|]; [|intros H; inversion H; reflexivity].
    intros H; inversion H; subst. cbn [displays].
    apply map_update_at. intros a.
    apply (apply_mode_line_geometry line g a).
Qed.

Lemma connected_names_cons line lines :
  connected_names (line :: lines)
  = connected_names [line] ++ connected_names lines.
Proof. unfold connected_names. cbn [flat_map]. rewrite app_nil_r. reflexivity. Qed.

Lemma parse_lines_names lines : forall st st',
  parse_lines st lines = Some st' ->
  map Display.name (displays st')
  = map Display.name (displays st) ++ connected_names lines.
Proof.
  induction lines as [|line lines IH]; intros st st'; cbn [parse_lines].
  - intros H; inversion H; subst. rewrite app_nil_r. reflexivity.
  - destruct (parse_line st line) as [st1|] eqn:E; [|discriminate].
    intros H. rewrite (connected_names_cons line lines).
    rewrite (IH _ _ H), (parse_line_names _ _ _ E), app_assoc. reflexivity.
Qed.

Section Invariant.
Variable P : Display.t -> Prop.
Hypothesis P_header : forall g d, header_display g = Some d -> P d.
Hypothesis P_mode : forall line g d,
  match_ mode_re line = Some g -> P d -> P (apply_mode_line line g d).

Lemma parse_line_keeps st line st' :
  parse_line st line = Some st' ->
  Forall P (displays st) -> Forall P (displays st').
Proof.
  unfold parse_line. intros H Hst.
  destruct (match_ header_re line) as [g|].
  - destruct (group_is 2 g (L "connected")).
    + destruct (header_display g) as [d|] eqn:E; [|discriminate].
      inversion H; subst. cbn [displays].
      apply Forall_app. split; [assumption|].
      constructor; [eapply P_header; eassumption | constructor].
    + inversion H; subst. assumption.
  - destruct (current_display st) as [i|]; [|inversion H; subst; assumption].
    destruct (startswith (L "   ") line); [|inversion H; subst; assumption].
    destruct (match_ mode_re line) as [g|] eqn:E;
      [|inversion H; subst; assumption].
    inversion H; subst. cbn [displays].
    apply Forall_update_at; [|assumption].
    intros a Ha. eapply P_mode; eassumption.
Qed.

Lemma parse_lines_keeps lines : forall st st',
  parse_lines st lines = Some st' ->
  Forall P (displays st) -> Forall P (displays st').
Proof.
  induction lines as [|line lines IH]; intros st st'; cbn [parse_lines].
  - intros H; inversion H; subst. auto.
  - destruct (parse_line st line) as [st1|] eqn:E; [|discriminate].
    intros H Hst. eapply IH; [eassumption|].
    eapply parse_line_keeps; eassumption.
Qed.

Lemma parse_text_keeps output ds :
  parse_xrandr_text output = Some ds -> Forall P ds.
Proof.
  unfold parse_xrandr_text.
  destruct (parse_lines _ _) as [st|] eqn:E; [|discriminate].
  intros H; inversion H; subst.
  eapply parse_lines_keeps; [eassumption | constructor].
Qed.
End Invariant.

(** X1. Whenever the parser returns, it returns one monitor per header
    line of a connected output, in the order of the input and under the
    name of the header; every monitor it returns is marked connected,
    and a header that says [disconnected] adds none. *)
Theorem parser_lists_connected_headers (output : str)
  (ds : list Display.t) :
  parse_xrandr_text output = Some ds ->
  map Display.name ds = connected_names (split nl output)
  /\ Forall (fun d => Display.is_connected d = true) ds.
Proof.
  intros E. split.
  - unfold parse_xrandr_text in E.
    destruct (parse_lines _ _) as [st|] eqn:El; [|discriminate].
    inversion E; subst. apply (parse_lines_names _ _ _ El).
  - apply (parse_text_keeps (fun d => Display.is_connected d = true))
      with (output := output); [| |exact E].
    + intros g d H. apply header_display_name in H. tauto.
    + intros line g d _ H.
      rewrite (proj1 (apply_mode_line_flags line g d)). exact H.
Qed.

Lemma parser_lists_connected_headers_witness :
  parse_xrandr_text
    (L "eDP-1 connected primary 1920x1080+0+0"
       ++ nl :: L "VGA-1 disconnected (normal left inverted right)"
       ++ nl :: L "HDMI-1 connected 2560x1440+1920+0")
  = Some [Display.mk (L "eDP-1") 1920 1080 0 0 true true []
            (L "1920x1080") (L "60.00");
          Display.mk (L "HDMI-1") 2560 1440 1920 0 false true []
            (L "2560x1440") (L "60.00")]
  /\ connected_names
       (split nl
          (L "eDP-1 connected primary 1920x1080+0+0"
             ++ nl :: L "VGA-1 disconnected (normal left inverted right)"
             ++ nl :: L "HDMI-1 connected 2560x1440+1920+0"))
     = [L "eDP-1"; L "HDMI-1"].
Proof.
  assert (E : parse_xrandr_text
    (L "eDP-1 connected primary 1920x1080+0+0"
       ++ nl :: L "VGA-1 disconnected (normal left inverted right)"
       ++ nl :: L "HDMI-1 connected 2560x1440+1920+0")
  = Some [Display.mk (L "eDP-1") 1920 1080 0 0 true true []
            (L "1920x1080") (L "60.00");
          Display.mk (L "HDMI-1") 2560 1440 1920 0 false true []
            (L "2560x1440") (L "60.00")])
    by (vm_compute; reflexivity).
  split; [exact E|].
  rewrite <- (proj1 (parser_lists_connected_headers _ _ E)). reflexivity.
Defined.

Lemma str_in_spec (m : str) (l : list str) : str_in m l = true <-> In m l.
Proof.
  unfold str_in. rewrite existsb_exists. split.
  - intros (x & H1 & H2). apply str_eqb_eq in H2. subst. exact H1.
  - intros H. exists m. split; [exact H | apply str_eqb_refl].
Qed.

Lemma apply_mode_line_modes line g d :
  NoDup (Display.modes d) ->
  (Display.current_mode d = header_mode d
   \/ In (Display.current_mode d) (Display.modes d)) ->
  NoDup (Display.modes (apply_mode_line line g d))
  /\ (Display.current_mode (apply_mode_line line g d)
      = header_mode (apply_mode_line line g d)
      \/ In (Display.current_mode (apply_mode_line line g d))
            (Display.modes (apply_mode_line line g d))).
Proof.
  intros Hnd Hcur. unfold apply_mode_line.
  destruct (group 1 g) as [mode|]; [|auto].
  destruct (str_in mode (Display.modes d)) eqn:E.
  - apply str_in_spec in E.
    destruct (contains "*" line); cbn; auto.
  - assert (Hnot : ~ In mode (Display.modes d)).
    { intros H. apply str_in_spec in H. congruence. }
    assert (Hnd' : NoDup (Display.modes d ++ [mode])).
    { apply NoDup_app; [assumption | constructor; [intros []|constructor] |].
      intros a Ha [<-|[]]. contradiction. }
    destruct (contains "*" line); cbn; (split; [exact Hnd'|]).
    + right. apply in_or_app. right. left. reflexivity.
    + destruct Hcur as [H|H]; [left; exact H|].
      right. apply in_or_app. left. exact H.
Qed.

(** X2. In every monitor the parser returns, on every input, the mode
    list has no duplicate, and the current mode is either the resolution
    of the header or one of the listed modes. *)
Theorem parser_modes_distinct (output : str) (ds : list Display.t) :
  parse_xrandr_text output = Some ds ->
  Forall (fun d =>
            NoDup (Display.modes d)
            /\ (Display.current_mode d = header_mode d
                \/ In (Display.current_mode d) (Display.modes d))) ds.
Proof.
  apply parse_text_keeps.
  - intros g d H. apply header_display_name in H as (_ & _ & -> & ->).
    split; [constructor | left; reflexivity].
  - intros line g d _ [H1 H2]. apply apply_mode_line_modes; assumption.
Qed.

Lemma parser_modes_distinct_witness :
  parse_xrandr_text
    (L "HDMI-1 connected 1920x1080+0+0"
       ++ nl :: L "   1920x1080     60.00*+"
       ++ nl :: L "   1920x1080     50.00"
       ++ nl :: L "   1280x720      59.94")
  = Some [Display.mk (L "HDMI-1") 1920 1080 0 0 false true
            [L "1920x1080"; L "1280x720"] (L "1920x1080") (L "60.00")]
  /\ Forall (fun d =>
               NoDup (Display.modes d)
               /\ (Display.current_mode d = header_mode d
                   \/ In (Display.current_mode d) (Display.modes d)))
       [Display.mk (L "HDMI-1") 1920 1080 0 0 false true
          [L "1920x1080"; L "1280x720"] (L "1920x1080") (L "60.00")].
Proof.
  assert (E : parse_xrandr_text
    (L "HDMI-1 connected 1920x1080+0+0"
       ++ nl :: L "   1920x1080     60.00*+"
       ++ nl :: L "   1920x1080     50.00"
       ++ nl :: L "   1280x720      59.94")
  = Some [Display.mk (L "HDMI-1") 1920 1080 0 0 false true
            [L "1920x1080"; L "1280x720"] (L "1920x1080") (L "60.00")])
    by (vm_compute; reflexivity).
  split; [exact E|].
  exact (parser_modes_distinct _ _ E).
Defined.

End ParserExtras.

Module ParserExtras2.
Import Re ReFacts HeaderFacts ParserFacts ParserClaims ParserExtras.

Lemma split_nonempty sep s : split sep s <> [].
Proof.
  induction s as [|c s IH]; simpl; [discriminate|].
  destruct (Ascii.eqb c sep); [discriminate|].
  destruct (split sep s); [contradiction | discriminate].
Qed.

Lemma split_app_sep sep (a b : str) :
  split sep (a ++ sep :: b) = split sep a ++ split sep b.
Proof.
  induction a as [|c a IH]; cbn [app split].
  - rewrite Ascii.eqb_refl. reflexivity.
  - destruct (Ascii.eqb c sep); [rewrite IH; reflexivity|].
    rewrite IH. pose proof (split_nonempty sep a) as Hne.
    destruct (split sep a) as [|h t]; [contradiction | reflexivity].
Qed.

Lemma split_single sep (a : str) :
  forallb (fun c => negb (Ascii.eqb c sep)) a = true -> split sep a = [a].
Proof.
  induction a as [|c a IH]; cbn [forallb split]; intros H; [reflexivity|].
  apply andb_true_iff in H as [Hc Ha]. apply negb_true_iff in Hc.
  rewrite Hc, IH by assumption. reflexivity.
Qed.

Lemma number_has_no_x (w : str) :
  is_number w = true -> forallb (fun c => negb (Ascii.eqb c "x")) w = true.
Proof.
  intros H. apply is_number_spec in H as [_ H].
  induction w as [|c w IH]; cbn [forallb]; [reflexivity|].
  cbn [forallb] in H. apply andb_true_iff in H as [Hc Hw].
  destruct (Ascii.eqb_spec c "x") as [->|_]; [discriminate Hc|].
  simpl. auto.
Qed.

Lemma mode_area_split (w h : str) :
  is_number w = true -> is_number h = true ->
  mode_area (w ++ L "x" ++ h)
  = match py_int w, py_int h with
    | Some nw, Some nh => Some (nw * nh)
    | _, _ => None
    end.
Proof.
  intros Hw Hh.
  unfold mode_area. change (w ++ L "x" ++ h) with (w ++ "x"%char :: h).
  rewrite split_app_sep, (split_single "x" w (number_has_no_x w Hw)),
    (split_single "x" h (number_has_no_x h Hh)).
  reflexivity.
Qed.

Lemma mode_area_resolution (w h : str) :
  is_number w = true -> is_number h = true ->
  Z.of_nat (length w) <= 4300 -> Z.of_nat (length h) <= 4300 ->
  exists nw nh,
    py_int w = Some nw /\ py_int h = Some nh
    /\ mode_area (w ++ L "x" ++ h) = Some (nw * nh) /\ 0 <= nw * nh.
Proof.
  intros Hw Hh Lw Lh.
  destruct (py_int_number w Hw Lw) as (nw & Ew & Pw).
  destruct (py_int_number h Hh Lh) as (nh & Eh & Ph).
  exists nw, nh. split; [exact Ew|]. split; [exact Eh|].
  split; [|apply Z.mul_nonneg_nonneg; assumption].
  rewrite (mode_area_split w h Hw Hh), Ew, Eh. reflexivity.
Qed.

Lemma mode_area_too_long (w h : str) :
  is_number w = true -> is_number h = true ->
  4300 < Z.of_nat (length w) \/ 4300 < Z.of_nat (length h) ->
  mode_area (w ++ L "x" ++ h) = None.
Proof.
  intros Hw Hh Hlong. rewrite (mode_area_split w h Hw Hh).
  destruct Hlong as [H|H]; rewrite (py_int_too_long _ H);
    [reflexivity | destruct (py_int w); reflexivity].
Qed.

(** The first group of every match of the mode pattern is a resolution. *)
Lemma mode_match_resolution line g :
  match_ mode_re line = Some g ->
  exists m, group 1 g = Some m /\ is_resolution m.
Proof.
  intros H. apply match_in in H as (a & rest & H). unfold mode_re in H.
  apply in_run_seq in H as (a0 & s1 & g1 & a1 & Hs & H & _).
  apply in_run_plus in Hs as (_ & _ & _ & ->).
  apply in_run_seq in H as (m & s2 & g2 & a2 & H1 & H & _).
  apply in_run_grp in H1 as (g1' & H1 & ->).
  apply in_run_seq in H1 as (w & s3 & g3 & a3 & Hw & H1 & ->).
  apply in_run_plus in Hw as (_ & Dw & Nw & ->).
  apply in_run_seq in H1 as (lx & s4 & g4 & h & Hx & Hh & ->).
  apply in_run_lit in Hx as (-> & -> & _).
  apply in_run_plus in Hh as (_ & Dh & Nh & ->).
  apply in_run_seq in H as (a5 & s5 & g5 & a6 & Hs & H & _).
  apply in_run_plus in Hs as (_ & _ & _ & ->).
  apply in_run_grp in H as (g6 & H & ->).
  apply in_run_plus in H as (_ & _ & _ & ->).
  exists (w ++ L "x" ++ h). split; [reflexivity|].
  exists w, h. auto using number_of_plus.
Qed.

Lemma apply_mode_line_resolutions line g d :
  match_ mode_re line = Some g ->
  Forall is_resolution (Display.modes d) ->
  Forall is_resolution (Display.modes (apply_mode_line line g d)).
Proof.
  intros Hm Hd. destruct (mode_match_resolution line g Hm) as (m & E & Hr).
  unfold apply_mode_line. rewrite E.
  destruct (str_in m (Display.modes d)); destruct (contains "*" line);
    cbn; try assumption;
    (apply Forall_app; split; [assumption | constructor; [exact Hr|constructor]]).
Qed.

(** X3. Every mode of every monitor the parser returns is a resolution,
    digits x digits.  The key by which the refresh sorts the modes, the
    product of the two integers, is defined on it and not negative when
    both numbers have at most 4300 digits; when one of them is longer,
    [int] raises and the key is not defined. *)
Theorem parsed_modes_sort_key (output : str) (ds : list Display.t) :
  parse_xrandr_text output = Some ds ->
  forall d m, In d ds -> In m (Display.modes d) ->
    exists w h,
      m = w ++ L "x" ++ h
      /\ is_number w = true /\ is_number h = true
      /\ (Z.of_nat (length w) <= 4300 -> Z.of_nat (length h) <= 4300 ->
          exists nw nh,
            py_int w = Some nw /\ py_int h = Some nh
            /\ mode_area m = Some (nw * nh) /\ 0 <= nw * nh)
      /\ (4300 < Z.of_nat (length w) \/ 4300 < Z.of_nat (length h) ->
          mode_area m = None).
Proof.
  intros E d m Hd Hm.
  assert (H : Forall (fun d => Forall is_resolution (Display.modes d)) ds).
  { apply (parse_text_keeps _) with (output := output); [| |exact E].
    - intros g d0 H0. apply header_display_name in H0 as (_ & _ & -> & _).
      constructor.
    - intros line g d0 H0 H1. apply apply_mode_line_resolutions; assumption. }
  rewrite Forall_forall in H. specialize (H d Hd).
  rewrite Forall_forall in H. destruct (H m Hm) as (w & h & -> & Hw & Hh).
  exists w, h. split; [reflexivity|]. split; [exact Hw|]. split; [exact Hh|].
  split.
  - intros Lw Lh. exact (mode_area_resolution w h Hw Hh Lw Lh).
  - intros Hlong. exact (mode_area_too_long w h Hw Hh Hlong).
Qed.

Lemma parsed_modes_sort_key_witness :
  parse_xrandr_text
    (L "HDMI-1 connected 1920x1080+0+0"
       ++ nl :: L "   1920x1080     60.00*+"
       ++ nl :: L "   1280x720      59.94")
  = Some [Display.mk (L "HDMI-1") 1920 1080 0 0 false true
            [L "1920x1080"; L "1280x720"] (L "1920x1080") (L "60.00")]
  /\ exists w h,
      L "1280x720" = w ++ L "x" ++ h
      /\ is_number w = true /\ is_number h = true
      /\ (Z.of_nat (length w) <= 4300 -> Z.of_nat (length h) <= 4300 ->
          exists nw nh,
            py_int w = Some nw /\ py_int h = Some nh
            /\ mode_area (L "1280x720") = Some (nw * nh) /\ 0 <= nw * nh)
      /\ (4300 < Z.of_nat (length w) \/ 4300 < Z.of_nat (length h) ->
          mode_area (L "1280x720") = None).
Proof.
  assert (E : parse_xrandr_text
    (L "HDMI-1 connected 1920x1080+0+0"
       ++ nl :: L "   1920x1080     60.00*+"
       ++ nl :: L "   1280x720      59.94")
  = Some [Display.mk (L "HDMI-1") 1920 1080 0 0 false true
            [L "1920x1080"; L "1280x720"] (L "1920x1080") (L "60.00")])
    by (vm_compute; reflexivity).
  split; [exact E|].
  apply (parsed_modes_sort_key _ _ E
           (Display.mk (L "HDMI-1") 1920 1080 0 0 false true
              [L "1920x1080"; L "1280x720"] (L "1920x1080") (L "60.00"))
           (L "1280x720")).
  - left; reflexivity.
  - right; left; reflexivity.
Defined.

(** The geometry pattern on [WxH+X+Y] followed by no digit. *)
Lemma geometry_first (w h x y tail : str) g :
  is_number w = true -> is_number h = true ->
  is_number x = true -> is_number y = true ->
  stops is_digit tail ->
  first geometry_re (w ++ L "x" ++ h ++ L "+" ++ x ++ L "+" ++ y ++ tail) g
  = Some (w ++ L "x" ++ h ++ L "+" ++ x ++ L "+" ++ y, tail,
          [(7%nat, y); (6%nat, x); (5%nat, h); (4%nat, w)] ++ g).
Proof.
  intros Hw Hh Hx Hy Htail.
  apply is_number_spec in Hw as [Nw Dw]. apply is_number_spec in Hh as [Nh Dh].
  apply is_number_spec in Hx as [Nx Dx]. apply is_number_spec in Hy as [Ny Dy].
  unfold geometry_re.
  eapply first_seq.
  { apply first_grp. apply first_plus; [assumption..|reflexivity]. }
  eapply first_seq; [apply first_lit|].
  eapply first_seq.
  { apply first_grp. apply first_plus; [assumption..|reflexivity]. }
  eapply first_seq; [apply first_lit|].
  eapply first_seq.
  { apply first_grp. apply first_plus; [assumption..|reflexivity]. }
  eapply first_seq; [apply first_lit|].
  apply first_grp. apply first_plus; assumption.
Qed.

(** A connected header with its geometry, whatever the white space and
    with or without [primary]. *)
Lemma header_text_geometry (name ws1 ws2 ws3 : str) (primary : bool)
  (w h x y tail : str) :
  name <> [] -> forallb is_nonspace name = true ->
  ws1 <> [] -> forallb is_space ws1 = true ->
  forallb is_space ws2 = true -> forallb is_space ws3 = true ->
  is_number w = true -> is_number h = true ->
  is_number x = true -> is_number y = true ->
  stops is_digit tail ->
  match_ header_re
    (header_text name ws1 ws2 primary ws3
       (w ++ L "x" ++ h ++ L "+" ++ x ++ L "+" ++ y ++ tail))
  = Some ([(7%nat, y); (6%nat, x); (5%nat, h); (4%nat, w)]
            ++ (if primary then [(3%nat, L "primary")] else [])
            ++ [(2%nat, L "connected"); (1%nat, name)]).
Proof.
  intros Hne Hname Hne1 Hws1 Hws2 Hws3 Hw Hh Hx Hy Htail.
  pose proof (geometry_first w h x y tail
                ((if primary then [(3%nat, L "primary")] else [])
                   ++ [(2%nat, L "connected"); (1%nat, name)])
                Hw Hh Hx Hy Htail) as Hgeo.
  apply is_number_spec in Hw as [Nw Dw].
  destruct w as [|c w]; [contradiction|].
  simpl in Dw. apply andb_true_iff in Dw as [Dc Dw].
  cbn [app] in Hgeo |- *.
  eapply (header_prefix name ws1 ws2 ws3 primary c); try eassumption.
  apply first_opt_taken. exact Hgeo.
Qed.

(** X4. A header line [name connected [primary] WxH+X+Y ...], whatever
    the white space between its tokens, appends a monitor under that
    name whose width, height, x and y are the four numbers read as
    decimal integers, whose primary flag is set exactly when the keyword
    is there, with no mode yet and the rate 60.00, and makes it the
    current monitor, when each of the four numbers has at most 4300
    digits.  When one of them is longer, [int] raises [ValueError] and
    the exception leaves the parser. *)
Theorem header_geometry_is_read (st : parse_state) (primary : bool)
  (name ws1 ws2 ws3 w h x y tail : str) :
  name <> [] -> forallb is_nonspace name = true ->
  ws1 <> [] -> forallb is_space ws1 = true ->
  forallb is_space ws2 = true -> forallb is_space ws3 = true ->
  is_number w = true -> is_number h = true ->
  is_number x = true -> is_number y = true ->
  stops is_digit tail ->
  let line :=
    header_text name ws1 ws2 primary ws3
      (w ++ L "x" ++ h ++ L "+" ++ x ++ L "+" ++ y ++ tail) in
  (Z.of_nat (length w) <= 4300 -> Z.of_nat (length h) <= 4300 ->
   Z.of_nat (length x) <= 4300 -> Z.of_nat (length y) <= 4300 ->
   exists d,
     parse_line st line
     = Some {| displays := displays st ++ [d];
               current_display := Some (length (displays st)) |}
     /\ Display.name d = name
     /\ py_int w = Some (Display.width d)
     /\ py_int h = Some (Display.height d)
     /\ py_int x = Some (Display.x d)
     /\ py_int y = Some (Display.y d)
     /\ Display.is_primary d = primary
     /\ Display.is_connected d = true
     /\ Display.modes d = []
     /\ Display.current_rate d = L "60.00")
  /\ (4300 < Z.of_nat (length w) \/ 4300 < Z.of_nat (length h)
      \/ 4300 < Z.of_nat (length x) \/ 4300 < Z.of_nat (length y) ->
      parse_line st line = None).
Proof.
  intros Hne Hname Hne1 Hws1 Hws2 Hws3 Hw Hh Hx Hy Htail line.
  assert (Hm : match_ header_re line
               = Some ([(7%nat, y); (6%nat, x); (5%nat, h); (4%nat, w)]
                         ++ (if primary then [(3%nat, L "primary")] else [])
                         ++ [(2%nat, L "connected"); (1%nat, name)]))
    by (apply header_text_geometry; assumption).
  assert (Hd : group_is 2
                 ([(7%nat, y); (6%nat, x); (5%nat, h); (4%nat, w)]
                    ++ (if primary then [(3%nat, L "primary")] else [])
                    ++ [(2%nat, L "connected"); (1%nat, name)])
                 (L "connected") = true
               /\ header_display
                    ([(7%nat, y); (6%nat, x); (5%nat, h); (4%nat, w)]
                       ++ (if primary then [(3%nat, L "primary")] else [])
                       ++ [(2%nat, L "connected"); (1%nat, name)])
                  = match py_int w, py_int h, py_int x, py_int y with
                    | Some nw, Some nh, Some nx, Some ny =>
                        Some (Display.mk name nw nh nx ny primary true []
                                (py_str nw ++ L "x" ++ py_str nh) (L "60.00"))
                    | _, _, _, _ => None
                    end).
  { unfold header_display, int_group_or.
    destruct w as [|cw w]; [discriminate Hw|].
    destruct h as [|ch h]; [discriminate Hh|].
    destruct x as [|cx x]; [discriminate Hx|].
    destruct y as [|cy y]; [discriminate Hy|].
    destruct primary; split; reflexivity. }
  destruct Hd as [Hc Hd]. unfold parse_line. rewrite Hm, Hc, Hd.
  split.
  - intros Lw Lh Lx Ly.
    destruct (py_int_number w Hw Lw) as (nw & Ew & _).
    destruct (py_int_number h Hh Lh) as (nh & Eh & _).
    destruct (py_int_number x Hx Lx) as (nx & Ex & _).
    destruct (py_int_number y Hy Ly) as (ny & Ey & _).
    rewrite Ew, Eh, Ex, Ey. eexists. split; [reflexivity|]. cbn. auto 10.
  - intros [H|[H|[H|H]]]; rewrite (py_int_too_long _ H);
      repeat match goal with
             | |- context [match py_int ?s with _ => _ end] =>
                 destruct (py_int s)
             end; reflexivity.
Qed.

Lemma header_geometry_is_read_witness :
  L "eDP-1" <> [] /\ forallb is_nonspace (L "eDP-1") = true
  /\ L " " <> [] /\ forallb is_space (L " ") = true
  /\ forallb is_space ["009"%char] = true /\ forallb is_space (L "  ") = true
  /\ is_number (L "2560") = true /\ is_number (L "1440") = true
  /\ is_number (L "1920") = true /\ is_number (L "0") = true
  /\ stops is_digit (L " (normal left inverted right x axis y axis)")
  /\ exists d,
      parse_line {| displays := []; current_display := None |}
        (header_text (L "eDP-1") (L " ") ["009"%char] true (L "  ")
           (L "2560" ++ L "x" ++ L "1440" ++ L "+" ++ L "1920" ++ L "+"
              ++ L "0" ++ L " (normal left inverted right x axis y axis)"))
      = Some {| displays := [] ++ [d]; current_display := Some 0%nat |}
      /\ Display.name d = L "eDP-1"
      /\ py_int (L "2560") = Some (Display.width d)
      /\ py_int (L "1440") = Some (Display.height d)
      /\ py_int (L "1920") = Some (Display.x d)
      /\ py_int (L "0") = Some (Display.y d)
      /\ Display.is_primary d = true
      /\ Display.is_connected d = true
      /\ Display.modes d = []
      /\ Display.current_rate d = L "60.00".
Proof.
  assert (H1 : L "eDP-1" <> []) by discriminate.
  assert (H2 : L " " <> []) by discriminate.
  split; [exact H1|]. split; [reflexivity|].
  split; [exact H2|]. do 8 (split; [reflexivity|]).
  apply (proj1 (header_geometry_is_read
                  {| displays := []; current_display := None |} true
                  (L "eDP-1") (L " ") ["009"%char] (L "  ")
                  (L "2560") (L "1440") (L "1920") (L "0")
                  (L " (normal left inverted right x axis y axis)")
                  H1 eq_refl H2 eq_refl eq_refl eq_refl
                  eq_refl eq_refl eq_refl eq_refl eq_refl));
    vm_compute; discriminate.
Defined.

(** A width of 4301 digits: the header line makes the parser raise. *)
Lemma long_width_raises :
  is_number (repeat "1"%char 4301) = true
  /\ 4300 < Z.of_nat (length (repeat "1"%char 4301))
  /\ parse_line {| displays := []; current_display := None |}
       (header_text (L "eDP-1") (L " ") (L " ") false []
          (repeat "1"%char 4301 ++ L "x" ++ L "1080" ++ L "+" ++ L "0"
             ++ L "+" ++ L "0" ++ []))
     = None.
Proof.
  assert (H1 : L "eDP-1" <> []) by discriminate.
  assert (H2 : L " " <> []) by discriminate.
  assert (H3 : is_number (repeat "1"%char 4301) = true)
    by (vm_compute; reflexivity).
  assert (H4 : 4300 < Z.of_nat (length (repeat "1"%char 4301)))
    by (vm_compute; reflexivity).
  split; [exact H3|]. split; [exact H4|].
  unfold parse_line.
  rewrite (header_text_geometry (L "eDP-1") (L " ") (L " ") [] false
             (repeat "1"%char 4301) (L "1080") (L "0") (L "0") []
             H1 eq_refl H2 eq_refl eq_refl eq_refl H3 eq_refl eq_refl eq_refl I).
  cbn [app group_is group Nat.eqb].
  replace (str_eqb (L "connected") (L "connected")) with true
    by (vm_compute; reflexivity).
  unfold header_display, int_group_or. cbn [group Nat.eqb].
  remember (repeat "1"%char 4301) as big eqn:Hbig.
  destruct big as [|c big]; [discriminate H3|].
  rewrite (py_int_too_long _ H4). reflexivity.
Qed.

Lemma parse_lines_app l1 : forall l2 st,
  parse_lines st (l1 ++ l2)
  = match parse_lines st l1 with
    | Some st' => parse_lines st' l2
    | None => None
    end.
Proof.
  induction l1 as [|line l1 IH]; intros l2 st; cbn [app parse_lines];
    [reflexivity|].
  destruct (parse_line st line); [apply IH | reflexivity].
Qed.

Lemma parse_line_blank st : parse_line st [] = Some st.
Proof.
  unfold parse_line.
  replace (match_ header_re []) with (@None groups) by (vm_compute; reflexivity).
  destruct (current_display st); reflexivity.
Qed.

Lemma parse_lines_blank l1 l2 st :
  parse_lines st (l1 ++ [] :: l2) = parse_lines st (l1 ++ l2).
Proof.
  rewrite !parse_lines_app. destruct (parse_lines st l1) as [st'|];
    [|reflexivity].
  cbn [parse_lines]. rewrite parse_line_blank. reflexivity.
Qed.

(** X5. Empty lines change nothing: the parser gives the same result
    with or without a final newline, and with one newline or two between
    two parts of the text; on the empty text it gives the empty list. *)
Theorem blank_lines_are_ignored :
  (forall output,
      parse_xrandr_text (output ++ [nl]) = parse_xrandr_text output)
  /\ (forall a b,
        parse_xrandr_text (a ++ nl :: nl :: b)
        = parse_xrandr_text (a ++ nl :: b))
  /\ parse_xrandr_text [] = Some [].
Proof.
  split; [|split].
  - intros output. unfold parse_xrandr_text, nl.
    rewrite split_app_sep. cbn [split].
    rewrite <- (app_nil_r (split "010" output)) at 2.
    rewrite parse_lines_blank. reflexivity.
  - intros a b. unfold parse_xrandr_text, nl.
    rewrite !split_app_sep. cbn [split]. rewrite Ascii.eqb_refl.
    rewrite parse_lines_blank. reflexivity.
  - reflexivity.
Qed.

End ParserExtras2.

(** ** Mirror groups: further properties *)

Module MirrorExtras.
Import PyDictFacts MirrorFacts MirrorClaims.

Lemma names_at_cons p d ds :
  names_at p (d :: ds)
  = (if pos_eqb (position_of d) p then [Display.name d] else [])
      ++ names_at p ds.
Proof.
  unfold names_at. cbn [filter].
  destruct (pos_eqb (position_of d) p); reflexivity.
Qed.

Lemma names_at_le_one ds :
  NoDup (map position_of ds) ->
  forall p, (length (names_at p ds) <= 1)%nat.
Proof.
  induction ds as [|d ds IH]; intros Hnd p; [simpl; lia|].
  cbn [map] in Hnd. inversion Hnd as [|? ? Hd Hnd']; subst.
  rewrite names_at_cons.
  destruct (pos_eqb (position_of d) p) eqn:E; cbn [app length];
    [|apply IH, Hnd'].
  apply pos_eqb_eq in E. subst p.
  rewrite names_at_absent; [simpl; lia|].
  intros d' Hd' Heq. apply Hd. rewrite <- Heq. apply in_map, Hd'.
Qed.

Lemma le_one_positions_distinct ds :
  (forall p, (length (names_at p ds) <= 1)%nat) ->
  NoDup (map position_of ds).
Proof.
  induction ds as [|d ds IH]; intros H; cbn [map]; constructor.
  - intros Hin. apply in_map_iff in Hin as (d' & E & Hd').
    specialize (H (position_of d)). rewrite names_at_cons in H.
    rewrite (proj2 (pos_eqb_eq _ _) eq_refl) in H. cbn [app length] in H.
    assert (Hn : In (Display.name d') (names_at (position_of d) ds))
      by (apply in_names_at; eauto).
    destruct (names_at (position_of d) ds); [destruct Hn | simpl in H; lia].
  - apply IH. intros p. specialize (H p). rewrite names_at_cons in H.
    rewrite length_app in H. lia.
Qed.

Lemma flat_map_nil {A B : Type} (f : A -> list B) (l : list A) :
  flat_map f l = [] <-> forall a, In a l -> f a = [].
Proof.
  induction l as [|a l IH]; cbn [flat_map]; [split; [intros _ ? [] | reflexivity]|].
  split.
  - intros H. apply app_eq_nil in H as [H1 H2].
    intros b [<-|Hb]; [exact H1 | apply IH; assumption].
  - intros H. rewrite (H a (or_introl eq_refl)).
    apply IH. intros b Hb. apply H. right; exact Hb.
Qed.

Lemma mirrored_nil_iff (ds : list Display.t) :
  _find_mirrored_displays ds = [] <-> NoDup (map position_of ds).
Proof.
  destruct (position_groups_inv ds) as [Hk Hg Hc Hi].
  unfold _find_mirrored_displays. rewrite flat_map_nil. split.
  - intros H. apply le_one_positions_distinct. intros p.
    destruct (names_at p ds) as [|n l] eqn:E; [simpl; lia|].
    assert (Hn : In n (names_at p ds)) by (rewrite E; left; reflexivity).
    apply in_names_at in Hn as (d & Hd & Hp & _).
    pose proof (Hc d Hd) as Hkey. rewrite Hp in Hkey.
    apply in_map_iff in Hkey as ([p' g] & Ep & Hin). simpl in Ep. subst p'.
    assert (Hgs : In g (_find_mirrored_display_groups ds))
      by (apply groups_are_values; eauto).
    specialize (H g Hgs). rewrite (Hg _ _ Hin), E in H.
    rewrite <- E, <- (Hg _ _ Hin).
    destruct (flagged_mirrored g) eqn:F.
    + rewrite (Hg _ _ Hin), E in F. rewrite F in H. discriminate H.
    + unfold flagged_mirrored in F. apply Nat.ltb_ge in F. exact F.
  - intros Hnd g Hgs. apply groups_are_values in Hgs as (p & Hin).
    pose proof (names_at_le_one ds Hnd p) as Hle.
    rewrite <- (Hg _ _ Hin) in Hle.
    unfold flagged_mirrored.
    destruct (Nat.ltb_spec 1 (length g)); [lia | reflexivity].
Qed.








Lemma concat_set_append (k : Z * Z) (l : list str) (n : str)
  (d : list ((Z * Z) * list str)) :
  PyDict.get pos_eqb k d = Some l ->
  Permutation (concat (map snd (PyDict.set pos_eqb k (l ++ [n]) d)))
              (concat (map snd d) ++ [n]).
Proof.
  induction d as [|[k0 v0] d IH]; cbn [PyDict.get PyDict.set];
    [discriminate|].
  destruct (pos_eqb k k0).
  - intros H; inversion H; subst. cbn [map snd concat].
    rewrite <- !app_assoc. apply Permutation_app_head.
    apply Permutation_app_comm.
  - intros H. cbn [map snd concat]. rewrite <- app_assoc.
    apply Permutation_app_head. apply IH, H.
Qed.

Lemma group_step_concat pg d :
  Permutation (concat (map snd (group_step pg d)))
              (concat (map snd pg) ++ [Display.name d]).
Proof.
  destruct (PyDict.get pos_eqb (position_of d) pg) as [l|] eqn:E.
  - rewrite (group_step_old pg d l E). apply concat_set_append, E.
  - rewrite (group_step_new pg d E). rewrite map_app, concat_app.
    cbn [map snd concat]. rewrite app_nil_r. apply Permutation_refl.
Qed.

Lemma fold_group_step_concat ds : forall pg,
  Permutation (concat (map snd (fold_left group_step ds pg)))
              (concat (map snd pg) ++ map Display.name ds).
Proof.
  induction ds as [|d ds IH]; intros pg; cbn [fold_left map].
  - rewrite app_nil_r. apply Permutation_refl.
  - eapply Permutation_trans; [apply IH|].
    eapply Permutation_trans;
      [apply Permutation_app_tail, group_step_concat|].
    rewrite <- app_assoc. apply Permutation_refl.
Qed.

(** X8. Grouping loses no monitor and repeats none: the groups put end
    to end are a rearrangement of the list of names, whatever the names
    and positions; no group is empty, and the members of a group are in
    the order of the monitor list. *)
Theorem groups_rearrange_names (ds : list Display.t) :
  Permutation (concat (_find_mirrored_display_groups ds))
              (map Display.name ds)
  /\ (forall g, In g (_find_mirrored_display_groups ds) ->
        g <> []
        /\ exists p, g = map Display.name
                           (filter (fun d => pos_eqb (position_of d) p) ds)).
Proof.
  split.
  - unfold _find_mirrored_display_groups, PyDict.values, position_groups_of.
    apply (fold_group_step_concat ds []).
  - intros g Hgs. destruct (position_groups_inv ds) as [Hk Hg Hc Hi].
    apply groups_are_values in Hgs as (p & Hin).
    split; [|exists p; apply (Hg _ _ Hin)].
    destruct (Hi p) as (d & Hd & Hp);
      [apply (in_map fst) in Hin; exact Hin|].
    rewrite (Hg _ _ Hin). intros E.
    assert (Hn : In (Display.name d) (names_at p ds))
      by (apply in_names_at; eauto).
    rewrite E in Hn. destruct Hn.
Qed.

End MirrorExtras.

(** ** Unlinking mirrored displays *)

Module UnlinkExtras.
Import MirrorExtras ApplyFacts.

Lemma unlink_commands_tail (F : nat * Display.t -> list str * str)
  (ds : list Display.t) : forall (prefix : list Display.t) (p : Display.t),
  (forall i d, F (i, d)
               = (if Nat.eqb i 0
                  then [L "xrandr"; L "--output"; Display.name d;
                        L "--pos"; L "0x0"]
                  else [L "xrandr"; L "--output"; Display.name d;
                        L "--right-of";
                        Display.name (nth (i - 1) (prefix ++ p :: ds) d)],
                  Display.name d)) ->
  map F (combine (seq (S (length prefix)) (length ds)) ds)
  = map (fun pd : Display.t * Display.t =>
           (right_of_cmd (fst pd) (snd pd), Display.name (snd pd)))
        (combine (p :: ds) ds).
Proof.
  induction ds as [|d ds IH]; intros prefix p HF; [reflexivity|].
  cbn [length seq combine map fst snd]. f_equal.
  - rewrite HF. cbn [Nat.eqb Nat.sub]. rewrite Nat.sub_0_r.
    rewrite nth_middle. reflexivity.
  - specialize (IH (prefix ++ [p]) d).
    rewrite length_app, Nat.add_1_r in IH. apply IH.
    intros i d'. rewrite HF. rewrite <- app_assoc. reflexivity.
Qed.

Lemma unlink_commands_chain (d : Display.t) (ds : list Display.t) :
  unlink_commands (d :: ds)
  = ([L "xrandr"; L "--output"; Display.name d; L "--pos"; L "0x0"],
     Display.name d)
    :: map (fun pd : Display.t * Display.t =>
              (right_of_cmd (fst pd) (snd pd), Display.name (snd pd)))
         (combine (d :: ds) ds).
Proof.
  unfold unlink_commands. cbn [length seq combine map Nat.eqb]. f_equal.
  apply (unlink_commands_tail _ ds [] d). intros i d'. reflexivity.
Qed.

Lemma unlink_entry_runs env tr entry :
  runs (unlink_entry env tr entry) = runs tr ++ [fst entry].
Proof.
  destruct entry as [cmd name]. unfold unlink_entry. cbn [fst].
  destruct (env tr cmd) as [rc out err|e];
    [destruct (rc =? 0)|]; rewrite ?runs_app; cbn [runs flat_map app];
    rewrite ?app_nil_r; reflexivity.
Qed.

Lemma fold_unlink_runs env cmds : forall tr,
  runs (fold_left (unlink_entry env) cmds tr) = runs tr ++ map fst cmds.
Proof.
  induction cmds as [|c cmds IH]; intros tr; cbn [fold_left map].
  - rewrite app_nil_r. reflexivity.
  - rewrite IH, unlink_entry_runs, <- app_assoc. reflexivity.
Qed.

Lemma unlink_entry_extends env tr entry :
  exists more, unlink_entry env tr entry = tr ++ more.
Proof.
  destruct entry as [cmd name]. unfold unlink_entry.
  destruct (env tr cmd) as [rc out err|e]; [destruct (rc =? 0)|];
    rewrite <- ?app_assoc; eexists; reflexivity.
Qed.

Lemma fold_unlink_extends env cmds : forall tr,
  exists more, fold_left (unlink_entry env) cmds tr = tr ++ more.
Proof.
  induction cmds as [|c cmds IH]; intros tr; cbn [fold_left].
  - exists []. rewrite app_nil_r. reflexivity.
  - destruct (unlink_entry_extends env tr c) as [m1 ->].
    destruct (IH (tr ++ m1)) as [m2 ->]. exists (m1 ++ m2).
    rewrite app_assoc. reflexivity.
Qed.

(** X9. Unlink runs nothing when the positions of the monitors are
    pairwise distinct, and only says so.  Otherwise it runs one command
    per monitor, in list order and whatever the outcomes of the others:
    the first monitor is put at 0x0 and each next one right of the one
    before it in the list; it then disables its button and schedules a
    refresh, and leaves monitors, widgets, selection and pending map as
    they were. *)
Theorem unlink_chains_left_to_right (env : environment) (s : GUI.t) :
  (NoDup (map position_of (GUI.displays s)) ->
   on_unlink_mirror_clicked env s
   = GUI.show_status (L "No mirrored displays found") s)
  /\ (~ NoDup (map position_of (GUI.displays s)) ->
      let s' := on_unlink_mirror_clicked env s in
      runs (GUI.trace s')
      = runs (GUI.trace s) ++ map fst (unlink_commands (GUI.displays s))
      /\ (exists reports,
            GUI.trace s'
            = GUI.trace s ++ reports
                ++ [ShowStatus (L "Unlinked mirrored displays");
                    TimeoutAdd 500])
      /\ GUI.unlink_mirror_btn s' = false
      /\ GUI.displays s' = GUI.displays s
      /\ GUI.display_widgets s' = GUI.display_widgets s
      /\ GUI.source_display s' = GUI.source_display s
      /\ GUI.target_display s' = GUI.target_display s
      /\ GUI.pending_layout_changes s' = GUI.pending_layout_changes s)
  /\ (forall d ds,
        map fst (unlink_commands (d :: ds))
        = [L "xrandr"; L "--output"; Display.name d; L "--pos"; L "0x0"]
          :: map (fun pd : Display.t * Display.t =>
                    right_of_cmd (fst pd) (snd pd))
               (combine (d :: ds) ds)).
Proof.
  split; [|split].
  - intros H. apply mirrored_nil_iff in H.
    unfold on_unlink_mirror_clicked. rewrite H. reflexivity.
  - intros H. unfold on_unlink_mirror_clicked.
    destruct (_find_mirrored_displays (GUI.displays s)) as [|n l] eqn:E.
    + destruct H. apply mirrored_nil_iff, E.
    + cbv zeta. cbn [GUI.trace GUI.unlink_mirror_btn GUI.displays
                       GUI.display_widgets GUI.source_display
                       GUI.target_display GUI.pending_layout_changes].
      split; [|split; [|repeat split]].
      * rewrite runs_app, fold_unlink_runs. cbn [runs flat_map app].
        rewrite app_nil_r. reflexivity.
      * destruct (fold_unlink_extends env (unlink_commands (GUI.displays s))
                    (GUI.trace s)) as [more ->].
        exists more. rewrite <- app_assoc. reflexivity.
  - intros d ds. rewrite unlink_commands_chain. cbn [map fst].
    rewrite map_map. reflexivity.
Qed.

Lemma unlink_chains_left_to_right_witness :
  ~ NoDup (map position_of
             (GUI.displays
                (GUI.mk [default_display (L "eDP-1");
                         default_display (L "HDMI-1")]
                   [] None None [] false true [])))
  /\ runs (GUI.trace
             (on_unlink_mirror_clicked (fun _ _ => Completed 1 [] [])
                (GUI.mk [default_display (L "eDP-1");
                         default_display (L "HDMI-1")]
                   [] None None [] false true [])))
     = [[L "xrandr"; L "--output"; L "eDP-1"; L "--pos"; L "0x0"];
        [L "xrandr"; L "--output"; L "HDMI-1"; L "--right-of"; L "eDP-1"]].
Proof.
  assert (H : ~ NoDup (map position_of
             (GUI.displays
                (GUI.mk [default_display (L "eDP-1");
                         default_display (L "HDMI-1")]
                   [] None None [] false true [])))).
  { intros Hnd. inversion Hnd as [|? ? Hn _]; subst.
    apply Hn. left; reflexivity. }
  split; [exact H|].
  exact (proj1 (proj1 (proj2 (unlink_chains_left_to_right
                                (fun _ _ => Completed 1 [] [])
                                (GUI.mk [default_display (L "eDP-1");
                                         default_display (L "HDMI-1")]
                                   [] None None [] false true []))) H)).
Defined.

End UnlinkExtras.

(** ** Selection and actions: the window *)

Module WindowExtras.
Import ApplyFacts.

Ltac window_simpl :=
  cbn [Window.gui Window.source_label Window.target_label Window.mirror_btn
       Window.extend_right_btn Window.extend_left_btn Window.mode_combo
       Window.rate_combo Window.dialogs Window.set_gui Window.set_source_label
       Window.set_target_label Window.update_action_buttons Window.show_error
       GUI.source_display GUI.target_display GUI.trace GUI.display_widgets
       GUI.displays GUI.pending_layout_changes GUI.apply_layout_btn
       GUI.unlink_mirror_btn GUI.show_status GUI.emit GUI.update_widget
       GUI.set_display_widgets GUI.set_source_display GUI.set_target_display
       is_none name_is negb andb label_for] in *.

Lemma click_selects_source (s : GUI.t) (k : str) (d : Display.t) :
  GUI.source_display s = None ->
  GUI.source_display (on_display_clicked s k d) = Some d
  /\ GUI.target_display (on_display_clicked s k d) = GUI.target_display s
  /\ runs (GUI.trace (on_display_clicked s k d)) = runs (GUI.trace s).
Proof.
  intros H. unfold on_display_clicked. rewrite H. window_simpl.
  rewrite runs_app. cbn [runs flat_map]. rewrite app_nil_r. auto.
Qed.

Lemma click_selects_target (s : GUI.t) (k : str) (a d : Display.t) :
  GUI.source_display s = Some a -> GUI.target_display s = None ->
  Display.name d <> Display.name a ->
  GUI.source_display (on_display_clicked s k d) = Some a
  /\ GUI.target_display (on_display_clicked s k d) = Some d
  /\ runs (GUI.trace (on_display_clicked s k d)) = runs (GUI.trace s).
Proof.
  intros Hs Ht Hne. unfold on_display_clicked. rewrite Hs, Ht. window_simpl.
  rewrite (proj2 (str_eqb_neq _ _) Hne). window_simpl.
  rewrite runs_app. cbn [runs flat_map]. rewrite app_nil_r. auto.
Qed.

Lemma clear_runs (w : Window.t) :
  runs (GUI.trace (Window.gui (Window.on_clear_clicked w)))
  = runs (GUI.trace (Window.gui w))
  /\ GUI.source_display (Window.gui (Window.on_clear_clicked w)) = None
  /\ GUI.target_display (Window.gui (Window.on_clear_clicked w)) = None
  /\ Window.mode_combo (Window.on_clear_clicked w) = Window.mode_combo w
  /\ Window.rate_combo (Window.on_clear_clicked w) = Window.rate_combo w.
Proof.
  unfold Window.on_clear_clicked. window_simpl.
  rewrite runs_app. cbn [runs flat_map]. rewrite app_nil_r. auto.
Qed.

Lemma wclick_source (w : Window.t) (k : str) (d : Display.t) :
  GUI.source_display (Window.gui w) = None ->
  Window.on_display_clicked w k d
  = Window.set_gui (on_display_clicked (Window.gui w) k d)
      (Window.set_source_label (Window.label_of d) w).
Proof.
  intros H. unfold Window.on_display_clicked. rewrite H. reflexivity.
Qed.

Lemma wclick_target (w : Window.t) (k : str) (a d : Display.t) :
  GUI.source_display (Window.gui w) = Some a ->
  GUI.target_display (Window.gui w) = None ->
  Display.name d <> Display.name a ->
  Window.on_display_clicked w k d
  = Window.update_action_buttons
      (Window.set_gui (on_display_clicked (Window.gui w) k d)
         (Window.set_target_label (Window.label_of d) w)).
Proof.
  intros Hs Ht Hne. unfold Window.on_display_clicked. rewrite Hs, Ht.
  cbn [is_none name_is andb]. rewrite (proj2 (str_eqb_neq _ _) Hne).
  reflexivity.
Qed.

(** X10. From a cleared selection, a click on one monitor and a click
    on a monitor of another name select the first as source and the
    second as target, show both in the labels and enable the three
    action buttons. *)
Theorem two_clicks_select_source_then_target (w : Window.t)
  (k1 k2 : str) (d1 d2 : Display.t) :
  Display.name d1 <> Display.name d2 ->
  let w' :=
    Window.on_display_clicked
      (Window.on_display_clicked (Window.on_clear_clicked w) k1 d1) k2 d2 in
  GUI.source_display (Window.gui w') = Some d1
  /\ GUI.target_display (Window.gui w') = Some d2
  /\ Window.source_label w' = Window.label_of d1
  /\ Window.target_label w' = Window.label_of d2
  /\ Window.mirror_btn w' = true
  /\ Window.extend_right_btn w' = true
  /\ Window.extend_left_btn w' = true.
Proof.
  intros Hne w'. subst w'.
  destruct (clear_runs w) as (_ & Hs0 & Ht0 & _).
  rewrite (wclick_source _ k1 d1 Hs0).
  destruct (click_selects_source _ k1 d1 Hs0) as (Hs1 & Ht1 & _).
  rewrite Ht0 in Ht1.
  assert (Hne' : Display.name d2 <> Display.name d1) by congruence.
  pose (w1 := Window.set_gui
                (on_display_clicked
                   (Window.gui (Window.on_clear_clicked w)) k1 d1)
                (Window.set_source_label (Window.label_of d1)
                   (Window.on_clear_clicked w))).
  fold w1.
  assert (Hs1' : GUI.source_display (Window.gui w1) = Some d1) by exact Hs1.
  assert (Ht1' : GUI.target_display (Window.gui w1) = None) by exact Ht1.
  rewrite (wclick_target w1 k2 d1 d2 Hs1' Ht1' Hne').
  destruct (click_selects_target (Window.gui w1) k2 d1 d2 Hs1' Ht1' Hne')
    as (Hs2 & Ht2 & _).
  cbn [Window.gui Window.set_gui Window.set_source_label
       Window.set_target_label Window.update_action_buttons
       Window.source_label Window.target_label Window.mirror_btn
       Window.extend_right_btn Window.extend_left_btn] in *.
  rewrite Hs2, Ht2. repeat split; reflexivity.
Qed.

Lemma two_clicks_select_source_then_target_witness :
  Display.name (default_display (L "HDMI-1"))
  <> Display.name (default_display (L "DP-1"))
  /\ GUI.target_display
       (Window.gui
          (Window.on_display_clicked
             (Window.on_display_clicked
                (Window.on_clear_clicked Window.init)
                (L "HDMI-1") (default_display (L "HDMI-1")))
             (L "DP-1") (default_display (L "DP-1"))))
     = Some (default_display (L "DP-1")).
Proof.
  assert (H : Display.name (default_display (L "HDMI-1"))
              <> Display.name (default_display (L "DP-1")))
    by discriminate.
  split; [exact H|].
  exact (proj1 (proj2 (two_clicks_select_source_then_target Window.init
                         (L "HDMI-1") (L "DP-1")
                         (default_display (L "HDMI-1"))
                         (default_display (L "DP-1")) H))).
Defined.

(** X11. With a source and a target of different names selected, a
    click on the source clears the source and its label only, a click on
    the target clears the target and its label only, either one
    disabling the three action buttons, and a click on any other monitor
    changes nothing at all. *)
Theorem click_with_both_selected (w : Window.t) (k : str)
  (a b d : Display.t) :
  GUI.source_display (Window.gui w) = Some a ->
  GUI.target_display (Window.gui w) = Some b ->
  Display.name a <> Display.name b ->
  let w' := Window.on_display_clicked w k d in
  (Display.name d = Display.name a ->
   GUI.source_display (Window.gui w') = None
   /\ GUI.target_display (Window.gui w') = Some b
   /\ Window.source_label w' = L "(none selected)"
   /\ Window.target_label w' = Window.target_label w
   /\ Window.mirror_btn w' = false
   /\ Window.extend_right_btn w' = false
   /\ Window.extend_left_btn w' = false)
  /\ (Display.name d = Display.name b ->
      GUI.source_display (Window.gui w') = Some a
      /\ GUI.target_display (Window.gui w') = None
      /\ Window.source_label w' = Window.source_label w
      /\ Window.target_label w' = L "(none selected)"
      /\ Window.mirror_btn w' = false
      /\ Window.extend_right_btn w' = false
      /\ Window.extend_left_btn w' = false)
  /\ (Display.name d <> Display.name a ->
      Display.name d <> Display.name b -> w' = w).
Proof.
  intros Hs Ht Hab w'. subst w'.
  unfold Window.on_display_clicked, on_display_clicked.
  rewrite Hs, Ht. window_simpl.
  split; [|split].
  - intros E. rewrite (proj2 (str_eqb_eq _ _) E). window_simpl.
    rewrite Ht. auto 10.
  - intros E.
    assert (Hda : Display.name d <> Display.name a) by congruence.
    rewrite (proj2 (str_eqb_neq _ _) Hda), (proj2 (str_eqb_eq _ _) E).
    window_simpl. rewrite Hs. auto 10.
  - intros Hda Hdb.
    rewrite (proj2 (str_eqb_neq _ _) Hda), (proj2 (str_eqb_neq _ _) Hdb).
    reflexivity.
Qed.

Lemma click_with_both_selected_witness :
  GUI.source_display
    (GUI.set_target_display (Some (default_display (L "DP-1")))
       (GUI.set_source_display (Some (default_display (L "HDMI-1")))
          two_monitors))
  = Some (default_display (L "HDMI-1"))
  /\ Display.name (default_display (L "HDMI-1"))
     <> Display.name (default_display (L "DP-1"))
  /\ Display.name (default_display (L "eDP-1"))
     <> Display.name (default_display (L "HDMI-1"))
  /\ Display.name (default_display (L "eDP-1"))
     <> Display.name (default_display (L "DP-1"))
  /\ Window.on_display_clicked
       (Window.set_gui
          (GUI.set_target_display (Some (default_display (L "DP-1")))
             (GUI.set_source_display (Some (default_display (L "HDMI-1")))
                two_monitors)) Window.init)
       (L "eDP-1") (default_display (L "eDP-1"))
     = Window.set_gui
         (GUI.set_target_display (Some (default_display (L "DP-1")))
            (GUI.set_source_display (Some (default_display (L "HDMI-1")))
               two_monitors)) Window.init
  /\ GUI.source_display
       (Window.gui
          (Window.on_display_clicked
             (Window.set_gui
                (GUI.set_target_display (Some (default_display (L "DP-1")))
                   (GUI.set_source_display
                      (Some (default_display (L "HDMI-1"))) two_monitors))
                Window.init)
             (L "HDMI-1") (default_display (L "HDMI-1"))))
     = None.
Proof.
  assert (H1 : Display.name (default_display (L "HDMI-1"))
               <> Display.name (default_display (L "DP-1")))
    by discriminate.
  assert (H2 : Display.name (default_display (L "eDP-1"))
               <> Display.name (default_display (L "HDMI-1")))
    by discriminate.
  assert (H3 : Display.name (default_display (L "eDP-1"))
               <> Display.name (default_display (L "DP-1")))
    by discriminate.
  split; [reflexivity|]. split; [exact H1|]. split; [exact H2|].
  split; [exact H3|]. split.
  - exact (proj2 (proj2
             (click_with_both_selected
                (Window.set_gui
                   (GUI.set_target_display (Some (default_display (L "DP-1")))
                      (GUI.set_source_display
                         (Some (default_display (L "HDMI-1"))) two_monitors))
                   Window.init)
                (L "eDP-1") (default_display (L "HDMI-1"))
                (default_display (L "DP-1")) (default_display (L "eDP-1"))
                eq_refl eq_refl H1)) H2 H3).
  - exact (proj1 (proj1
             (click_with_both_selected
                (Window.set_gui
                   (GUI.set_target_display (Some (default_display (L "DP-1")))
                      (GUI.set_source_display
                         (Some (default_display (L "HDMI-1"))) two_monitors))
                   Window.init)
                (L "HDMI-1") (default_display (L "HDMI-1"))
                (default_display (L "DP-1")) (default_display (L "HDMI-1"))
                eq_refl eq_refl H1) eq_refl)).
Defined.

End WindowExtras.

Module WindowInvariant.
Import ApplyFacts WindowExtras.

Lemma run_keeps_selection (env : environment) (w : Window.t)
  (cmd : list str) (description : str) :
  let w' := Window.run_xrandr_command env w cmd description in
  GUI.source_display (Window.gui w') = GUI.source_display (Window.gui w)
  /\ GUI.target_display (Window.gui w') = GUI.target_display (Window.gui w)
  /\ Window.source_label w' = Window.source_label w
  /\ Window.target_label w' = Window.target_label w
  /\ Window.mirror_btn w' = Window.mirror_btn w
  /\ Window.extend_right_btn w' = Window.extend_right_btn w
  /\ Window.extend_left_btn w' = Window.extend_left_btn w
  /\ GUI.display_widgets (Window.gui w') = GUI.display_widgets (Window.gui w)
  /\ GUI.pending_layout_changes (Window.gui w')
     = GUI.pending_layout_changes (Window.gui w)
  /\ GUI.displays (Window.gui w') = GUI.displays (Window.gui w).
Proof.
  unfold Window.run_xrandr_command. cbv zeta.
  destruct (env _ cmd) as [rc out err|e]; [destruct (rc =? 0)|];
    window_simpl; repeat split; reflexivity.
Qed.

Lemma sync_transfer (w w' : Window.t) :
  GUI.source_display (Window.gui w') = GUI.source_display (Window.gui w) ->
  GUI.target_display (Window.gui w') = GUI.target_display (Window.gui w) ->
  Window.source_label w' = Window.source_label w ->
  Window.target_label w' = Window.target_label w ->
  Window.mirror_btn w' = Window.mirror_btn w ->
  Window.extend_right_btn w' = Window.extend_right_btn w ->
  Window.extend_left_btn w' = Window.extend_left_btn w ->
  window_in_sync w -> window_in_sync w'.
Proof.
  unfold window_in_sync. intros -> -> -> -> -> -> ->. auto.
Qed.

Lemma sync_action (w : Window.t)
  (handler : Window.t -> Window.t) :
  (forall s t,
      GUI.source_display (Window.gui w) = Some s ->
      GUI.target_display (Window.gui w) = Some t ->
      exists env cmd description,
        handler w = Window.run_xrandr_command env w cmd description) ->
  (GUI.source_display (Window.gui w) = None
   \/ GUI.target_display (Window.gui w) = None -> handler w = w) ->
  window_in_sync w -> window_in_sync (handler w).
Proof.
  intros Hrun Hidle Hsync.
  destruct (GUI.source_display (Window.gui w)) as [s|] eqn:Hs;
    [|rewrite Hidle; auto].
  destruct (GUI.target_display (Window.gui w)) as [t|] eqn:Ht;
    [|rewrite Hidle; auto].
  destruct (Hrun s t eq_refl eq_refl) as (env & cmd & desc & ->).
  destruct (run_keeps_selection env w cmd desc)
    as (H1 & H2 & H3 & H4 & H5 & H6 & H7 & _).
  apply (sync_transfer w); assumption.
Qed.

(** X12. The labels and the action buttons follow the selection: from
    the window as it is set up, after any clicks on monitors, clears and
    action buttons, each label shows the selected monitor or "(none
    selected)", the three action buttons are enabled or disabled
    together, and they are enabled only while a source and a target are
    selected. *)
Theorem window_stays_in_sync :
  window_in_sync Window.init
  /\ forall w,
       window_in_sync w ->
       (forall k d, window_in_sync (Window.on_display_clicked w k d))
       /\ window_in_sync (Window.on_clear_clicked w)
       /\ (forall env,
             window_in_sync (Window.on_mirror_clicked env w)
             /\ window_in_sync (Window.on_extend_right_clicked env w)
             /\ window_in_sync (Window.on_extend_left_clicked env w)).
Proof.
  split.
  - unfold window_in_sync. cbn. repeat split; discriminate.
  - intros w Hsync. split; [|split].
    + intros k d. revert Hsync.
      unfold window_in_sync, Window.on_display_clicked, on_display_clicked.
      destruct (GUI.source_display (Window.gui w)) as [a|] eqn:Hs;
        destruct (GUI.target_display (Window.gui w)) as [b|] eqn:Ht;
        window_simpl;
        repeat match goal with
               | |- context [str_eqb ?x ?y] => destruct (str_eqb x y)
               end;
        window_simpl; rewrite ?Hs, ?Ht; window_simpl;
        intros (H1 & H2 & H3 & H4 & H5);
        repeat split; try assumption; try reflexivity; try discriminate;
        try (intros Hb; destruct (H5 Hb) as [? ?]; congruence);
        try match goal with
            | Hb : Window.mirror_btn w = true |- _ =>
                destruct (H5 Hb) as [X Y]; try assumption;
                exfalso; first [apply X; reflexivity | apply Y; reflexivity]
            end.
    + revert Hsync. unfold window_in_sync, Window.on_clear_clicked.
      window_simpl. intros _. repeat split; discriminate.
    + intros env. split; [|split]; apply sync_action; try assumption.
      * intros s t Hs Ht. unfold Window.on_mirror_clicked.
        rewrite Hs, Ht. eexists _, _, _. reflexivity.
      * intros [H|H]; unfold Window.on_mirror_clicked; rewrite H;
          [reflexivity | destruct (GUI.source_display _); reflexivity].
      * intros s t Hs Ht. unfold Window.on_extend_right_clicked.
        rewrite Hs, Ht. eexists _, _, _. reflexivity.
      * intros [H|H]; unfold Window.on_extend_right_clicked; rewrite H;
          [reflexivity | destruct (GUI.source_display _); reflexivity].
      * intros s t Hs Ht. unfold Window.on_extend_left_clicked.
        rewrite Hs, Ht. eexists _, _, _. reflexivity.
      * intros [H|H]; unfold Window.on_extend_left_clicked; rewrite H;
          [reflexivity | destruct (GUI.source_display _); reflexivity].
Qed.

Lemma window_stays_in_sync_witness :
  window_in_sync Window.init
  /\ window_in_sync
       (Window.on_display_clicked Window.init (L "HDMI-1")
          (default_display (L "HDMI-1"))).
Proof.
  split; [exact (proj1 window_stays_in_sync)|].
  exact (proj1 (proj2 window_stays_in_sync Window.init
                  (proj1 window_stays_in_sync))
           (L "HDMI-1") (default_display (L "HDMI-1"))).
Defined.

End WindowInvariant.

Module ActionExtras.
Import ApplyFacts WindowExtras WindowInvariant.

Lemma run_added (env : environment) (w : Window.t) (cmd : list str)
  (description : str) :
  let w' := Window.run_xrandr_command env w cmd description in
  let tr0 := GUI.trace (Window.gui w) ++ [ShowStatus (description ++ L "...")] in
  exists added,
    GUI.trace (Window.gui w')
    = GUI.trace (Window.gui w) ++ ShowStatus (description ++ L "...")
        :: Run cmd :: added
    /\ runs added = []
    /\ (In (TimeoutAdd 1000) added
        <-> exists out err, env tr0 cmd = Completed 0 out err)
    /\ ((exists out err, env tr0 cmd = Completed 0 out err)
        -> Window.dialogs w' = Window.dialogs w)
    /\ (forall rc out err,
          env tr0 cmd = Completed rc out err -> rc <> 0 ->
          Window.dialogs w'
          = Window.dialogs w ++ [L "xrandr failed: " ++ error_text err])
    /\ (forall e,
          env tr0 cmd = Raised e ->
          Window.dialogs w' = Window.dialogs w ++ [L "Error: " ++ e]).
Proof.
  unfold Window.run_xrandr_command. cbv zeta. window_simpl.
  destruct (env (GUI.trace (Window.gui w)
                   ++ [ShowStatus (description ++ L "...")]) cmd)
    as [rc out err|e] eqn:E.
  - destruct (rc =? 0) eqn:Erc; window_simpl.
    + apply Z.eqb_eq in Erc. subst rc.
      exists [ShowStatus (description ++ L " - Success!"); TimeoutAdd 1000].
      rewrite <- !app_assoc. split; [reflexivity|]. split; [reflexivity|].
      split; [split; [eauto | intros _; right; left; reflexivity]|].
      split; [reflexivity|]. split.
      * intros rc out' err' H Hrc. inversion H; subst. contradiction.
      * intros e H. discriminate H.
    + apply Z.eqb_neq in Erc.
      exists [ShowStatus (L "Error: " ++ L "xrandr failed: " ++ error_text err)].
      rewrite <- !app_assoc. split; [reflexivity|]. split; [reflexivity|].
      split; [split|].
      * intros [H|[]]. discriminate H.
      * intros (out' & err' & H). inversion H; subst. contradiction.
      * split; [intros (out' & err' & H); inversion H; subst; contradiction|].
        split; [intros rc' out' err' H _; inversion H; subst; reflexivity|].
        intros e H. discriminate H.
  - exists [ShowStatus (L "Error: " ++ L "Error: " ++ e)].
    window_simpl. rewrite <- !app_assoc.
    split; [reflexivity|]. split; [reflexivity|].
    split; [split|].
    + intros [H|[]]. discriminate H.
    + intros (out' & err' & H). discriminate H.
    + split; [intros (out' & err' & H); discriminate H|].
      split; [intros rc' out' err' H; discriminate H|].
      intros e' H. inversion H; subst. reflexivity.
Qed.

Lemma run_command_facts (env : environment) (w : Window.t)
  (cmd : list str) (description : str) :
  let w' := Window.run_xrandr_command env w cmd description in
  let tr0 := GUI.trace (Window.gui w) ++ [ShowStatus (description ++ L "...")] in
  runs (GUI.trace (Window.gui w')) = runs (GUI.trace (Window.gui w)) ++ [cmd]
  /\ (In (TimeoutAdd 1000) (GUI.trace (Window.gui w'))
      <-> In (TimeoutAdd 1000) (GUI.trace (Window.gui w))
          \/ exists out err, env tr0 cmd = Completed 0 out err)
  /\ ((exists out err, env tr0 cmd = Completed 0 out err)
      -> Window.dialogs w' = Window.dialogs w)
  /\ (forall rc out err,
        env tr0 cmd = Completed rc out err -> rc <> 0 ->
        Window.dialogs w'
        = Window.dialogs w ++ [L "xrandr failed: " ++ error_text err])
  /\ (forall e,
        env tr0 cmd = Raised e ->
        Window.dialogs w' = Window.dialogs w ++ [L "Error: " ++ e])
  /\ GUI.source_display (Window.gui w') = GUI.source_display (Window.gui w)
  /\ GUI.target_display (Window.gui w') = GUI.target_display (Window.gui w)
  /\ GUI.display_widgets (Window.gui w') = GUI.display_widgets (Window.gui w)
  /\ GUI.pending_layout_changes (Window.gui w')
     = GUI.pending_layout_changes (Window.gui w)
  /\ GUI.displays (Window.gui w') = GUI.displays (Window.gui w)
  /\ Window.mirror_btn w' = Window.mirror_btn w
  /\ Window.source_label w' = Window.source_label w
  /\ Window.target_label w' = Window.target_label w
  /\ Window.extend_right_btn w' = Window.extend_right_btn w
  /\ Window.extend_left_btn w' = Window.extend_left_btn w
  /\ GUI.apply_layout_btn (Window.gui w')
     = GUI.apply_layout_btn (Window.gui w)
  /\ GUI.unlink_mirror_btn (Window.gui w')
     = GUI.unlink_mirror_btn (Window.gui w)
  /\ Window.mode_combo w' = Window.mode_combo w
  /\ Window.rate_combo w' = Window.rate_combo w.
Proof.
  intros w' tr0.
  destruct (run_added env w cmd description)
    as (added & Ht & Hr & Hto & Hok & Hfail & Hexc).
  destruct (run_keeps_selection env w cmd description)
    as (H1 & H2 & H3 & H4 & H5 & H6 & H7 & H8 & H9 & H10).
  fold w' in Ht, Hok, Hfail, Hexc, H1, H2, H3, H4, H5, H6, H7, H8, H9, H10.
  fold tr0 in Hto, Hok, Hfail, Hexc.
  split.
  { rewrite Ht, runs_app. cbn [runs flat_map app]. fold (runs added).
    rewrite Hr. reflexivity. }
  split.
  { rewrite Ht. split.
    - intros H. apply in_app_or in H as [H|[H|[H|H]]]; try discriminate H.
      + left; exact H.
      + right. apply Hto, H.
    - intros [H|H]; apply in_or_app; [left; exact H|].
      right. right. right. apply Hto, H. }
  assert (Hb : Window.extend_right_btn w' = Window.extend_right_btn w
               /\ Window.extend_left_btn w' = Window.extend_left_btn w
               /\ GUI.apply_layout_btn (Window.gui w')
                  = GUI.apply_layout_btn (Window.gui w)
               /\ GUI.unlink_mirror_btn (Window.gui w')
                  = GUI.unlink_mirror_btn (Window.gui w)
               /\ Window.mode_combo w' = Window.mode_combo w
               /\ Window.rate_combo w' = Window.rate_combo w).
  { subst w'. unfold Window.run_xrandr_command. cbv zeta.
    destruct (env _ cmd) as [rc out err|e]; [destruct (rc =? 0)|];
      window_simpl; repeat split; reflexivity. }
  destruct Hb as (B1 & B2 & B3 & B4 & B5 & B6).
  repeat split; assumption.
Qed.

(** X13. [run_xrandr_command] runs the one command it is given and
    nothing else; it schedules a refresh exactly when the command exits
    with zero, and shows one error dialog otherwise, with "xrandr
    failed:" and the stripped stderr text or "Unknown error" after a
    non-zero exit and with the text of the exception after one; an
    exception does not leave it.  It never touches the selection, the
    two labels, the five buttons (Mirror, the two Extend buttons, Apply
    and Unlink), the two combo boxes, the widgets, the monitors or the
    pending map. *)
Theorem run_command_outcomes (env : environment) (w : Window.t)
  (cmd : list str) (description : str) :
  let w' := Window.run_xrandr_command env w cmd description in
  let tr0 := GUI.trace (Window.gui w) ++ [ShowStatus (description ++ L "...")] in
  runs (GUI.trace (Window.gui w')) = runs (GUI.trace (Window.gui w)) ++ [cmd]
  /\ (In (TimeoutAdd 1000) (GUI.trace (Window.gui w'))
      <-> In (TimeoutAdd 1000) (GUI.trace (Window.gui w))
          \/ exists out err, env tr0 cmd = Completed 0 out err)
  /\ ((exists out err, env tr0 cmd = Completed 0 out err)
      -> Window.dialogs w' = Window.dialogs w)
  /\ (forall rc out err,
        env tr0 cmd = Completed rc out err -> rc <> 0 ->
        Window.dialogs w'
        = Window.dialogs w ++ [L "xrandr failed: " ++ error_text err])
  /\ (forall e,
        env tr0 cmd = Raised e ->
        Window.dialogs w' = Window.dialogs w ++ [L "Error: " ++ e])
  /\ GUI.source_display (Window.gui w') = GUI.source_display (Window.gui w)
  /\ GUI.target_display (Window.gui w') = GUI.target_display (Window.gui w)
  /\ GUI.display_widgets (Window.gui w') = GUI.display_widgets (Window.gui w)
  /\ GUI.pending_layout_changes (Window.gui w')
     = GUI.pending_layout_changes (Window.gui w)
  /\ GUI.displays (Window.gui w') = GUI.displays (Window.gui w)
  /\ Window.mirror_btn w' = Window.mirror_btn w
  /\ Window.source_label w' = Window.source_label w
  /\ Window.target_label w' = Window.target_label w
  /\ Window.extend_right_btn w' = Window.extend_right_btn w
  /\ Window.extend_left_btn w' = Window.extend_left_btn w
  /\ GUI.apply_layout_btn (Window.gui w')
     = GUI.apply_layout_btn (Window.gui w)
  /\ GUI.unlink_mirror_btn (Window.gui w')
     = GUI.unlink_mirror_btn (Window.gui w)
  /\ Window.mode_combo w' = Window.mode_combo w
  /\ Window.rate_combo w' = Window.rate_combo w.
Proof. exact (run_command_facts env w cmd description). Qed.

Lemma run_command_outcomes_witness :
  (exists out err,
      (fun (_ : list event) (_ : list str) => Completed 0 [] [])
        (GUI.trace (Window.gui Window.init)
           ++ [ShowStatus (L "Mirroring eDP-1 to HDMI-1" ++ L "...")])
        [L "xrandr"] = Completed 0 out err)
  /\ Window.dialogs
       (Window.run_xrandr_command (fun _ _ => Completed 0 [] []) Window.init
          [L "xrandr"] (L "Mirroring eDP-1 to HDMI-1"))
     = Window.dialogs Window.init.
Proof.
  assert (H : exists out err,
      (fun (_ : list event) (_ : list str) => Completed 0 [] [])
        (GUI.trace (Window.gui Window.init)
           ++ [ShowStatus (L "Mirroring eDP-1 to HDMI-1" ++ L "...")])
        [L "xrandr"] = Completed 0 out err)
    by (exists [], []; reflexivity).
  split; [exact H|].
  exact (proj1 (proj2 (proj2
           (run_command_outcomes (fun _ _ => Completed 0 [] []) Window.init
              [L "xrandr"] (L "Mirroring eDP-1 to HDMI-1")))) H).
Defined.

Lemma wclick_keeps_combos (w : Window.t) (k : str) (d : Display.t) :
  Window.mode_combo (Window.on_display_clicked w k d) = Window.mode_combo w
  /\ Window.rate_combo (Window.on_display_clicked w k d) = Window.rate_combo w.
Proof.
  unfold Window.on_display_clicked. cbv zeta.
  repeat match goal with
         | |- context [if ?b then _ else _] => destruct b
         end; split; reflexivity.
Qed.

(** X14. From a cleared selection, clicking one monitor and then a
    monitor of another name and pressing an action button runs exactly
    one command: Mirror runs xrandr --output target --same-as source
    --mode M --rate R, and the Extend buttons run xrandr --auto --output
    target --mode M --rate R --right-of (or --left-of) source, where
    source is the first monitor clicked, target the second, and M and R
    the active texts of the combo boxes.  With nothing selected, or with
    the source only, the three buttons do nothing. *)
Theorem actions_use_clicked_source_and_target (env : environment)
  (w : Window.t) (k1 k2 : str) (d1 d2 : Display.t) :
  Display.name d1 <> Display.name d2 ->
  let w0 := Window.on_clear_clicked w in
  let w1 := Window.on_display_clicked w0 k1 d1 in
  let w2 := Window.on_display_clicked w1 k2 d2 in
  (Window.on_mirror_clicked env w0 = w0
   /\ Window.on_extend_right_clicked env w0 = w0
   /\ Window.on_extend_left_clicked env w0 = w0)
  /\ (Window.on_mirror_clicked env w1 = w1
      /\ Window.on_extend_right_clicked env w1 = w1
      /\ Window.on_extend_left_clicked env w1 = w1)
  /\ runs (GUI.trace (Window.gui (Window.on_mirror_clicked env w2)))
     = runs (GUI.trace (Window.gui w))
         ++ [[L "xrandr"; L "--output"; Display.name d2;
              L "--same-as"; Display.name d1;
              L "--mode"; Window.get_selected_mode w;
              L "--rate"; Window.get_selected_rate w]]
  /\ runs (GUI.trace (Window.gui (Window.on_extend_right_clicked env w2)))
     = runs (GUI.trace (Window.gui w))
         ++ [[L "xrandr"; L "--auto"; L "--output"; Display.name d2;
              L "--mode"; Window.get_selected_mode w;
              L "--rate"; Window.get_selected_rate w;
              L "--right-of"; Display.name d1]]
  /\ runs (GUI.trace (Window.gui (Window.on_extend_left_clicked env w2)))
     = runs (GUI.trace (Window.gui w))
         ++ [[L "xrandr"; L "--auto"; L "--output"; Display.name d2;
              L "--mode"; Window.get_selected_mode w;
              L "--rate"; Window.get_selected_rate w;
              L "--left-of"; Display.name d1]].
Proof.
  intros Hne w0 w1 w2.
  destruct (clear_runs w) as (Hr0 & Hs0 & Ht0 & Hm0 & Hx0).
  change (Window.on_clear_clicked w) with w0 in Hr0, Hs0, Ht0, Hm0, Hx0.
  destruct (click_selects_source (Window.gui w0) k1 d1 Hs0)
    as (Hs1 & Ht1 & Hr1).
  rewrite Ht0 in Ht1.
  assert (E1 : w1 = Window.set_gui (on_display_clicked (Window.gui w0) k1 d1)
                      (Window.set_source_label (Window.label_of d1) w0))
    by (apply wclick_source, Hs0).
  assert (Hs1' : GUI.source_display (Window.gui w1) = Some d1)
    by (rewrite E1; exact Hs1).
  assert (Ht1' : GUI.target_display (Window.gui w1) = None)
    by (rewrite E1; exact Ht1).
  assert (Hr1' : runs (GUI.trace (Window.gui w1))
                 = runs (GUI.trace (Window.gui w)))
    by (rewrite E1; cbn [Window.gui Window.set_gui]; congruence).
  assert (Hne' : Display.name d2 <> Display.name d1) by congruence.
  destruct (click_selects_target (Window.gui w1) k2 d1 d2 Hs1' Ht1' Hne')
    as (Hs2 & Ht2 & Hr2).
  assert (E2 : w2 = Window.update_action_buttons
                      (Window.set_gui (on_display_clicked (Window.gui w1) k2 d2)
                         (Window.set_target_label (Window.label_of d2) w1)))
    by (apply (wclick_target w1 k2 d1 d2); assumption).
  assert (Hs2' : GUI.source_display (Window.gui w2) = Some d1)
    by (rewrite E2; exact Hs2).
  assert (Ht2' : GUI.target_display (Window.gui w2) = Some d2)
    by (rewrite E2; exact Ht2).
  assert (Hr2' : runs (GUI.trace (Window.gui w2))
                 = runs (GUI.trace (Window.gui w)))
    by (rewrite E2; cbn [Window.gui Window.set_gui
                           Window.update_action_buttons]; congruence).
  assert (Hmode : Window.get_selected_mode w2 = Window.get_selected_mode w
                  /\ Window.get_selected_rate w2 = Window.get_selected_rate w).
  { destruct (wclick_keeps_combos w1 k2 d2) as [A B].
    destruct (wclick_keeps_combos w0 k1 d1) as [C D].
    assert (Hc1 : Window.mode_combo w2 = Window.mode_combo w)
      by exact (eq_trans A (eq_trans C Hm0)).
    assert (Hc2 : Window.rate_combo w2 = Window.rate_combo w)
      by exact (eq_trans B (eq_trans D Hx0)).
    unfold Window.get_selected_mode, Window.get_selected_rate.
    rewrite Hc1, Hc2. auto. }
  destruct Hmode as [Hm Hx].
  split; [|split; [|split; [|split]]].
  - unfold Window.on_mirror_clicked, Window.on_extend_right_clicked,
      Window.on_extend_left_clicked. rewrite Hs0. auto.
  - unfold Window.on_mirror_clicked, Window.on_extend_right_clicked,
      Window.on_extend_left_clicked. rewrite Hs1', Ht1'. auto.
  - unfold Window.on_mirror_clicked. rewrite Hs2', Ht2'. cbv zeta.
    rewrite (proj1 (run_command_facts env w2 _ _)), Hr2', Hm, Hx.
    reflexivity.
  - unfold Window.on_extend_right_clicked. rewrite Hs2', Ht2'. cbv zeta.
    rewrite (proj1 (run_command_facts env w2 _ _)), Hr2', Hm, Hx.
    reflexivity.
  - unfold Window.on_extend_left_clicked. rewrite Hs2', Ht2'. cbv zeta.
    rewrite (proj1 (run_command_facts env w2 _ _)), Hr2', Hm, Hx.
    reflexivity.
Qed.

Lemma actions_use_clicked_source_and_target_witness :
  Display.name (default_display (L "eDP-1"))
  <> Display.name (default_display (L "HDMI-1"))
  /\ runs (GUI.trace
             (Window.gui
                (Window.on_mirror_clicked (fun _ _ => Completed 0 [] [])
                   (Window.on_display_clicked
                      (Window.on_display_clicked
                         (Window.on_clear_clicked Window.init)
                         (L "eDP-1") (default_display (L "eDP-1")))
                      (L "HDMI-1") (default_display (L "HDMI-1"))))))
     = [[L "xrandr"; L "--output"; L "HDMI-1"; L "--same-as"; L "eDP-1";
         L "--mode"; L "1920x1080"; L "--rate"; L "60.00"]].
Proof.
  assert (H : Display.name (default_display (L "eDP-1"))
              <> Display.name (default_display (L "HDMI-1")))
    by discriminate.
  split; [exact H|].
  exact (proj1 (proj2 (proj2
           (actions_use_clicked_source_and_target
              (fun _ _ => Completed 0 [] []) Window.init
              (L "eDP-1") (L "HDMI-1") (default_display (L "eDP-1"))
              (default_display (L "HDMI-1")) H)))).
Defined.

End ActionExtras.

(** ** The snap engine: further properties *)

Module SnapExtras.
Import PyDictFacts SnapFacts ReachFacts.

(** X15. The four snap candidates computed from a monitor are, in this
    order, right-of, left-of, above and below; each places the dragged
    rectangle with one edge on the facing edge of that monitor and its
    other coordinate equal to the monitor's, so that the two rectangles
    touch and share no inner point; [_would_overlap] agrees. *)
Theorem candidates_touch_but_do_not_overlap (dragged other : Allocation.t) :
  map (fun p : str * Z * Z => fst (fst p)) (snap_positions dragged other)
  = [L "right-of"; L "left-of"; L "above"; L "below"]
  /\ forall direction snap_x snap_y,
       In (direction, snap_x, snap_y) (snap_positions dragged other) ->
       let placed :=
         Allocation.mk snap_x snap_y (Allocation.width dragged)
           (Allocation.height dragged) in
       ((direction = L "right-of"
         /\ Allocation.x placed = Allocation.x other + Allocation.width other
         /\ Allocation.y placed = Allocation.y other)
        \/ (direction = L "left-of"
            /\ Allocation.x placed + Allocation.width placed
               = Allocation.x other
            /\ Allocation.y placed = Allocation.y other)
        \/ (direction = L "above"
            /\ Allocation.y placed + Allocation.height placed
               = Allocation.y other
            /\ Allocation.x placed = Allocation.x other)
        \/ (direction = L "below"
            /\ Allocation.y placed = Allocation.y other + Allocation.height other
            /\ Allocation.x placed = Allocation.x other))
       /\ (Allocation.x placed + Allocation.width placed <= Allocation.x other
           \/ Allocation.x other + Allocation.width other <= Allocation.x placed
           \/ Allocation.y placed + Allocation.height placed
              <= Allocation.y other
           \/ Allocation.y other + Allocation.height other
              <= Allocation.y placed)
       /\ forall key w_dragged w_other,
            DisplayWidget.allocation w_dragged = dragged ->
            DisplayWidget.allocation w_other = other ->
            _would_overlap [(key, w_other)] w_dragged snap_x snap_y = false.
Proof.
  split; [reflexivity|].
  intros direction snap_x snap_y H placed. subst placed.
  cbn [Allocation.x Allocation.y Allocation.width Allocation.height].
  unfold snap_positions in H.
  assert (Hcases :
            (direction = L "right-of"
             /\ snap_x = Allocation.x other + Allocation.width other
             /\ snap_y = Allocation.y other)
            \/ (direction = L "left-of"
                /\ snap_x + Allocation.width dragged = Allocation.x other
                /\ snap_y = Allocation.y other)
            \/ (direction = L "above"
                /\ snap_y + Allocation.height dragged = Allocation.y other
                /\ snap_x = Allocation.x other)
            \/ (direction = L "below"
                /\ snap_y = Allocation.y other + Allocation.height other
                /\ snap_x = Allocation.x other)).
  { destruct H as [H|[H|[H|[H|[]]]]]; inversion H; subst;
      [left | right; left | right; right; left | right; right; right];
      repeat split; lia. }
  split; [exact Hcases|].
  assert (Hsep : snap_x + Allocation.width dragged <= Allocation.x other
                 \/ Allocation.x other + Allocation.width other <= snap_x
                 \/ snap_y + Allocation.height dragged <= Allocation.y other
                 \/ Allocation.y other + Allocation.height other <= snap_y)
    by (destruct Hcases as [(_ & H1 & H2)|[(_ & H1 & H2)|[(_ & H1 & H2)
                           |(_ & H1 & H2)]]]; lia).
  split; [exact Hsep|].
  intros key w_dragged w_other Hd Ho.
  unfold _would_overlap. cbn [existsb fst snd]. rewrite Hd, Ho.
  destruct (str_eqb key (Display.name (DisplayWidget.display w_dragged)));
    [reflexivity|].
  rewrite orb_false_r.
  rewrite !andb_false_iff, !Z.gtb_ltb, !Z.ltb_ge. lia.
Qed.

Lemma candidates_touch_but_do_not_overlap_witness :
  In (L "left-of", 40, 0)
     (snap_positions (Allocation.mk 110 10 60 40) (Allocation.mk 100 0 80 50))
  /\ _would_overlap
       [(L "eDP-1",
         DisplayWidget.init (default_display (L "eDP-1"))
           (Allocation.mk 100 0 80 50))]
       (DisplayWidget.init (default_display (L "DP-1"))
          (Allocation.mk 110 10 60 40)) 40 0 = false.
Proof.
  assert (H : In (L "left-of", 40, 0)
     (snap_positions (Allocation.mk 110 10 60 40) (Allocation.mk 100 0 80 50)))
    by (right; left; reflexivity).
  split; [exact H|].
  destruct (proj2 (candidates_touch_but_do_not_overlap
                     (Allocation.mk 110 10 60 40) (Allocation.mk 100 0 80 50))
              (L "left-of") 40 0 H) as (_ & _ & Hov).
  exact (Hov (L "eDP-1")
           (DisplayWidget.init (default_display (L "DP-1"))
              (Allocation.mk 110 10 60 40))
           (DisplayWidget.init (default_display (L "eDP-1"))
              (Allocation.mk 100 0 80 50))
           eq_refl eq_refl).
Defined.

(** [_would_overlap] is false exactly when the rectangle at the new
    position shares no inner point with the rectangle of any widget
    stored under another name. *)
Lemma would_overlap_false (items : list (str * DisplayWidget.t))
  (w : DisplayWidget.t) (x y : Z) :
  _would_overlap items w x y = false
  <-> forall k o, In (k, o) items ->
        k <> Display.name (DisplayWidget.display w) ->
        separated
          (Allocation.mk x y (Allocation.width (DisplayWidget.allocation w))
             (Allocation.height (DisplayWidget.allocation w)))
          (DisplayWidget.allocation o).
Proof.
  unfold _would_overlap, separated. cbv zeta.
  cbn [Allocation.x Allocation.y Allocation.width Allocation.height].
  induction items as [|[k0 o0] items IH]; cbn [existsb fst snd].
  - split; [intros _ k o [] | reflexivity].
  - rewrite orb_false_iff, IH. split.
    + intros [H0 Hrest] k o [E|Hin] Hne.
      * inversion E; subst.
        rewrite (proj2 (str_eqb_neq _ _) Hne) in H0.
        rewrite !andb_false_iff, !Z.gtb_ltb, !Z.ltb_ge in H0. lia.
      * apply (Hrest k o Hin Hne).
    + intros H. split.
      * destruct (str_eqb k0 (Display.name (DisplayWidget.display w))) eqn:E;
          [reflexivity|].
        apply str_eqb_neq in E.
        specialize (H k0 o0 (or_introl eq_refl) E).
        rewrite !andb_false_iff, !Z.gtb_ltb, !Z.ltb_ge. lia.
      * intros k o Hin Hne. apply (H k o (or_intror Hin) Hne).
Qed.

Lemma would_overlap_update (k : str) (f : DisplayWidget.t -> DisplayWidget.t)
  (ws : list (str * DisplayWidget.t)) (w w' : DisplayWidget.t) (x y : Z) :
  Display.name (DisplayWidget.display w) = k ->
  Display.name (DisplayWidget.display w') = k ->
  Allocation.width (DisplayWidget.allocation w')
  = Allocation.width (DisplayWidget.allocation w) ->
  Allocation.height (DisplayWidget.allocation w')
  = Allocation.height (DisplayWidget.allocation w) ->
  _would_overlap
    (map (fun kw : str * DisplayWidget.t =>
            if str_eqb k (fst kw) then (fst kw, f (snd kw)) else kw) ws)
    w' x y
  = _would_overlap ws w x y.
Proof.
  intros Hn Hn' Hw Hh. unfold _would_overlap. cbv zeta.
  rewrite Hn, Hn', Hw, Hh.
  induction ws as [|[k0 w0] ws IH]; cbn [map existsb fst snd];
    [reflexivity|].
  rewrite IH. f_equal.
  destruct (str_eqb k k0) eqn:E; cbn [fst snd]; [|reflexivity].
  apply str_eqb_eq in E. subst k0. rewrite str_eqb_refl. reflexivity.
Qed.

(** X16. Releasing a dragged widget never puts it on top of another
    one: whenever [snap_widget_position] changes the position of the
    widget, by a snap or by a fallback anchor, its new rectangle shares
    no inner point with the rectangle of any other widget of the store.
    The widget keeps its display and its size, and no other widget is
    touched. *)
Theorem snap_never_moves_onto_another (s : GUI.t) (k : str)
  (w : DisplayWidget.t) :
  PyDict.get str_eqb k (GUI.display_widgets s) = Some w ->
  Display.name (DisplayWidget.display w) = k ->
  let s' := snap_widget_position s k in
  exists w',
    PyDict.get str_eqb k (GUI.display_widgets s') = Some w'
    /\ DisplayWidget.display w' = DisplayWidget.display w
    /\ Allocation.width (DisplayWidget.allocation w')
       = Allocation.width (DisplayWidget.allocation w)
    /\ Allocation.height (DisplayWidget.allocation w')
       = Allocation.height (DisplayWidget.allocation w)
    /\ (DisplayWidget.allocation w' = DisplayWidget.allocation w
        \/ forall k' o,
             In (k', o) (GUI.display_widgets s') -> k' <> k ->
             let a := DisplayWidget.allocation w' in
             let b := DisplayWidget.allocation o in
             Allocation.x a + Allocation.width a <= Allocation.x b
             \/ Allocation.x b + Allocation.width b <= Allocation.x a
             \/ Allocation.y a + Allocation.height a <= Allocation.y b
             \/ Allocation.y b + Allocation.height b <= Allocation.y a)
    /\ (forall k', k' <> k ->
          PyDict.get str_eqb k' (GUI.display_widgets s')
          = PyDict.get str_eqb k' (GUI.display_widgets s)).
Proof.
  intros Hget Hname s'. subst s'. unfold snap_widget_position. rewrite Hget.
  assert (Hsame : exists w',
             PyDict.get str_eqb k (GUI.display_widgets s) = Some w'
             /\ DisplayWidget.display w' = DisplayWidget.display w
             /\ Allocation.width (DisplayWidget.allocation w')
                = Allocation.width (DisplayWidget.allocation w)
             /\ Allocation.height (DisplayWidget.allocation w')
                = Allocation.height (DisplayWidget.allocation w)
             /\ (DisplayWidget.allocation w' = DisplayWidget.allocation w
                 \/ forall k' o,
                      In (k', o) (GUI.display_widgets s) -> k' <> k ->
                      let a := DisplayWidget.allocation w' in
                      let b := DisplayWidget.allocation o in
                      Allocation.x a + Allocation.width a <= Allocation.x b
                      \/ Allocation.x b + Allocation.width b <= Allocation.x a
                      \/ Allocation.y a + Allocation.height a <= Allocation.y b
                      \/ Allocation.y b + Allocation.height b <= Allocation.y a)
             /\ (forall k', k' <> k ->
                   PyDict.get str_eqb k' (GUI.display_widgets s)
                   = PyDict.get str_eqb k' (GUI.display_widgets s)))
    by (exists w; auto 10).
  assert (Hapart : forall ws w' x y,
             Display.name (DisplayWidget.display w') = k ->
             Allocation.x (DisplayWidget.allocation w') = x ->
             Allocation.y (DisplayWidget.allocation w') = y ->
             _would_overlap ws w' x y = false ->
             forall k' o,
               In (k', o) ws -> k' <> k ->
               let a := DisplayWidget.allocation w' in
               let b := DisplayWidget.allocation o in
               Allocation.x a + Allocation.width a <= Allocation.x b
               \/ Allocation.x b + Allocation.width b <= Allocation.x a
               \/ Allocation.y a + Allocation.height a <= Allocation.y b
               \/ Allocation.y b + Allocation.height b <= Allocation.y a).
  { intros ws w' x y Hn Hx Hy Hov k' o Hin Hne a b. subst a b.
    rewrite <- Hn in Hne.
    pose proof (proj1 (would_overlap_false ws w' x y) Hov k' o Hin Hne) as H.
    unfold separated in H.
    cbn [Allocation.x Allocation.y Allocation.width Allocation.height] in H.
    rewrite Hx, Hy. exact H. }
  destruct (find_best_snap w (GUI.display_widgets s))
    as [[[[sx sy] rel] dir]|].
  - destruct (_would_overlap (GUI.display_widgets s) w sx sy) eqn:Eo;
      cbn [negb]; [exact Hsame|].
    cbn [GUI.display_widgets GUI.show_status GUI.emit GUI.set_apply_layout_btn
         GUI.update_widget GUI.set_display_widgets
         GUI.set_pending_layout_changes].
    exists (DisplayWidget.set_has_pending_changes true
              (DisplayWidget.move sx sy w)).
    split; [|split; [reflexivity|split; [reflexivity|split; [reflexivity|split]]]].
    + rewrite !get_update, str_eqb_refl, Hget. reflexivity.
    + right. apply (Hapart _ _ sx sy); [exact Hname|reflexivity|reflexivity|].
      rewrite (would_overlap_update k _ _
                 (DisplayWidget.move sx sy w)); [|exact Hname|exact Hname
                 |reflexivity|reflexivity].
      rewrite (would_overlap_update k _ _ w); [exact Eo|exact Hname
                 |exact Hname|reflexivity|reflexivity].
    + intros k' Hne. rewrite !get_update.
      rewrite (proj2 (str_eqb_neq k' k) Hne). reflexivity.
  - unfold _find_non_overlapping_position. rewrite Hget.
    destruct (find _ test_positions) as [[px py]|] eqn:Ef; [|exact Hsame].
    apply find_some in Ef as [_ Ef]. cbn [fst snd] in Ef.
    apply negb_true_iff in Ef.
    cbn [GUI.display_widgets GUI.update_widget GUI.set_display_widgets].
    exists (DisplayWidget.move px py w).
    split; [|split; [reflexivity|split; [reflexivity|split; [reflexivity|split]]]].
    + rewrite get_update, str_eqb_refl, Hget. reflexivity.
    + right. apply (Hapart _ _ px py); [exact Hname|reflexivity|reflexivity|].
      rewrite (would_overlap_update k _ _ w); [exact Ef|exact Hname
                 |exact Hname|reflexivity|reflexivity].
    + intros k' Hne. rewrite get_update.
      rewrite (proj2 (str_eqb_neq k' k) Hne). reflexivity.
Qed.

Lemma snap_never_moves_onto_another_witness :
  PyDict.get str_eqb (L "DP-1") (GUI.display_widgets two_monitors)
  = Some (widget_at (L "DP-1") 140 20)
  /\ Display.name (DisplayWidget.display (widget_at (L "DP-1") 140 20))
     = L "DP-1"
  /\ PyDict.get str_eqb (L "DP-1")
       (GUI.display_widgets (snap_widget_position two_monitors (L "DP-1")))
     = Some (DisplayWidget.set_has_pending_changes true
               (widget_at (L "DP-1") 120 20))
  /\ forall k' o,
       In (k', o)
          (GUI.display_widgets (snap_widget_position two_monitors (L "DP-1"))) ->
       k' <> L "DP-1" ->
       120 + 100 <= Allocation.x (DisplayWidget.allocation o)
       \/ Allocation.x (DisplayWidget.allocation o)
          + Allocation.width (DisplayWidget.allocation o) <= 120
       \/ 20 + 60 <= Allocation.y (DisplayWidget.allocation o)
       \/ Allocation.y (DisplayWidget.allocation o)
          + Allocation.height (DisplayWidget.allocation o) <= 20.
Proof.
  split; [reflexivity|]. split; [reflexivity|].
  assert (E : PyDict.get str_eqb (L "DP-1")
                (GUI.display_widgets
                   (snap_widget_position two_monitors (L "DP-1")))
              = Some (DisplayWidget.set_has_pending_changes true
                        (widget_at (L "DP-1") 120 20))) by reflexivity.
  split; [exact E|].
  destruct (snap_never_moves_onto_another two_monitors (L "DP-1")
              (widget_at (L "DP-1") 140 20) eq_refl eq_refl)
    as (w' & H1 & _ & _ & _ & H5 & _).
  rewrite E in H1. inversion H1; subst w'. clear H1.
  destruct H5 as [H5|H5]; [discriminate H5|].
  exact H5.
Defined.

End SnapExtras.

(** ** The pending map *)

Module PendingExtras.
Import PyDictFacts SnapFacts ReachFacts SnapExtras.

Lemma snap_positions_directions a b direction x y :
  In (direction, x, y) (snap_positions a b) -> In direction directions.
Proof.
  unfold snap_positions, directions. intros H.
  repeat (destruct H as [H|H]; [inversion H; subst; cbn [In]; auto 6|]).
  destruct H.
Qed.

Lemma best_snap_is_candidate w items b :
  find_best_snap w items = Some b -> In b (candidates w items).
Proof.
  unfold find_best_snap. rewrite scan_is_fold_over_candidates.
  pose proof (fold_consider_selected w (candidates w items)) as H.
  unfold selected in H. intros E. rewrite E in H.
  destruct H as (_ & _ & pre & post & -> & _).
  apply in_or_app. right. left. reflexivity.
Qed.

Lemma in_candidates w items x y rel direction :
  In (x, y, rel, direction) (candidates w items) ->
  exists key other,
    In (key, other) items
    /\ str_eqb key (Display.name (DisplayWidget.display w)) = false
    /\ rel = Display.name (DisplayWidget.display other)
    /\ In (direction, x, y)
         (snap_positions (DisplayWidget.allocation w)
            (DisplayWidget.allocation other)).
Proof.
  unfold candidates. intros H.
  apply in_flat_map in H as ([key other] & Hin & H). cbn [fst snd] in H.
  destruct (str_eqb key (Display.name (DisplayWidget.display w))) eqn:E;
    [destruct H|].
  apply in_map_iff in H as ([[d sx] sy] & Ep & Hp).
  inversion Ep; subst. exists key, other. auto.
Qed.

Lemma keys_set_nodup {V : Type} (k : str) (v : V) (d : list (str * V)) :
  NoDup (map fst d) -> NoDup (map fst (PyDict.set str_eqb k v d)).
Proof.
  intros H. destruct (PyDict.get str_eqb k d) as [v0|] eqn:E.
  - rewrite (keys_set str_eqb str_eqb_eq); [exact H|].
    apply (get_some_in str_eqb str_eqb_eq) in E.
    apply (in_map fst) in E. exact E.
  - rewrite (set_new str_eqb _ _ _ E), map_app.
    apply NoDup_app; [exact H | constructor; [intros []|constructor]|].
    intros a Ha [<-|[]].
    apply (get_none str_eqb str_eqb_eq) in E. contradiction.
Qed.

Lemma in_set_cases {V : Type} (k : str) (v : V) (d : list (str * V)) entry :
  In entry (PyDict.set str_eqb k v d) -> snd entry = v \/ In entry d.
Proof.
  induction d as [|[k0 v0] d IH]; cbn [PyDict.set].
  - intros [<-|[]]. left; reflexivity.
  - destruct (str_eqb k k0).
    + intros [<-|H]; [left; reflexivity | right; right; exact H].
    + intros [<-|H]; [right; left; reflexivity|].
      destruct (IH H) as [E|E]; [left; exact E | right; right; exact E].
Qed.

Lemma snap_pending (s : GUI.t) (k : str) :
  GUI.pending_layout_changes (snap_widget_position s k)
  = GUI.pending_layout_changes s
  \/ exists w x y rel direction,
       PyDict.get str_eqb k (GUI.display_widgets s) = Some w
       /\ find_best_snap w (GUI.display_widgets s)
          = Some (x, y, rel, direction)
       /\ _would_overlap (GUI.display_widgets s) w x y = false
       /\ snap_widget_position s k
          = GUI.show_status
              (L "Snapped " ++ Display.name (DisplayWidget.display w) ++ L " "
                 ++ direction ++ L " " ++ rel)
              (GUI.set_apply_layout_btn true
                 (GUI.update_widget k
                    (DisplayWidget.set_has_pending_changes true)
                    (GUI.set_pending_layout_changes
                       (PyDict.set str_eqb
                          (Display.name (DisplayWidget.display w))
                          (rel, direction) (GUI.pending_layout_changes s))
                       (GUI.update_widget k (DisplayWidget.move x y) s)))).
Proof.
  unfold snap_widget_position.
  destruct (PyDict.get str_eqb k (GUI.display_widgets s)) as [w|] eqn:Hget;
    [|left; reflexivity].
  destruct (find_best_snap w (GUI.display_widgets s))
    as [[[[x y] rel] direction]|] eqn:Eb.
  - destruct (_would_overlap (GUI.display_widgets s) w x y) eqn:Eo;
      cbn [negb]; [left; reflexivity|].
    right. exists w, x, y, rel, direction. auto.
  - left. unfold _find_non_overlapping_position. rewrite Hget.
    destruct (find _ test_positions) as [[px py]|]; reflexivity.
Qed.

Lemma well_formed_snap (s : GUI.t) (k : str) :
  pending_well_formed s -> pending_well_formed (snap_widget_position s k).
Proof.
  intros [Hnd Hdir]. unfold pending_well_formed.
  destruct (snap_pending s k)
    as [->|(w & x & y & rel & direction & _ & Eb & _ & ->)];
    [auto|].
  cbn [GUI.pending_layout_changes GUI.show_status GUI.emit
       GUI.set_apply_layout_btn GUI.update_widget GUI.set_display_widgets
       GUI.set_pending_layout_changes].
  split; [apply keys_set_nodup, Hnd|].
  intros entry H. apply in_set_cases in H as [->|H]; [|apply Hdir, H].
  cbn [snd]. apply best_snap_is_candidate in Eb.
  apply in_candidates in Eb as (key & other & _ & _ & _ & Hp).
  eapply snap_positions_directions, Hp.
Qed.

Lemma click_pending (s : GUI.t) (k : str) (d : Display.t) :
  GUI.pending_layout_changes (on_display_clicked s k d)
  = GUI.pending_layout_changes s
  /\ GUI.apply_layout_btn (on_display_clicked s k d) = GUI.apply_layout_btn s.
Proof.
  unfold on_display_clicked.
  repeat match goal with
         | |- context [if ?b then _ else _] => destruct b
         end; split; reflexivity.
Qed.

Lemma apply_pending_nil (env : environment) (s : GUI.t) :
  GUI.pending_layout_changes (on_apply_layout_clicked env s) = [].
Proof.
  unfold on_apply_layout_clicked.
  destruct (GUI.pending_layout_changes s) as [|entry rest] eqn:E; [exact E|].
  destruct (fold_left (apply_entry env) (entry :: rest) (GUI.trace s, 0)).
  reflexivity.
Qed.

(** X17. In every state the handlers can reach after a refresh, the
    pending map holds at most one change per monitor and every change
    names one of the directions right-of, left-of, above, below; so
    every command of an apply ends in a direction flag xrandr knows. *)
Theorem reachable_pending_well_formed (s : GUI.t) :
  reachable s ->
  NoDup (map fst (GUI.pending_layout_changes s))
  /\ (forall entry, In entry (GUI.pending_layout_changes s) ->
        In (snd (snd entry)) directions)
  /\ (forall cmd,
        In cmd (map entry_cmd (GUI.pending_layout_changes s)) ->
        exists name direction reference,
          cmd = [L "xrandr"; L "--output"; name; L "--" ++ direction;
                 reference]
          /\ In direction directions).
Proof.
  intros H.
  assert (Hwf : pending_well_formed s).
  { induction H as [s Hp _| s k d _ IH | s k _ IH | env s _ IH].
    - unfold pending_well_formed. rewrite Hp.
      split; [constructor | intros entry []].
    - unfold pending_well_formed.
      rewrite (proj1 (click_pending s k d)). exact IH.
    - apply well_formed_snap, IH.
    - unfold pending_well_formed. rewrite apply_pending_nil.
      split; [constructor | intros entry []]. }
  destruct Hwf as [Hnd Hdir]. split; [exact Hnd|]. split; [exact Hdir|].
  intros cmd Hc. apply in_map_iff in Hc as ([n [r d]] & <- & Hin).
  exists n, d, r. split; [reflexivity|]. apply (Hdir _ Hin).
Qed.

Lemma reachable_pending_well_formed_witness :
  reachable (snap_widget_position two_monitors (L "DP-1"))
  /\ NoDup (map fst (GUI.pending_layout_changes
                       (snap_widget_position two_monitors (L "DP-1")))).
Proof.
  assert (H : reachable (snap_widget_position two_monitors (L "DP-1"))).
  { apply reach_snap. apply reach_refreshed; reflexivity. }
  split; [exact H|].
  exact (proj1 (reachable_pending_well_formed _ H)).
Defined.

(** X18. When a release commits a snap, the change it records for the
    dragged monitor names another monitor, never the dragged one, and
    the direction of the slot the widget now occupies next to that
    monitor; it replaces any earlier change for the dragged monitor,
    raises the pending flag of the widget and enables Apply.  When it
    commits nothing the pending map is unchanged. *)
Theorem committed_snap_names_neighbour (s : GUI.t) (k : str)
  (w : DisplayWidget.t) :
  PyDict.get str_eqb k (GUI.display_widgets s) = Some w ->
  keyed_by_name (GUI.display_widgets s) = true ->
  let s' := snap_widget_position s k in
  GUI.pending_layout_changes s' = GUI.pending_layout_changes s
  \/ exists rel direction other w',
       In (rel, other) (GUI.display_widgets s)
       /\ rel <> k
       /\ In direction directions
       /\ GUI.pending_layout_changes s'
          = PyDict.set str_eqb k (rel, direction)
              (GUI.pending_layout_changes s)
       /\ PyDict.get str_eqb k (GUI.pending_layout_changes s')
          = Some (rel, direction)
       /\ GUI.apply_layout_btn s' = true
       /\ PyDict.get str_eqb k (GUI.display_widgets s') = Some w'
       /\ DisplayWidget.has_pending_changes w' = true
       /\ In (direction,
              Allocation.x (DisplayWidget.allocation w'),
              Allocation.y (DisplayWidget.allocation w'))
            (snap_positions (DisplayWidget.allocation w)
               (DisplayWidget.allocation other)).
Proof.
  intros Hget Hkeyed s'. subst s'.
  assert (Hk : forall key other,
             In (key, other) (GUI.display_widgets s) ->
             key = Display.name (DisplayWidget.display other)).
  { intros key other Hin. unfold keyed_by_name in Hkeyed.
    rewrite forallb_forall in Hkeyed. apply str_eqb_eq.
    exact (Hkeyed _ Hin). }
  assert (Hname : Display.name (DisplayWidget.display w) = k).
  { symmetry. apply Hk. apply (get_some_in str_eqb str_eqb_eq), Hget. }
  destruct (snap_pending s k)
    as [E|(w0 & x & y & rel & direction & Hget0 & Eb & Eo & E)];
    [left; exact E|].
  right. rewrite Hget in Hget0. inversion Hget0; subst w0. rewrite E.
  apply best_snap_is_candidate in Eb.
  apply in_candidates in Eb as (key & other & Hin & Hne & Hrel & Hp).
  pose proof (Hk _ _ Hin) as Hkey. rewrite <- Hkey in Hrel. subst rel.
  rewrite Hname in *.
  exists key, direction, other,
    (DisplayWidget.set_has_pending_changes true (DisplayWidget.move x y w)).
  cbn [GUI.pending_layout_changes GUI.show_status GUI.emit
       GUI.set_apply_layout_btn GUI.update_widget GUI.set_display_widgets
       GUI.set_pending_layout_changes GUI.apply_layout_btn
       GUI.display_widgets].
  split; [exact Hin|]. split; [apply str_eqb_neq, Hne|].
  split; [eapply snap_positions_directions, Hp|].
  split; [reflexivity|].
  split; [rewrite (get_set str_eqb str_eqb_eq), str_eqb_refl; reflexivity|].
  split; [reflexivity|].
  split; [rewrite !get_update, str_eqb_refl, Hget; reflexivity|].
  split; [reflexivity | exact Hp].
Qed.

Lemma committed_snap_names_neighbour_witness :
  PyDict.get str_eqb (L "DP-1") (GUI.display_widgets two_monitors)
  = Some (widget_at (L "DP-1") 140 20)
  /\ keyed_by_name (GUI.display_widgets two_monitors) = true
  /\ (GUI.pending_layout_changes (snap_widget_position two_monitors (L "DP-1"))
      = GUI.pending_layout_changes two_monitors
      \/ exists rel direction other w',
          In (rel, other) (GUI.display_widgets two_monitors)
          /\ rel <> L "DP-1"
          /\ In direction directions
          /\ GUI.pending_layout_changes
               (snap_widget_position two_monitors (L "DP-1"))
             = PyDict.set str_eqb (L "DP-1") (rel, direction)
                 (GUI.pending_layout_changes two_monitors)
          /\ PyDict.get str_eqb (L "DP-1")
               (GUI.pending_layout_changes
                  (snap_widget_position two_monitors (L "DP-1")))
             = Some (rel, direction)
          /\ GUI.apply_layout_btn
               (snap_widget_position two_monitors (L "DP-1")) = true
          /\ PyDict.get str_eqb (L "DP-1")
               (GUI.display_widgets
                  (snap_widget_position two_monitors (L "DP-1")))
             = Some w'
          /\ DisplayWidget.has_pending_changes w' = true
          /\ In (direction,
                 Allocation.x (DisplayWidget.allocation w'),
                 Allocation.y (DisplayWidget.allocation w'))
               (snap_positions
                  (DisplayWidget.allocation (widget_at (L "DP-1") 140 20))
                  (DisplayWidget.allocation other))).
Proof.
  split; [reflexivity|]. split; [reflexivity|].
  exact (committed_snap_names_neighbour two_monitors (L "DP-1")
           (widget_at (L "DP-1") 140 20) eq_refl eq_refl).
Defined.

End PendingExtras.

(** ** Apply: the account of a batch *)

Module ApplyExtras.
Import ApplyFacts PendingExtras.

Lemma statuses_app (a b : list event) :
  statuses (a ++ b) = statuses a + statuses b.
Proof.
  unfold statuses. rewrite filter_app, length_app. lia.
Qed.

Lemma statuses_report (n : str) (o : outcome) :
  0 <= statuses (report n o) <= 1.
Proof.
  destruct o as [rc out err|e]; cbn [report]; [destruct (rc =? 0)|];
    cbn; lia.
Qed.

Lemma apply_entry_count env tr n entry :
  apply_entry env (tr, n) entry
  = (tr ++ Run (entry_cmd entry)
        :: report (fst entry) (env tr (entry_cmd entry)),
     n + 1 - statuses (report (fst entry) (env tr (entry_cmd entry)))).
Proof.
  destruct entry as [display_name [relative_to direction]].
  unfold apply_entry, entry_cmd, report, error_text. cbn [fst snd].
  destruct (env tr (reposition_cmd display_name relative_to direction))
    as [rc out err|e].
  - destruct (rc =? 0); rewrite <- ?app_assoc; cbn [app]; f_equal;
      unfold statuses; cbn; lia.
  - rewrite <- app_assoc. cbn [app]. f_equal. unfold statuses; cbn; lia.
Qed.

Lemma fold_apply_count env pending : forall tr n,
  fold_left (apply_entry env) pending (tr, n)
  = (tr ++ batch env tr pending,
     n + Z.of_nat (length pending) - statuses (batch env tr pending)).
Proof.
  induction pending as [|entry rest IH]; intros tr n;
    cbn [fold_left batch length].
  - rewrite app_nil_r. f_equal. unfold statuses; cbn; lia.
  - rewrite apply_entry_count, IH. cbv zeta.
    rewrite <- app_assoc. f_equal.
    rewrite statuses_app.
    change (statuses (Run (entry_cmd entry)
                        :: report (fst entry) (env tr (entry_cmd entry))))
      with (statuses (report (fst entry) (env tr (entry_cmd entry)))).
    lia.
Qed.

Lemma statuses_batch env pending : forall tr,
  0 <= statuses (batch env tr pending) <= Z.of_nat (length pending).
Proof.
  induction pending as [|entry rest IH]; intros tr; cbn [batch length].
  - unfold statuses; cbn; lia.
  - cbv zeta. rewrite statuses_app.
    change (statuses (Run (entry_cmd entry)
                        :: report (fst entry) (env tr (entry_cmd entry))))
      with (statuses (report (fst entry) (env tr (entry_cmd entry)))).
    pose proof (statuses_report (fst entry) (env tr (entry_cmd entry))).
    specialize (IH (tr ++ Run (entry_cmd entry)
                       :: report (fst entry) (env tr (entry_cmd entry)))).
    lia.
Qed.

(** X19. An apply accounts for every pending entry once: the entries
    are either reported as failed, one status each, or counted in the
    closing status "Applied n layout change(s)", where n is the number
    of entries less the failure reports; that status is shown exactly
    when n is positive, and a refresh is scheduled in either case.  A
    second apply right after it does nothing. *)
Theorem apply_accounts_for_every_entry (env : environment) (s : GUI.t) :
  GUI.pending_layout_changes s <> [] ->
  let pending := GUI.pending_layout_changes s in
  let reports := batch env (GUI.trace s) pending in
  let n := Z.of_nat (length pending) - statuses reports in
  0 <= n <= Z.of_nat (length pending)
  /\ GUI.trace (on_apply_layout_clicked env s)
     = GUI.trace s ++ reports
         ++ (if n >? 0
             then [ShowStatus (L "Applied " ++ py_str n
                                 ++ L " layout change(s)")]
             else [])
         ++ [TimeoutAdd 500]
  /\ (forall env',
        on_apply_layout_clicked env' (on_apply_layout_clicked env s)
        = on_apply_layout_clicked env s).
Proof.
  intros Hne pending reports n.
  split; [|split].
  - pose proof (statuses_batch env pending (GUI.trace s)). subst n reports.
    lia.
  - unfold on_apply_layout_clicked. fold pending.
    destruct pending as [|entry rest] eqn:E; [contradiction|].
    rewrite fold_apply_count. cbn [GUI.trace].
    change (0 + Z.of_nat (length (entry :: rest))
            - statuses (batch env (GUI.trace s) (entry :: rest))) with n.
    destruct (n >? 0); rewrite <- !app_assoc; reflexivity.
  - intros env'. apply apply_idle, apply_pending_nil.
Qed.

Lemma apply_accounts_for_every_entry_witness :
  GUI.pending_layout_changes one_pending <> []
  /\ GUI.trace (on_apply_layout_clicked (fun _ _ => Completed 0 [] [])
                  one_pending)
     = [Run [L "xrandr"; L "--output"; L "HDMI-1"; L "--right-of"; L "eDP-1"];
        ShowStatus (L "Applied 1 layout change(s)");
        TimeoutAdd 500].
Proof.
  assert (H : GUI.pending_layout_changes one_pending <> []) by discriminate.
  split; [exact H|].
  exact (proj1 (proj2 (apply_accounts_for_every_entry
                         (fun _ _ => Completed 0 [] []) one_pending H))).
Defined.

End ApplyExtras.

(** ** Refreshing *)

Module RefreshExtras.
Import PyDictFacts MirrorFacts MirrorClaims MirrorExtras SnapFacts ApplyFacts
       ParserClaims WindowExtras WindowInvariant.

Lemma parse_output_facts (env : environment) (s : GUI.t) :
  exists s1 r,
    parse_xrandr_output env s = (s1, r)
    /\ GUI.displays s1 = GUI.displays s
    /\ GUI.display_widgets s1 = GUI.display_widgets s
    /\ GUI.source_display s1 = GUI.source_display s
    /\ GUI.target_display s1 = GUI.target_display s
    /\ GUI.pending_layout_changes s1 = GUI.pending_layout_changes s
    /\ GUI.apply_layout_btn s1 = GUI.apply_layout_btn s
    /\ GUI.unlink_mirror_btn s1 = GUI.unlink_mirror_btn s
    /\ runs (GUI.trace s1) = runs (GUI.trace s) ++ [query_cmd]
    /\ (forall ds, r = Some ds -> Forall position_not_negative ds)
    /\ (forall e,
          env (GUI.trace s) query_cmd = Raised e ->
          r = Some []
          /\ GUI.trace s1
             = GUI.trace s
                 ++ [Run query_cmd;
                     ShowStatus (L "Error running xrandr: " ++ e)])
    /\ (forall rc out err,
          env (GUI.trace s) query_cmd = Completed rc out err ->
          r = parse_xrandr_text out
          /\ GUI.trace s1 = GUI.trace s ++ [Run query_cmd]).
Proof.
  unfold parse_xrandr_output. cbv zeta. fold query_cmd.
  destruct (env (GUI.trace s) query_cmd) as [rc out err|e].
  - eexists _, _. split; [reflexivity|].
    cbn [GUI.displays GUI.display_widgets GUI.source_display
         GUI.target_display GUI.pending_layout_changes GUI.apply_layout_btn
         GUI.unlink_mirror_btn GUI.trace GUI.emit].
    repeat (split; [reflexivity|]).
    split; [rewrite runs_app; reflexivity|].
    split; [intros ds E; exact (parse_xrandr_text_position out ds E)|].
    split; [intros e H; discriminate H|].
    intros rc' out' err' H. inversion H; subst. auto.
  - eexists _, _. split; [reflexivity|].
    cbn [GUI.displays GUI.display_widgets GUI.source_display
         GUI.target_display GUI.pending_layout_changes GUI.apply_layout_btn
         GUI.unlink_mirror_btn GUI.trace GUI.emit GUI.show_status].
    repeat (split; [reflexivity|]).
    split; [rewrite !runs_app; cbn [runs flat_map app];
            rewrite app_nil_r; reflexivity|].
    split; [intros ds E; inversion E; constructor|].
    split; [|intros rc out err H; discriminate H].
    intros e' H. inversion H; subst. rewrite <- app_assoc. auto.
Qed.

(** X20. The query runs xrandr --query once.  When the command cannot
    be run it returns the empty list and shows "Error running xrandr:"
    with the reason.  Otherwise its result is that of the parser on the
    standard output, whatever the exit code and the error output are: a
    list whenever no line of the output is longer than 4300 characters,
    and otherwise possibly the exception of [int], which the method does
    not catch.  No monitor it returns has a negative position, and it
    changes nothing of the window but the status. *)
Theorem query_runs_once_and_parses_stdout (env : environment) (s : GUI.t) :
  exists s1 r,
    parse_xrandr_output env s = (s1, r)
    /\ runs (GUI.trace s1) = runs (GUI.trace s) ++ [[L "xrandr"; L "--query"]]
    /\ (forall ds, r = Some ds -> Forall position_not_negative ds)
    /\ (forall e,
          env (GUI.trace s) [L "xrandr"; L "--query"] = Raised e ->
          r = Some []
          /\ GUI.trace s1
             = GUI.trace s
                 ++ [Run [L "xrandr"; L "--query"];
                     ShowStatus (L "Error running xrandr: " ++ e)])
    /\ (forall rc out err,
          env (GUI.trace s) [L "xrandr"; L "--query"] = Completed rc out err ->
          r = parse_xrandr_text out
          /\ GUI.trace s1 = GUI.trace s ++ [Run [L "xrandr"; L "--query"]]
          /\ (Forall (fun line => Z.of_nat (length line) <= 4300)
                (split nl out) ->
              exists ds, r = Some ds))
    /\ GUI.displays s1 = GUI.displays s
    /\ GUI.display_widgets s1 = GUI.display_widgets s
    /\ GUI.source_display s1 = GUI.source_display s
    /\ GUI.target_display s1 = GUI.target_display s
    /\ GUI.pending_layout_changes s1 = GUI.pending_layout_changes s
    /\ GUI.apply_layout_btn s1 = GUI.apply_layout_btn s
    /\ GUI.unlink_mirror_btn s1 = GUI.unlink_mirror_btn s.
Proof.
  destruct (parse_output_facts env s)
    as (s1 & r & E & H1 & H2 & H3 & H4 & H5 & H6 & H7 & H8 & H9 & H10 & H11).
  exists s1, r. split; [exact E|]. split; [exact H8|]. split; [exact H9|].
  split; [exact H10|]. split; [|auto 10].
  intros rc out err Hc. destruct (H11 rc out err Hc) as [Hr Ht].
  split; [exact Hr|]. split; [exact Ht|].
  intros Hshort. rewrite Hr. apply parse_xrandr_text_short. exact Hshort.
Qed.

Lemma query_runs_once_and_parses_stdout_witness :
  (exists s1,
      parse_xrandr_output (fun _ _ => Raised (L "No such file")) GUI.init
      = (s1, Some [])
      /\ GUI.trace s1
         = GUI.trace GUI.init
             ++ [Run [L "xrandr"; L "--query"];
                 ShowStatus (L "Error running xrandr: " ++ L "No such file")])
  /\ (exists s1,
        parse_xrandr_output
          (fun _ _ => Completed 1 (L "HDMI-1 connected 1920x1080+0+0")
                        (L "warning"))
          GUI.init
        = (s1, parse_xrandr_text (L "HDMI-1 connected 1920x1080+0+0"))).
Proof.
  split.
  - destruct (query_runs_once_and_parses_stdout
                (fun _ _ => Raised (L "No such file")) GUI.init)
      as (s1 & r & E & _ & _ & Hr & _).
    destruct (Hr (L "No such file") eq_refl) as [Hds Htr].
    exists s1. split; [rewrite <- Hds; exact E | exact Htr].
  - destruct (query_runs_once_and_parses_stdout
                (fun _ _ => Completed 1 (L "HDMI-1 connected 1920x1080+0+0")
                              (L "warning"))
                GUI.init)
      as (s1 & r & E & _ & _ & _ & Hc & _).
    destruct (Hc 1 (L "HDMI-1 connected 1920x1080+0+0") (L "warning") eq_refl)
      as [Hr _].
    exists s1. rewrite <- Hr. exact E.
Defined.

Lemma values_set {V : Type} (Q : V -> Prop) (k : str) (v : V)
  (d : list (str * V)) :
  Forall (fun kv => Q (snd kv)) d -> Q v ->
  Forall (fun kv => Q (snd kv)) (PyDict.set str_eqb k v d).
Proof.
  intros Hd Hv. induction Hd as [|[k0 v0] d H0 Hd IH]; cbn [PyDict.set].
  - constructor; [exact Hv | constructor].
  - destruct (str_eqb k k0); constructor; auto.
Qed.

Lemma get_value {V : Type} (Q : V -> Prop) (k : str) (v : V)
  (d : list (str * V)) :
  Forall (fun kv => Q (snd kv)) d -> PyDict.get str_eqb k d = Some v -> Q v.
Proof.
  intros Hd Hg. apply (get_some_in str_eqb str_eqb_eq) in Hg.
  rewrite Forall_forall in Hd. exact (Hd _ Hg).
Qed.

Lemma build_widgets_unmarked place ds : forall i ws,
  Forall (fun kw => unmarked (snd kw)) ws ->
  Forall (fun kw => unmarked (snd kw)) (build_widgets_from place i ds ws).
Proof.
  unfold build_widgets_from.
  induction ds as [|d ds IH]; intros i ws H;
    cbn [length seq combine fold_left]; [exact H|].
  apply IH. unfold register. cbn [fst snd].
  apply values_set; [exact H|]. repeat split.
Qed.

Lemma mark_names_keeps (Q : DisplayWidget.t -> Prop) (g0 names : list str) :
  (forall l w, Q w -> Q (DisplayWidget.set_mirrored l w)) ->
  forall ws,
    Forall (fun kw => Q (snd kw)) ws ->
    Forall (fun kw => Q (snd kw))
      (fold_left
         (fun ws display_name =>
            match PyDict.get str_eqb display_name ws with
            | Some widget =>
                PyDict.set str_eqb display_name
                  (DisplayWidget.set_mirrored
                     (filter (fun n => negb (str_eqb n display_name)) g0)
                     widget) ws
            | None => ws
            end) names ws).
Proof.
  intros HQ.
  induction names as [|n names IH]; intros ws H; cbn [fold_left]; [exact H|].
  apply IH.
  destruct (PyDict.get str_eqb n ws) as [w|] eqn:E; [|exact H].
  apply values_set; [exact H|]. apply HQ. eapply get_value; eassumption.
Qed.

Lemma mark_group_keeps (Q : DisplayWidget.t -> Prop) group :
  (forall l w, Q w -> Q (DisplayWidget.set_mirrored l w)) ->
  forall ws,
    Forall (fun kw => Q (snd kw)) ws ->
    Forall (fun kw => Q (snd kw)) (mark_group group ws).
Proof.
  intros HQ ws H. unfold mark_group.
  destruct (flagged_mirrored group); [|exact H].
  apply mark_names_keeps; assumption.
Qed.

Lemma mark_mirrored_keeps (Q : DisplayWidget.t -> Prop) groups :
  (forall l w, Q w -> Q (DisplayWidget.set_mirrored l w)) ->
  forall ws,
    Forall (fun kw => Q (snd kw)) ws ->
    Forall (fun kw => Q (snd kw)) (mark_mirrored groups ws).
Proof.
  intros HQ. unfold mark_mirrored.
  induction groups as [|g groups IH]; intros ws H; cbn [fold_left]; [exact H|].
  apply IH. apply mark_group_keeps; assumption.
Qed.

Lemma has_mirrored_spec (ds : list Display.t) :
  has_mirrored (_find_mirrored_display_groups ds) = true
  <-> ~ NoDup (map position_of ds).
Proof.
  rewrite <- mirrored_nil_iff. unfold has_mirrored, _find_mirrored_displays.
  rewrite flat_map_nil, existsb_exists. split.
  - intros (g & Hg & F) H. specialize (H g Hg). rewrite F in H.
    apply flagged_mirrored_spec in F. subst g. simpl in F. lia.
  - intros H.
    destruct (existsb flagged_mirrored (_find_mirrored_display_groups ds))
      eqn:E; [apply existsb_exists in E; exact E|].
    destruct H. intros g Hg.
    destruct (flagged_mirrored g) eqn:F; [|reflexivity].
    assert (existsb flagged_mirrored (_find_mirrored_display_groups ds) = true)
      by (apply existsb_exists; eauto).
    congruence.
Qed.

Lemma create_widgets_fold place (l : list (nat * Display.t)) :
  forall acc,
    fold_left
      (fun (acc : option (list (str * DisplayWidget.t)))
           (id : nat * Display.t) =>
         match acc with
         | None => None
         | Some ws =>
             match place (fst id) (snd id) with
             | None => None
             | Some a =>
                 Some (PyDict.set str_eqb (Display.name (snd id))
                         (DisplayWidget.init (snd id) a) ws)
             end
         end) l acc
    = match acc with
      | None => None
      | Some ws =>
          if forallb (fun id : nat * Display.t =>
                        negb (is_none (place (fst id) (snd id)))) l
          then Some (fold_left (register (placed place)) l ws)
          else None
      end.
Proof.
  induction l as [|id l IH]; intros acc; cbn [fold_left forallb].
  - destruct acc; reflexivity.
  - rewrite IH. destruct acc as [ws|]; [|reflexivity].
    destruct (place (fst id) (snd id)) as [a|] eqn:Ep;
      cbn [is_none negb andb]; [|reflexivity].
    assert (R : register (placed place) ws id
                = PyDict.set str_eqb (Display.name (snd id))
                    (DisplayWidget.init (snd id) a) ws)
      by (unfold register, placed; rewrite Ep; reflexivity).
    rewrite R. reflexivity.
Qed.

Lemma nth_error_combine_seq {A : Type} (l : list A) : forall k i a,
  In (i, a) (combine (seq k (length l)) l)
  <-> (k <= i)%nat /\ nth_error l (i - k) = Some a.
Proof.
  induction l as [|b l IH]; intros k i a; cbn [length seq combine].
  - split; [intros [] | intros [_ H]; destruct (i - k)%nat; discriminate H].
  - cbn [In]. rewrite IH. split.
    + intros [E|[Hle Hn]].
      * inversion E; subst. rewrite Nat.sub_diag. auto.
      * split; [lia|]. replace (i - k)%nat with (S (i - S k)) by lia.
        exact Hn.
    + intros [Hle Hn]. destruct (Nat.eq_dec i k) as [->|Hne].
      * rewrite Nat.sub_diag in Hn. inversion Hn; subst. left; reflexivity.
      * right. split; [lia|].
        replace (i - k)%nat with (S (i - S k)) in Hn by lia. exact Hn.
Qed.

(** The loop returns the store that [build_widgets] describes when no
    placement raises, and raises when one does. *)
Lemma create_widgets_some place ds ws :
  create_widgets place ds = Some ws ->
  ws = build_widgets (placed place) ds.
Proof.
  unfold create_widgets. rewrite create_widgets_fold.
  destruct (forallb _ _); [|discriminate].
  intros H; inversion H; reflexivity.
Qed.

Lemma create_widgets_none place ds :
  create_widgets place ds = None
  <-> exists i d, nth_error ds i = Some d /\ place i d = None.
Proof.
  unfold create_widgets. rewrite create_widgets_fold.
  destruct (forallb _ _) eqn:E.
  - split; [discriminate|]. intros (i & d & Hn & Hp).
    rewrite forallb_forall in E.
    assert (Hin : In (i, d) (combine (seq 0 (length ds)) ds)).
    { apply nth_error_combine_seq. split; [lia|].
      rewrite Nat.sub_0_r. exact Hn. }
    specialize (E _ Hin). cbn [fst snd] in E. rewrite Hp in E.
    discriminate E.
  - split; [intros _|reflexivity].
    assert (H : exists id, In id (combine (seq 0 (length ds)) ds)
                           /\ place (fst id) (snd id) = None).
    { clear -E. induction (combine (seq 0 (length ds)) ds) as [|id l IH];
        cbn [forallb] in E; [discriminate E|].
      apply andb_false_iff in E as [E|E].
      - exists id. split; [left; reflexivity|].
        destruct (place (fst id) (snd id)); [discriminate E | reflexivity].
      - destruct (IH E) as (id' & H1 & H2). exists id'.
        split; [right; exact H1 | exact H2]. }
    destruct H as ([i d] & Hin & Hp). cbn [fst snd] in Hp.
    apply nth_error_combine_seq in Hin as [_ Hn].
    rewrite Nat.sub_0_r in Hn. exists i, d. auto.
Qed.

Lemma keyed_modes_none (l : list str) :
  keyed_modes l = None <-> exists m, In m l /\ mode_area m = None.
Proof.
  induction l as [|m l IH]; cbn [keyed_modes].
  - split; [discriminate | intros (m & [] & _)].
  - destruct (mode_area m) as [k|] eqn:E.
    + destruct (keyed_modes l) as [keyed|].
      * split; [discriminate|]. intros (m' & [<-|Hin] & H); [congruence|].
        assert (X : Some keyed = None)
          by (apply (proj2 IH); exists m'; auto).
        discriminate X.
      * split; [intros _|reflexivity].
        destruct (proj1 IH eq_refl) as (m' & Hin & H).
        exists m'. split; [right; exact Hin | exact H].
    + split; [intros _|reflexivity]. exists m. split; [left; reflexivity|exact E].
Qed.

Lemma keyed_modes_some (l : list str) : forall keyed,
  keyed_modes l = Some keyed ->
  map snd keyed = l
  /\ Forall (fun km => mode_area (snd km) = Some (fst km)) keyed.
Proof.
  induction l as [|m l IH]; cbn [keyed_modes]; intros keyed H.
  - inversion H; subst. split; [reflexivity | constructor].
  - destruct (mode_area m) as [k|] eqn:E; [|discriminate H].
    destruct (keyed_modes l) as [keyed'|]; [|discriminate H].
    inversion H; subst. destruct (IH keyed' eq_refl) as [H1 H2].
    split; [cbn [map snd]; rewrite H1; reflexivity|].
    constructor; [exact E | exact H2].
Qed.

Lemma sorted_modes_none (l : list str) :
  sorted_modes l = None <-> exists m, In m l /\ mode_area m = None.
Proof.
  unfold sorted_modes. rewrite <- keyed_modes_none.
  destruct (keyed_modes l); split; try discriminate; reflexivity.
Qed.

(** What a refresh that returns has done. *)
Lemma refresh_facts (env : environment)
  (place : list Display.t -> nat -> Display.t -> option Allocation.t)
  (set_order : list str -> list str) (w w' : Window.t) :
  refresh_displays env place set_order w = Some w' ->
  exists s1 ds,
    parse_xrandr_output env (GUI.set_display_widgets [] (Window.gui w))
    = (s1, Some ds)
    /\ GUI.displays (Window.gui w') = ds
    /\ GUI.source_display (Window.gui w') = GUI.source_display (Window.gui w)
    /\ GUI.target_display (Window.gui w') = GUI.target_display (Window.gui w)
    /\ runs (GUI.trace (Window.gui w'))
       = runs (GUI.trace (Window.gui w)) ++ [query_cmd]
    /\ (Window.source_label w' = Window.source_label w
        /\ Window.target_label w' = Window.target_label w
        /\ Window.mirror_btn w' = Window.mirror_btn w
        /\ Window.extend_right_btn w' = Window.extend_right_btn w
        /\ Window.extend_left_btn w' = Window.extend_left_btn w
        /\ Window.rate_combo w' = Window.rate_combo w
        /\ Window.dialogs w' = Window.dialogs w)
    /\ (ds = [] ->
        GUI.display_widgets (Window.gui w') = []
        /\ GUI.pending_layout_changes (Window.gui w')
           = GUI.pending_layout_changes (Window.gui w)
        /\ GUI.apply_layout_btn (Window.gui w')
           = GUI.apply_layout_btn (Window.gui w)
        /\ GUI.unlink_mirror_btn (Window.gui w')
           = GUI.unlink_mirror_btn (Window.gui w)
        /\ Window.mode_combo w' = Window.mode_combo w)
    /\ (ds <> [] ->
        exists sorted,
          GUI.display_widgets (Window.gui w')
          = mark_mirrored (_find_mirrored_display_groups ds)
              (build_widgets (placed (place ds)) ds)
          /\ GUI.pending_layout_changes (Window.gui w') = []
          /\ GUI.apply_layout_btn (Window.gui w') = false
          /\ GUI.unlink_mirror_btn (Window.gui w')
             = has_mirrored (_find_mirrored_display_groups ds)
          /\ sorted_modes (set_order (flat_map Display.modes ds)) = Some sorted
          /\ Window.mode_combo w'
             = refill_mode_combo sorted (Window.mode_combo w)).
Proof.
  destruct (parse_output_facts env (GUI.set_display_widgets [] (Window.gui w)))
    as (s1 & r & E & H1 & H2 & H3 & H4 & H5 & H6 & H7 & H8 & _).
  unfold refresh_displays. cbv zeta. rewrite E.
  cbn [GUI.display_widgets GUI.set_display_widgets GUI.source_display
       GUI.target_display GUI.pending_layout_changes GUI.apply_layout_btn
       GUI.unlink_mirror_btn GUI.trace GUI.displays] in H1, H2, H3, H4, H5,
       H6, H7, H8.
  destruct r as [[|d ds]|]; [| |discriminate].
  - intros H; inversion H; subst w'. clear H.
    exists s1, []. split; [reflexivity|].
    cbn [Window.gui Window.set_gui Window.source_label Window.target_label
         Window.mirror_btn Window.extend_right_btn Window.extend_left_btn
         Window.mode_combo Window.rate_combo Window.dialogs
         GUI.displays GUI.display_widgets GUI.source_display
         GUI.target_display GUI.pending_layout_changes GUI.apply_layout_btn
         GUI.unlink_mirror_btn GUI.trace GUI.show_status GUI.emit].
    split; [reflexivity|]. split; [exact H3|]. split; [exact H4|].
    split; [rewrite runs_app, H8; cbn [runs flat_map]; apply app_nil_r|].
    split; [repeat split; reflexivity|].
    split; [auto 6 | intros H; contradiction].
  - destruct (create_widgets (place (d :: ds)) (d :: ds)) as [ws|] eqn:Ew;
      [|discriminate].
    destruct (sorted_modes (set_order (flat_map Display.modes (d :: ds))))
      as [sorted|] eqn:Es; [|discriminate].
    intros H; inversion H; subst w'. clear H.
    exists s1, (d :: ds). split; [reflexivity|].
    cbn [Window.gui Window.set_gui Window.source_label Window.target_label
         Window.mirror_btn Window.extend_right_btn Window.extend_left_btn
         Window.mode_combo Window.rate_combo Window.dialogs
         GUI.displays GUI.display_widgets GUI.source_display
         GUI.target_display GUI.pending_layout_changes GUI.apply_layout_btn
         GUI.unlink_mirror_btn GUI.trace GUI.show_status GUI.emit].
    split; [reflexivity|]. split; [exact H3|]. split; [exact H4|].
    split; [rewrite runs_app, H8; cbn [runs flat_map]; apply app_nil_r|].
    split; [repeat split; reflexivity|].
    split; [intros H; discriminate H|]. intros _.
    exists sorted. rewrite (create_widgets_some _ _ _ Ew). auto 6.
Qed.

(** X21. A refresh that returns has run the query once and has kept the
    selected source and target, the labels, the action buttons, the rate
    combo box and the dialogs.  When it has found monitors it has
    started a fresh layout: the widgets are rebuilt without a selection
    mark or a pending flag, the pending map is emptied, Apply is
    disabled, and Unlink is enabled exactly when two monitors share a
    position.  When it has found none it has only emptied the widget
    store: the pending map, both buttons and the mode combo box are as
    they were. *)
Theorem refresh_starts_a_fresh_layout (env : environment)
  (place : list Display.t -> nat -> Display.t -> option Allocation.t)
  (set_order : list str -> list str) (w w' : Window.t) :
  refresh_displays env place set_order w = Some w' ->
  let s := Window.gui w in
  let s' := Window.gui w' in
  runs (GUI.trace s') = runs (GUI.trace s) ++ [[L "xrandr"; L "--query"]]
  /\ GUI.source_display s' = GUI.source_display s
  /\ GUI.target_display s' = GUI.target_display s
  /\ (Window.source_label w' = Window.source_label w
      /\ Window.target_label w' = Window.target_label w
      /\ Window.mirror_btn w' = Window.mirror_btn w
      /\ Window.extend_right_btn w' = Window.extend_right_btn w
      /\ Window.extend_left_btn w' = Window.extend_left_btn w
      /\ Window.rate_combo w' = Window.rate_combo w
      /\ Window.dialogs w' = Window.dialogs w)
  /\ (GUI.displays s' = [] ->
      GUI.display_widgets s' = []
      /\ GUI.pending_layout_changes s' = GUI.pending_layout_changes s
      /\ GUI.apply_layout_btn s' = GUI.apply_layout_btn s
      /\ GUI.unlink_mirror_btn s' = GUI.unlink_mirror_btn s
      /\ Window.mode_combo w' = Window.mode_combo w)
  /\ (GUI.displays s' <> [] ->
      GUI.pending_layout_changes s' = []
      /\ GUI.apply_layout_btn s' = false
      /\ (forall k x, In (k, x) (GUI.display_widgets s') -> unmarked x)
      /\ (GUI.unlink_mirror_btn s' = true
          <-> ~ NoDup (map position_of (GUI.displays s')))
      /\ reachable s').
Proof.
  intros E s s'. subst s s'.
  destruct (refresh_facts env place set_order w w' E)
    as (s1 & ds & _ & Hd & Hs & Ht & Hr & Hk & He & Hn).
  split; [exact Hr|]. split; [exact Hs|]. split; [exact Ht|].
  split; [exact Hk|]. rewrite Hd. split; [exact He|].
  intros Hne. destruct (Hn Hne) as (sorted & Hw & Hp & Ha & Hu & _).
  assert (Hall : Forall (fun kw => unmarked (snd kw))
                   (GUI.display_widgets (Window.gui w'))).
  { rewrite Hw. apply mark_mirrored_keeps.
    - intros l x Hq. exact Hq.
    - apply build_widgets_unmarked. constructor. }
  split; [exact Hp|]. split; [exact Ha|]. split.
  { intros k x Hin. rewrite Forall_forall in Hall. exact (Hall _ Hin). }
  split; [rewrite Hu; apply has_mirrored_spec|].
  apply reach_refreshed; [exact Hp|].
  apply forallb_forall. intros kw Hin. rewrite Forall_forall in Hall.
  destruct (Hall _ Hin) as (-> & _). reflexivity.
Qed.

Lemma refresh_starts_a_fresh_layout_witness :
  exists w',
    refresh_displays (fun _ _ => Completed 0 (L "HDMI-1 connected") [])
      (fun _ _ _ => Some (Allocation.mk 20 20 100 60)) insertion_order
      (Window.set_gui one_pending Window.init) = Some w'
    /\ GUI.displays (Window.gui w') <> []
    /\ GUI.pending_layout_changes (Window.gui w') = []
    /\ GUI.apply_layout_btn (Window.gui w') = false.
Proof.
  destruct (refresh_displays
              (fun _ _ => Completed 0 (L "HDMI-1 connected") [])
              (fun _ _ _ => Some (Allocation.mk 20 20 100 60)) insertion_order
              (Window.set_gui one_pending Window.init)) as [w'|] eqn:E;
    [|vm_compute in E; discriminate E].
  exists w'. split; [reflexivity|].
  assert (Hd : GUI.displays (Window.gui w') <> []).
  { vm_compute in E. inversion E; subst. discriminate. }
  split; [exact Hd|].
  destruct (refresh_starts_a_fresh_layout _ _ _ _ _ E)
    as (_ & _ & _ & _ & _ & Hn).
  destruct (Hn Hd) as (Hp & Ha & _). split; [exact Hp | exact Ha].
Defined.

(** X25. A refresh raises in three cases and in no other: the parser
    raises; or, monitors having been found, the scaling and placing of
    one of the widgets raises; or the sort key of one of the modes
    gathered from the monitors is not defined. *)
Theorem refresh_raises_exactly_when (env : environment)
  (place : list Display.t -> nat -> Display.t -> option Allocation.t)
  (set_order : list str -> list str) (w : Window.t) :
  refresh_displays env place set_order w = None
  <-> (exists s1,
         parse_xrandr_output env (GUI.set_display_widgets [] (Window.gui w))
         = (s1, None))
      \/ (exists s1 ds,
            parse_xrandr_output env
              (GUI.set_display_widgets [] (Window.gui w))
            = (s1, Some ds)
            /\ ds <> []
            /\ ((exists i d, nth_error ds i = Some d /\ place ds i d = None)
                \/ (exists m,
                      In m (set_order (flat_map Display.modes ds))
                      /\ mode_area m = None))).
Proof.
  unfold refresh_displays. cbv zeta.
  destruct (parse_xrandr_output env
              (GUI.set_display_widgets [] (Window.gui w))) as [s1 r].
  destruct r as [[|d ds]|].
  - split; [discriminate|].
    intros [(s & H)|(s & ds & H & Hne & _)]; inversion H; subst.
    contradiction.
  - destruct (create_widgets (place (d :: ds)) (d :: ds)) as [ws|] eqn:Ew.
    + destruct (sorted_modes (set_order (flat_map Display.modes (d :: ds))))
        as [sorted|] eqn:Es.
      * split; [discriminate|].
        intros [(s & H)|(s & ds' & H & _ & [H'|H'])]; inversion H; subst.
        -- apply create_widgets_none in H'. congruence.
        -- apply sorted_modes_none in H'. congruence.
      * split; [intros _|reflexivity]. right. exists s1, (d :: ds).
        split; [reflexivity|]. split; [discriminate|]. right.
        apply sorted_modes_none. exact Es.
    + split; [intros _|reflexivity]. right. exists s1, (d :: ds).
      split; [reflexivity|]. split; [discriminate|]. left.
      apply create_widgets_none. exact Ew.
  - split; [intros _|reflexivity]. left. exists s1. reflexivity.
Qed.

End RefreshExtras.

Module RefreshExtras2.
Import PyDictFacts MirrorFacts MirrorClaims MirrorExtras SnapFacts ApplyFacts
       ReachFacts ParserClaims WindowExtras WindowInvariant PendingExtras
       RefreshExtras.















End RefreshExtras2.

Module ButtonExtras.
Import PyDictFacts ApplyFacts ReachFacts WindowExtras WindowInvariant
       PendingExtras RefreshExtras.

Lemma snap_cases (s : GUI.t) (k : str) :
  (GUI.pending_layout_changes (snap_widget_position s k)
   = GUI.pending_layout_changes s
   /\ GUI.apply_layout_btn (snap_widget_position s k) = GUI.apply_layout_btn s)
  \/ (GUI.pending_layout_changes (snap_widget_position s k) <> []
      /\ GUI.apply_layout_btn (snap_widget_position s k) = true).
Proof.
  unfold snap_widget_position.
  destruct (PyDict.get str_eqb k (GUI.display_widgets s)) as [w|] eqn:Hget;
    [|left; split; reflexivity].
  destruct (find_best_snap w (GUI.display_widgets s))
    as [[[[x y] rel] direction]|].
  - destruct (_would_overlap (GUI.display_widgets s) w x y); cbn [negb];
      [left; split; reflexivity|].
    right. cbn [GUI.pending_layout_changes GUI.apply_layout_btn
                GUI.show_status GUI.emit GUI.set_apply_layout_btn
                GUI.update_widget GUI.set_display_widgets
                GUI.set_pending_layout_changes].
    split; [apply set_not_empty | reflexivity].
  - left. unfold _find_non_overlapping_position. rewrite Hget.
    destruct (find _ test_positions) as [[px py]|]; split; reflexivity.
Qed.

Lemma sync_same (s s' : GUI.t) :
  GUI.pending_layout_changes s' = GUI.pending_layout_changes s ->
  GUI.apply_layout_btn s' = GUI.apply_layout_btn s ->
  apply_btn_in_sync s -> apply_btn_in_sync s'.
Proof. unfold apply_btn_in_sync. intros -> ->. auto. Qed.

(** X23. The Apply button tells whether a change is pending: it starts
    disabled with an empty pending map, and after every click on a
    monitor, release of a dragged widget, apply, unlink, and refresh
    that returns, it is enabled exactly when the pending map is not
    empty. *)
Theorem apply_button_follows_pending :
  apply_btn_in_sync GUI.init
  /\ forall s,
       apply_btn_in_sync s ->
       (forall k d, apply_btn_in_sync (on_display_clicked s k d))
       /\ (forall k, apply_btn_in_sync (snap_widget_position s k))
       /\ (forall env, apply_btn_in_sync (on_apply_layout_clicked env s))
       /\ (forall env, apply_btn_in_sync (on_unlink_mirror_clicked env s))
       /\ (forall env place set_order w w',
             Window.gui w = s ->
             refresh_displays env place set_order w = Some w' ->
             apply_btn_in_sync (Window.gui w')).
Proof.
  split; [reflexivity|]. intros s Hs.
  split; [|split; [|split; [|split]]].
  - intros k d. destruct (click_pending s k d) as [H1 H2].
    apply (sync_same s); assumption.
  - intros k. destruct (snap_cases s k) as [[H1 H2]|[H1 H2]].
    + apply (sync_same s); assumption.
    + unfold apply_btn_in_sync. rewrite H2.
      destruct (GUI.pending_layout_changes (snap_widget_position s k));
        [contradiction | reflexivity].
  - intros env. unfold on_apply_layout_clicked.
    destruct (GUI.pending_layout_changes s) as [|entry rest] eqn:E;
      [exact Hs|].
    destruct (fold_left (apply_entry env) (entry :: rest) (GUI.trace s, 0)).
    reflexivity.
  - intros env. unfold on_unlink_mirror_clicked.
    destruct (_find_mirrored_displays (GUI.displays s));
      apply (sync_same s); try reflexivity; exact Hs.
  - intros env place set_order w w' Hw E. subst s.
    destruct (refresh_facts env place set_order w w' E)
      as (s1 & ds & _ & _ & _ & _ & _ & _ & He & Hn).
    destruct ds as [|d ds].
    + destruct (He eq_refl) as (_ & H1 & H2 & _).
      apply (sync_same (Window.gui w)); assumption.
    + destruct Hn as (sorted & _ & H1 & H2 & _); [discriminate|].
      unfold apply_btn_in_sync. rewrite H1, H2. reflexivity.
Qed.

Lemma apply_button_follows_pending_witness :
  apply_btn_in_sync two_monitors
  /\ GUI.pending_layout_changes (snap_widget_position two_monitors (L "DP-1"))
     = [(L "DP-1", (L "HDMI-1", L "right-of"))]
  /\ apply_btn_in_sync (snap_widget_position two_monitors (L "DP-1"))
  /\ GUI.apply_layout_btn (snap_widget_position two_monitors (L "DP-1")) = true
  /\ apply_btn_in_sync
       (on_apply_layout_clicked (fun _ _ => Raised (L "No such file"))
          (snap_widget_position two_monitors (L "DP-1")))
  /\ GUI.apply_layout_btn
       (on_apply_layout_clicked (fun _ _ => Raised (L "No such file"))
          (snap_widget_position two_monitors (L "DP-1"))) = false.
Proof.
  assert (H0 : apply_btn_in_sync two_monitors) by reflexivity.
  assert (H1 : apply_btn_in_sync (snap_widget_position two_monitors (L "DP-1")))
    by exact (proj1 (proj2 (proj2 apply_button_follows_pending two_monitors H0))
                (L "DP-1")).
  split; [exact H0|]. split; [reflexivity|]. split; [exact H1|].
  split; [reflexivity|].
  split; [|reflexivity].
  exact (proj1 (proj2 (proj2
           (proj2 apply_button_follows_pending
              (snap_widget_position two_monitors (L "DP-1")) H1)))
           (fun _ _ => Raised (L "No such file"))).
Defined.

(** X24. When the Refresh button returns, it leaves no selection: there
    is no source and no target, both labels read "(none selected)", the
    three action buttons are disabled, no widget carries a selection
    mark, labels and buttons agree with the selection, the rate combo
    box is as it was, and the query has been run once. *)
Theorem refresh_button_clears_selection (env : environment)
  (place : list Display.t -> nat -> Display.t -> option Allocation.t)
  (set_order : list str -> list str) (w w' : Window.t) :
  on_refresh_clicked env place set_order w = Some w' ->
  GUI.source_display (Window.gui w') = None
  /\ GUI.target_display (Window.gui w') = None
  /\ Window.source_label w' = L "(none selected)"
  /\ Window.target_label w' = L "(none selected)"
  /\ Window.mirror_btn w' = false
  /\ Window.extend_right_btn w' = false
  /\ Window.extend_left_btn w' = false
  /\ (forall k x, In (k, x) (GUI.display_widgets (Window.gui w')) ->
        DisplayWidget.is_source x = false
        /\ DisplayWidget.is_target x = false)
  /\ window_in_sync w'
  /\ Window.rate_combo w' = Window.rate_combo w
  /\ runs (GUI.trace (Window.gui w'))
     = runs (GUI.trace (Window.gui w)) ++ [[L "xrandr"; L "--query"]].
Proof.
  intros E. unfold on_refresh_clicked in E.
  destruct (refresh_facts env place set_order _ w' E)
    as (s1 & ds & _ & Hd & Hs & Ht & Hq & Hk & He & Hn).
  destruct Hk as (K1 & K2 & K3 & K4 & K5 & K6 & _).
  destruct (clear_runs w) as (Hq0 & Hs0 & Ht0 & _ & Hr0).
  rewrite Hq0 in Hq.
  rewrite Hs0 in Hs. rewrite Ht0 in Ht.
  assert (Hl : Window.source_label (Window.on_clear_clicked w)
               = L "(none selected)"
               /\ Window.target_label (Window.on_clear_clicked w)
                  = L "(none selected)"
               /\ Window.mirror_btn (Window.on_clear_clicked w) = false
               /\ Window.extend_right_btn (Window.on_clear_clicked w) = false
               /\ Window.extend_left_btn (Window.on_clear_clicked w) = false).
  { unfold Window.on_clear_clicked. window_simpl. auto. }
  destruct Hl as (L1 & L2 & B1 & B2 & B3).
  rewrite L1 in K1. rewrite L2 in K2. rewrite B1 in K3. rewrite B2 in K4.
  rewrite B3 in K5. rewrite Hr0 in K6.
  split; [exact Hs|]. split; [exact Ht|].
  split; [exact K1|]. split; [exact K2|].
  split; [exact K3|]. split; [exact K4|]. split; [exact K5|].
  split; [|split; [|split; [exact K6 | exact Hq]]].
  - intros k x Hin. destruct ds as [|d ds].
    + destruct (He eq_refl) as (Hw & _). rewrite Hw in Hin. destruct Hin.
    + destruct Hn as (sorted & Hw & _); [discriminate|]. rewrite Hw in Hin.
      assert (Hall : Forall (fun kw => unmarked (snd kw))
                       (mark_mirrored
                          (_find_mirrored_display_groups (d :: ds))
                          (build_widgets (placed (place (d :: ds)))
                             (d :: ds)))).
      { apply mark_mirrored_keeps; [intros l y Hy; exact Hy|].
        apply build_widgets_unmarked. constructor. }
      rewrite Forall_forall in Hall. destruct (Hall _ Hin) as (_ & H1 & H2).
      auto.
  - unfold window_in_sync.
    rewrite Hs, Ht, K1, K2, K3, K4, K5. cbn [label_for].
    repeat split; discriminate.
Qed.

Lemma refresh_button_clears_selection_witness :
  exists w',
    on_refresh_clicked
      (fun _ _ => Completed 0 (L "HDMI-1 connected 1920x1080+0+0") [])
      (fun _ _ _ => Some (Allocation.mk 20 20 100 60)) insertion_order
      (Window.on_display_clicked
         (Window.set_gui two_monitors Window.init)
         (L "HDMI-1") (default_display (L "HDMI-1")))
    = Some w'
    /\ GUI.source_display
         (Window.gui
            (Window.on_display_clicked
               (Window.set_gui two_monitors Window.init)
               (L "HDMI-1") (default_display (L "HDMI-1"))))
       = Some (default_display (L "HDMI-1"))
    /\ GUI.source_display (Window.gui w') = None
    /\ Window.source_label w' = L "(none selected)".
Proof.
  destruct (on_refresh_clicked
              (fun _ _ => Completed 0 (L "HDMI-1 connected 1920x1080+0+0") [])
              (fun _ _ _ => Some (Allocation.mk 20 20 100 60)) insertion_order
              (Window.on_display_clicked
                 (Window.set_gui two_monitors Window.init)
                 (L "HDMI-1") (default_display (L "HDMI-1"))))
    as [w'|] eqn:E; [|vm_compute in E; discriminate E].
  exists w'. split; [reflexivity|]. split; [reflexivity|].
  destruct (refresh_button_clears_selection _ _ _ _ w' E)
    as (H1 & _ & H3 & _).
  split; [exact H1 | exact H3].
Defined.

End ButtonExtras.

Module ComboExtras.
Import PyDictFacts RefreshExtras.

Lemma append_all_items (l : list str) : forall c,
  ComboBoxText.items
    (fold_left (fun c mode => ComboBoxText.append_text mode c) l c)
  = ComboBoxText.items c ++ l
  /\ ComboBoxText.active
       (fold_left (fun c mode => ComboBoxText.append_text mode c) l c)
     = ComboBoxText.active c.
Proof.
  induction l as [|m l IH]; intros c; cbn [fold_left].
  - rewrite app_nil_r. auto.
  - destruct (IH (ComboBoxText.append_text m c)) as [H1 H2].
    rewrite H1, H2. cbn [ComboBoxText.items ComboBoxText.active
                         ComboBoxText.append_text].
    rewrite <- app_assoc. auto.
Qed.

Lemma index_of_in (m : str) (l : list str) :
  In m l -> exists i, index_of m l = Some i /\ nth_error l i = Some m.
Proof.
  induction l as [|m' l IH]; [intros []|]. intros Hin. cbn [index_of].
  destruct (str_eqb m' m) eqn:E.
  - apply str_eqb_eq in E. subst m'. exists 0%nat. auto.
  - destruct Hin as [->|Hin]; [rewrite str_eqb_refl in E; discriminate E|].
    destruct (IH Hin) as (i & -> & Hn). exists (S i). auto.
Qed.

Lemma index_of_not_in (m : str) (l : list str) :
  ~ In m l -> index_of m l = None.
Proof.
  induction l as [|m' l IH]; [reflexivity|]. intros Hnin. cbn [index_of].
  destruct (str_eqb m' m) eqn:E.
  - apply str_eqb_eq in E. subst m'. destruct Hnin. left; reflexivity.
  - rewrite IH; [reflexivity|]. intros H. apply Hnin. right; exact H.
Qed.

Lemma insert_by_key_perm (km : Z * str) (l : list (Z * str)) :
  Permutation (insert_by_key km l) (km :: l).
Proof.
  induction l as [|km' l IH]; cbn [insert_by_key]; [reflexivity|].
  destruct (fst km' <? fst km); [reflexivity|].
  rewrite IH. apply perm_swap.
Qed.

Lemma insert_by_key_sorted (km : Z * str) (l : list (Z * str)) :
  StronglySorted (fun a b : Z * str => fst b <= fst a) l ->
  StronglySorted (fun a b : Z * str => fst b <= fst a) (insert_by_key km l).
Proof.
  induction l as [|km' l IH]; cbn [insert_by_key]; intros H.
  - constructor; [constructor | constructor].
  - inversion H as [|? ? Hs Hf]; subst.
    destruct (fst km' <? fst km) eqn:E.
    + apply Z.ltb_lt in E. constructor; [exact H|].
      constructor; [lia|]. rewrite Forall_forall in Hf |- *.
      intros x Hx. specialize (Hf x Hx). cbn beta in Hf. lia.
    + apply Z.ltb_ge in E. constructor; [apply IH, Hs|].
      rewrite Forall_forall in Hf |- *. intros x Hx.
      apply (Permutation_in _ (insert_by_key_perm km l)) in Hx.
      destruct Hx as [<-|Hx]; [exact E | apply Hf, Hx].
Qed.

Lemma fold_insert_sorted (keyed : list (Z * str)) : forall acc,
  StronglySorted (fun a b : Z * str => fst b <= fst a) acc ->
  StronglySorted (fun a b : Z * str => fst b <= fst a)
    (fold_left (fun acc km => insert_by_key km acc) keyed acc)
  /\ Permutation (fold_left (fun acc km => insert_by_key km acc) keyed acc)
       (keyed ++ acc).
Proof.
  induction keyed as [|km keyed IH]; intros acc H; cbn [fold_left app].
  - split; [exact H | reflexivity].
  - destruct (IH (insert_by_key km acc) (insert_by_key_sorted km acc H))
      as [H1 H2].
    split; [exact H1|]. rewrite H2, insert_by_key_perm.
    apply Permutation_sym, Permutation_middle.
Qed.

(** The sort returns its argument rearranged by decreasing key. *)
Lemma sorted_modes_some (l sorted : list str) :
  sorted_modes l = Some sorted ->
  Permutation sorted l
  /\ StronglySorted
       (fun m1 m2 => exists a1 a2,
            mode_area m1 = Some a1 /\ mode_area m2 = Some a2 /\ a2 <= a1)
       sorted.
Proof.
  unfold sorted_modes.
  destruct (keyed_modes l) as [keyed|] eqn:E; [|discriminate].
  intros H; inversion H; subst sorted. clear H.
  destruct (keyed_modes_some l keyed E) as [Hl Hk].
  destruct (fold_insert_sorted keyed [] (SSorted_nil _)) as [Hs Hp].
  rewrite app_nil_r in Hp.
  set (sk := fold_left (fun acc km => insert_by_key km acc) keyed []) in *.
  split.
  - rewrite <- Hl. apply Permutation_map. exact Hp.
  - assert (Hk' : Forall (fun km => mode_area (snd km) = Some (fst km)) sk).
    { rewrite Forall_forall in Hk |- *. intros x Hx. apply Hk.
      apply (Permutation_in _ Hp), Hx. }
    clear -Hs Hk'. induction Hs as [|km sk Hs IH Hf]; cbn [map];
      [constructor|].
    inversion Hk' as [|? ? H0 Hrest]; subst.
    constructor; [apply IH, Hrest|].
    rewrite Forall_forall in Hf, Hrest. apply Forall_forall.
    intros m Hm. apply in_map_iff in Hm as (x & <- & Hx).
    exists (fst km), (fst x). split; [exact H0|].
    split; [apply Hrest, Hx | apply Hf, Hx].
Qed.

Lemma insertion_order_in (l : list str) (m : str) :
  In m (insertion_order l) <-> In m l.
Proof.
  induction l as [|m' l IH]; cbn [insertion_order]; [reflexivity|].
  cbn [In]. rewrite filter_In, IH. split.
  - intros [H|[H _]]; auto.
  - intros [H|H]; [left; exact H|].
    destruct (str_eqb m m') eqn:E.
    + apply str_eqb_eq in E. left. congruence.
    + right. split; [exact H | reflexivity].
Qed.

Lemma insertion_order_is_set_iteration : set_iteration insertion_order.
Proof.
  intros l. split; [|intros m; apply insertion_order_in].
  induction l as [|m l IH]; cbn [insertion_order]; constructor.
  - rewrite filter_In. intros [_ H]. cbn beta in H.
    rewrite str_eqb_refl in H. discriminate H.
  - apply NoDup_filter, IH.
Qed.

(** X26. After a refresh that has found monitors, the mode combo box
    lists every mode of every monitor once, and nothing else, by
    decreasing area (width times height); the selected mode is then
    1920x1080 when the combo box lists it, and otherwise the first mode
    of the combo box, one of largest area, or 1920x1080 again when no
    monitor has a mode. *)
Theorem refresh_fills_mode_combo (env : environment)
  (place : list Display.t -> nat -> Display.t -> option Allocation.t)
  (set_order : list str -> list str) (w w' : Window.t) :
  refresh_displays env place set_order w = Some w' ->
  GUI.displays (Window.gui w') <> [] ->
  set_iteration set_order ->
  let items := ComboBoxText.items (Window.mode_combo w') in
  NoDup items
  /\ (forall m, In m items
                <-> exists d, In d (GUI.displays (Window.gui w'))
                              /\ In m (Display.modes d))
  /\ StronglySorted
       (fun m1 m2 => exists a1 a2,
            mode_area m1 = Some a1 /\ mode_area m2 = Some a2 /\ a2 <= a1)
       items
  /\ Window.get_selected_mode w'
     = match items with
       | [] => L "1920x1080"
       | first :: _ =>
           if str_in (L "1920x1080") items then L "1920x1080" else first
       end.
Proof.
  intros E Hne Hset items. subst items.
  destruct (refresh_facts env place set_order w w' E)
    as (s1 & ds & _ & Hd & _ & _ & _ & _ & _ & Hn).
  rewrite Hd in Hne |- *.
  destruct (Hn Hne) as (sorted & _ & _ & _ & _ & Hs & Hc).
  destruct (sorted_modes_some _ _ Hs) as [Hperm Hsorted].
  destruct (Hset (flat_map Display.modes ds)) as [Hnd Hin].
  assert (Hitems : ComboBoxText.items (Window.mode_combo w') = sorted).
  { rewrite Hc. unfold refill_mode_combo. cbv zeta.
    destruct (append_all_items sorted
                (ComboBoxText.remove_all (Window.mode_combo w)))
      as [H1 _].
    destruct sorted as [|m0 sorted']; [reflexivity|].
    destruct (index_of (L "1920x1080") (m0 :: sorted'));
      cbn [ComboBoxText.items ComboBoxText.set_active]; exact H1. }
  rewrite Hitems.
  split; [apply (Permutation_NoDup (Permutation_sym Hperm)), Hnd|].
  split.
  { intros m. split.
    - intros H. apply (Permutation_in _ Hperm), Hin, in_flat_map in H.
      exact H.
    - intros H. apply (Permutation_in _ (Permutation_sym Hperm)), Hin,
        in_flat_map. exact H. }
  split; [exact Hsorted|].
  unfold Window.get_selected_mode, ComboBoxText.get_active_text.
  rewrite Hc. unfold refill_mode_combo. cbv zeta.
  destruct (append_all_items sorted
              (ComboBoxText.remove_all (Window.mode_combo w)))
    as [H1 H2].
  cbn [ComboBoxText.items ComboBoxText.active ComboBoxText.remove_all app]
    in H1, H2.
  destruct sorted as [|m0 sorted'].
  { cbn [fold_left ComboBoxText.remove_all ComboBoxText.active]. reflexivity. }
  assert (Hm0 : m0 <> []).
  { assert (Hk : exists a, mode_area m0 = Some a).
    { destruct (keyed_modes (set_order (flat_map Display.modes ds)))
        as [keyed|] eqn:Ek;
        [|unfold sorted_modes in Hs; rewrite Ek in Hs; discriminate Hs].
      destruct (keyed_modes_some _ _ Ek) as [Hl Hk].
      assert (Hin0 : In m0 (map snd keyed)).
      { rewrite Hl. apply (Permutation_in _ Hperm). left; reflexivity. }
      apply in_map_iff in Hin0 as (x & <- & Hx).
      rewrite Forall_forall in Hk. exists (fst x). apply Hk, Hx. }
    destruct Hk as [a Ha]. intros ->. discriminate Ha. }
  destruct (str_in (L "1920x1080") (m0 :: sorted')) eqn:Ein.
  - assert (Hin' : In (L "1920x1080") (m0 :: sorted')).
    { unfold str_in in Ein. apply existsb_exists in Ein as (x & Hx & Ex).
      apply str_eqb_eq in Ex. subst x. exact Hx. }
    destruct (index_of_in _ _ Hin') as (i & Ei & Hi). rewrite Ei.
    cbn [ComboBoxText.items ComboBoxText.active ComboBoxText.set_active].
    rewrite H1, Hi. reflexivity.
  - assert (Hnin : ~ In (L "1920x1080") (m0 :: sorted')).
    { intros H. assert (X : str_in (L "1920x1080") (m0 :: sorted') = true).
      { unfold str_in. apply existsb_exists. exists (L "1920x1080").
        split; [exact H | apply str_eqb_refl]. }
      congruence. }
    rewrite (index_of_not_in _ _ Hnin).
    cbn [ComboBoxText.items ComboBoxText.active ComboBoxText.set_active].
    rewrite H1. cbn [nth_error].
    destruct m0 as [|c m0]; [contradiction | reflexivity].
Qed.

Lemma refresh_fills_mode_combo_witness :
  exists w',
    refresh_displays
      (fun _ _ =>
         Completed 0
           (L "eDP-1 connected 1366x768+0+0"
              ++ nl :: L "   1366x768      60.00*+"
              ++ nl :: L "   1024x768      60.00"
              ++ nl :: L "HDMI-1 connected 2560x1440+1366+0"
              ++ nl :: L "   2560x1440     59.95*+"
              ++ nl :: L "   1024x768      60.00") [])
      (fun _ i _ => Some (Allocation.mk (Z.of_nat i * 110 + 20) 20 100 60))
      insertion_order Window.init = Some w'
    /\ GUI.displays (Window.gui w') <> []
    /\ set_iteration insertion_order
    /\ ComboBoxText.items (Window.mode_combo w')
       = [L "2560x1440"; L "1366x768"; L "1024x768"]
    /\ Window.get_selected_mode w' = L "2560x1440".
Proof.
  destruct (refresh_displays
              (fun _ _ =>
                 Completed 0
                   (L "eDP-1 connected 1366x768+0+0"
                      ++ nl :: L "   1366x768      60.00*+"
                      ++ nl :: L "   1024x768      60.00"
                      ++ nl :: L "HDMI-1 connected 2560x1440+1366+0"
                      ++ nl :: L "   2560x1440     59.95*+"
                      ++ nl :: L "   1024x768      60.00") [])
              (fun _ i _ =>
                 Some (Allocation.mk (Z.of_nat i * 110 + 20) 20 100 60))
              insertion_order Window.init) as [w'|] eqn:E;
    [|vm_compute in E; discriminate E].
  exists w'. split; [reflexivity|].
  assert (Hd : GUI.displays (Window.gui w') <> []).
  { vm_compute in E. inversion E; subst. discriminate. }
  assert (Hi : ComboBoxText.items (Window.mode_combo w')
               = [L "2560x1440"; L "1366x768"; L "1024x768"]).
  { vm_compute in E. inversion E; subst. reflexivity. }
  split; [exact Hd|]. split; [exact insertion_order_is_set_iteration|].
  split; [exact Hi|].
  destruct (refresh_fills_mode_combo _ _ _ _ _ E Hd
              insertion_order_is_set_iteration) as (_ & _ & _ & H).
  rewrite Hi in H. exact H.
Defined.

End ComboExtras.
